(** * Laptop data collection system: extraction heuristics and persistence

    A shallow embedding of the specification-extraction code of
    [spiders/amazon_spider.py], [spiders/base_spider.py],
    [core/data_cleaner.py], [utils/helpers.py] and of the persistence
    layer [database/db_service.py], together with the properties the
    system description states about them, and of the parts of
    [core/rate_limiter.py], [core/proxy_manager.py] and
    [database/models.py] they work with.

    Conventions of the embedding.
    - Python [str] is [string]; the texts are taken to be ASCII, so that
      [\d], [\s], [str.lower], [str.upper], [str.isdigit], [str.strip]
      and [str.split] are the ASCII ones.  Where a statement depends on
      it, it says so with the hypothesis [ascii_text].
    - Python [float] values obtained from decimal numerals are exact
      rationals ([Q]); [repr] of a float is the shortest decimal numeral,
      which is what Python prints for numerals of at most 15 significant
      digits and magnitude in [1e-4, 1e16).  [round] is taken on the
      exact rational, where Python takes it on the binary double: the
      two can differ in the last place kept when the exact value lies
      on a tie or within floating-point error of one.  Statements about
      rounded values therefore bound the distance to the exact value,
      and name the value itself only where no rounding is needed.
    - [re] patterns are terms of [regex], run by a backtracking matcher
      with Python's priorities (leftmost start, ordered alternation,
      greedy repetition).
    - A raised exception is the [Raise] result.
    - [datetime.utcnow()] is an explicit clock value. *)

From Stdlib Require Import ZArith QArith Qround String Ascii List Bool Lia.
From Stdlib Require Import DecimalString Lqa Qabs.
From Stdlib Require Qcanon.
From stdpp Require Import gmap strings list sorting.

Import ListNotations.
Local Open Scope string_scope.
Local Open Scope nat_scope.

(* ===================================================================== *)
(** ** Python values used by the code *)
(* ===================================================================== *)

Inductive exn : Type :=
| ValueError
| TypeError
| AttributeError.

Inductive result (A : Type) : Type :=
| Ok (a : A)
| Raise (e : exn).

Arguments Ok {A} a.
Arguments Raise {A} e.

Definition bind {A B : Type} (r : result A) (f : A -> result B) : result B :=
  match r with
  | Ok a => f a
  | Raise e => Raise e
  end.

Notation "'let!' x ':=' r 'in' k" := (bind r (fun x => k))
  (at level 10, x name, r at level 100, k at level 200).

(* ===================================================================== *)
(** ** Text primitives *)
(* ===================================================================== *)

Module Text.

Definition is_digit (c : ascii) : bool :=
  let n := nat_of_ascii c in (48 <=? n) && (n <=? 57).

Definition is_upper (c : ascii) : bool :=
  let n := nat_of_ascii c in (65 <=? n) && (n <=? 90).

Definition is_lower (c : ascii) : bool :=
  let n := nat_of_ascii c in (97 <=? n) && (n <=? 122).

(** [\s] and [str.isspace] on ASCII: space, \t, \n, \v, \f, \r and the
    four separators \x1c to \x1f. *)
Definition is_space (c : ascii) : bool :=
  let n := nat_of_ascii c in
  (n =? 32) || ((9 <=? n) && (n <=? 13)) || ((28 <=? n) && (n <=? 31)).

Definition lower_char (c : ascii) : ascii :=
  if is_upper c then ascii_of_nat (nat_of_ascii c + 32) else c.

Definition upper_char (c : ascii) : ascii :=
  if is_lower c then ascii_of_nat (nat_of_ascii c - 32) else c.

Fixpoint map_chars (f : ascii -> ascii) (s : string) : string :=
  match s with
  | EmptyString => EmptyString
  | String c s' => String (f c) (map_chars f s')
  end.

(** [s.lower()] and [s.upper()]. *)
Definition lower : string -> string := map_chars lower_char.
Definition upper : string -> string := map_chars upper_char.

(** [pat in s]. *)
Fixpoint contains (pat s : string) : bool :=
  String.prefix pat s ||
  match s with
  | EmptyString => false
  | String _ s' => contains pat s'
  end.

Fixpoint filter_chars (p : ascii -> bool) (s : string) : string :=
  match s with
  | EmptyString => EmptyString
  | String c s' =>
      if p c then String c (filter_chars p s') else filter_chars p s'
  end.

Fixpoint lstrip (s : string) : string :=
  match s with
  | String c s' => if is_space c then lstrip s' else s
  | EmptyString => EmptyString
  end.

(** [s.strip()]. *)
Definition strip (s : string) : string :=
  String.rev (lstrip (String.rev (lstrip s))).

(** [sep.join(parts)]. *)
Fixpoint join (sep : string) (parts : list string) : string :=
  match parts with
  | [] => ""
  | [p] => p
  | p :: rest => p ++ sep ++ join sep rest
  end.

Definition nonempty (s : string) : bool :=
  match s with EmptyString => false | _ => true end.

(** Every character of the text is in the class. *)
Fixpoint all_chars (p : ascii -> bool) (s : string) : bool :=
  match s with
  | EmptyString => true
  | String c s' => p c && all_chars p s'
  end.

(** [s.split(sep)] for a non-empty separator, scanning from the left;
    [skip] counts the characters of a separator still to be passed. *)
Fixpoint split_go (sep : string) (skip : nat) (cur s : string)
  : list string :=
  match s with
  | EmptyString => [cur]
  | String c s' =>
      match skip with
      | S k => split_go sep k cur s'
      | O =>
          if String.prefix sep s
          then cur :: split_go sep (String.length sep - 1) "" s'
          else split_go sep 0 (cur ++ String c "") s'
      end
  end.

Definition split (sep s : string) : list string := split_go sep 0 "" s.

(** [s.split()]: the maximal runs of characters that are not
    whitespace; [cur] is the run being read. *)
Fixpoint words_go (cur s : string) : list string :=
  match s with
  | EmptyString => if nonempty cur then [cur] else []
  | String c s' =>
      if is_space c
      then (if nonempty cur then cur :: words_go "" s'
            else words_go "" s')
      else words_go (cur ++ String c "") s'
  end.

Definition words (s : string) : list string := words_go "" s.

(** [re.sub(r'\s+', ' ', s)]: every maximal run of whitespace becomes
    one space; [in_run] tells that the character before was
    whitespace. *)
Fixpoint squeeze (in_run : bool) (s : string) : string :=
  match s with
  | EmptyString => EmptyString
  | String c s' =>
      if is_space c
      then (if in_run then squeeze true s'
            else String " " (squeeze true s'))
      else String c (squeeze false s')
  end.

End Text.

(* ===================================================================== *)
(** ** Numerals: [float(...)] and the printing of floats *)
(* ===================================================================== *)

Module Num.

Definition digit_val (c : ascii) : Z := Z.of_nat (nat_of_ascii c - 48).

Fixpoint digits_val (acc : Z) (s : string) : Z :=
  match s with
  | EmptyString => acc
  | String c s' => digits_val (10 * acc + digit_val c)%Z s'
  end.

Definition all_digits : string -> bool := Text.all_chars Text.is_digit.

(** Splits at the first decimal point. *)
Fixpoint split_point (s : string) : string * option string :=
  match s with
  | EmptyString => (EmptyString, None)
  | String c s' =>
      if Ascii.eqb c "."%char then (EmptyString, Some s')
      else let '(i, f) := split_point s' in (String c i, f)
  end.

Definition pow10 (n : nat) : positive := Pos.pow 10 (Pos.of_nat n).

Definition scale (n : nat) : positive :=
  match n with O => 1%positive | _ => pow10 n end.

(** [float(s)] for a text made of digits and decimal points, which is
    all the callers below ever pass: the numeral needs at least one
    digit and at most one point; anything else raises [ValueError]. *)
Definition py_float (s : string) : result Q :=
  let '(i, f) := split_point s in
  let f' := match f with Some x => x | None => EmptyString end in
  if all_digits i && all_digits f'
     && Text.nonempty (i ++ f')
  then Ok (Qred (Qmake (digits_val 0 (i ++ f')) (scale (String.length f'))))
  else Raise ValueError.

Definition string_of_Z (z : Z) : string :=
  NilZero.string_of_int (Z.to_int z).

(** The decimal digits of a fraction in [0,1), as long as it lasts. *)
Fixpoint frac_digits (fuel : nat) (q : Q) : string :=
  match fuel with
  | O => EmptyString
  | S fuel' =>
      if Qeq_bool q 0 then EmptyString
      else
        let q10 := Qred (q * 10) in
        let d := Qfloor q10 in
        String (ascii_of_nat (48 + Z.to_nat d))
               (frac_digits fuel' (Qred (q10 - inject_Z d)))
  end.

(** [repr(x)] / [f"{x}"] for a non-negative float. *)
Definition py_float_repr (q : Q) : string :=
  let i := Qfloor q in
  let f := frac_digits 17 (Qred (q - inject_Z i)) in
  string_of_Z i ++ "." ++ (if Text.nonempty f then f else "0").

(** [round(x, ndigits)]: to the nearest multiple of [10^-ndigits],
    ties to even. *)
Definition py_round (ndigits : nat) (q : Q) : Q :=
  let unit := scale ndigits in
  let h := Qred (q * inject_Z (Zpos unit)) in
  let lo := Qfloor h in
  let r := Qred (h - inject_Z lo) in
  let n :=
    match Qcompare r (1 # 2) with
    | Lt => lo
    | Gt => (lo + 1)%Z
    | Eq => if Z.even lo then lo else (lo + 1)%Z
    end in
  Qred (Qmake n unit).

Definition py_round2 : Q -> Q := py_round 2.

End Num.

(* ===================================================================== *)
(** ** Regular expressions ([re.search], [re.finditer]) *)
(* ===================================================================== *)

Module Re.

Inductive regex : Type :=
| Eps
| Chr (c : ascii)
| Cls (p : ascii -> bool)
| Seq (r1 r2 : regex)
| Alt (r1 r2 : regex)
| Star (r : regex)
| Grp (n : nat) (r : regex).

Definition Plus (r : regex) : regex := Seq r (Star r).
Definition Opt (r : regex) : regex := Alt r Eps.

(** A literal word, character by character. *)
Fixpoint Word (s : string) : regex :=
  match s with
  | EmptyString => Eps
  | String c EmptyString => Chr c
  | String c s' => Seq (Chr c) (Word s')
  end.

Fixpoint Alts (rs : list regex) : regex :=
  match rs with
  | [] => Eps
  | [r] => r
  | r :: rs' => Alt r (Alts rs')
  end.

Definition digit : regex := Cls Text.is_digit.
Definition space : regex := Cls Text.is_space.

(** Captured groups, most recent binding first. *)
Definition caps : Type := list (nat * string).

Fixpoint group (n : nat) (c : caps) : string :=
  match c with
  | [] => ""
  | (m, s) :: c' => if Nat.eqb n m then s else group n c'
  end.

(** The text consumed between the input [s] and a suffix [s'] of it. *)
Definition consumed (s s' : string) : string :=
  String.substring 0 (String.length s - String.length s') s.

Section Matcher.
(** [re.IGNORECASE] *)
Variable icase : bool.
Context {A : Type}.

Definition cont : Type := string -> caps -> option A.

Definition chr_match (a b : ascii) : bool :=
  if icase
  then Ascii.eqb (Text.lower_char a) (Text.lower_char b)
  else Ascii.eqb a b.

Definition cls_match (p : ascii -> bool) (b : ascii) : bool :=
  if icase
  then p b || p (Text.lower_char b) || p (Text.upper_char b)
  else p b.

(** Greedy repetition: one more round of [step] first, the
    continuation otherwise; a round has to consume input. *)
Fixpoint star_loop (step : string -> caps -> cont -> option A)
         (fuel : nat) (s : string) (c : caps) (k : cont) : option A :=
  match fuel with
  | O => k s c
  | S fuel' =>
      match step s c
              (fun s' c' =>
                 if String.length s' <? String.length s
                 then star_loop step fuel' s' c' k
                 else None) with
      | Some a => Some a
      | None => k s c
      end
  end.

Fixpoint rmatch (r : regex) (s : string) (c : caps) (k : cont)
  : option A :=
  match r with
  | Eps => k s c
  | Chr a =>
      match s with
      | String b s' => if chr_match a b then k s' c else None
      | EmptyString => None
      end
  | Cls p =>
      match s with
      | String b s' => if cls_match p b then k s' c else None
      | EmptyString => None
      end
  | Seq r1 r2 => rmatch r1 s c (fun s' c' => rmatch r2 s' c' k)
  | Alt r1 r2 =>
      match rmatch r1 s c k with
      | Some a => Some a
      | None => rmatch r2 s c k
      end
  | Star r1 => star_loop (rmatch r1) (S (String.length s)) s c k
  | Grp n r1 =>
      rmatch r1 s c (fun s' c' => k s' ((n, consumed s s') :: c'))
  end.
End Matcher.

(** A match object: [m.start()], [m.group()], the groups and the text
    after [m.end()]. *)
Record match_obj : Type := MkMatch {
  m_start : nat;
  m_text : string;
  m_groups : caps;
  m_rest : string
}.

Definition match_at (icase : bool) (r : regex) (pos : nat) (s : string)
  : option match_obj :=
  rmatch icase r s []
    (fun s' c' => Some (MkMatch pos (consumed s s') c' s')).

(** [re.search(r, s)]: the match at the leftmost position that has one. *)
Fixpoint search_from (icase : bool) (r : regex) (pos : nat) (s : string)
  : option match_obj :=
  match match_at icase r pos s with
  | Some m => Some m
  | None =>
      match s with
      | EmptyString => None
      | String _ s' => search_from icase r (S pos) s'
      end
  end.

Definition search (icase : bool) (r : regex) (s : string)
  : option match_obj :=
  search_from icase r 0 s.

(** [re.finditer(r, s)]: successive non-overlapping matches. *)
Fixpoint finditer_from (icase : bool) (r : regex) (fuel pos : nat)
         (s : string) : list match_obj :=
  match fuel with
  | O => []
  | S fuel' =>
      match search_from icase r pos s with
      | None => []
      | Some m =>
          let used := String.length s - String.length (m_rest m) in
          m :: match m_rest m with
               | EmptyString => []
               | String _ rest' =>
                   if Text.nonempty (m_text m)
                   then finditer_from icase r fuel' (pos + used) (m_rest m)
                   else finditer_from icase r fuel' (pos + used + 1) rest'
               end
      end
  end.

Definition finditer (icase : bool) (r : regex) (s : string)
  : list match_obj :=
  finditer_from icase r (S (String.length s)) 0 s.

End Re.

(* ===================================================================== *)
(** ** The raw specification table of a page *)
(* ===================================================================== *)

(** [tech_specs]: lower-snake-case field name to cleaned text. *)
Abbreviation spec_table := (gmap string string).

(** [next((specs.get(key, '') for key in keys if key in specs), '')] *)
Fixpoint first_present (keys : list string) (specs : spec_table) : string :=
  match keys with
  | [] => ""
  | k :: keys' =>
      match specs !! k with
      | Some v => v
      | None => first_present keys' specs
      end
  end.

(** [' '.join(specs.get(key, '') for key in keys if key in specs)] *)
Definition join_present (keys : list string) (specs : spec_table) : string :=
  Text.join " " (omap (fun k => specs !! k) keys).

(** The [for x in xs: if test(x): ...; break] idiom. *)
Definition first_match {A : Type} (test : A -> bool) (xs : list A)
  : option A := List.find test xs.

Definition found (m : option Re.match_obj) : bool :=
  match m with Some _ => true | None => false end.

(* ===================================================================== *)
(** ** spiders/amazon_spider.py: the field extractors *)
(* ===================================================================== *)

Module AmazonSpider.
Import Re.

Record processor_info : Type := MkProcessor {
  p_brand : string;
  p_model : string;
  p_generation : string;
  p_speed : string;
  p_cores : string
}.

Definition processor_default : processor_info :=
  MkProcessor "" "" "" "" "".

Definition processor_keys : list string :=
  ["processor_type"; "processor"; "cpu_model"].

Definition processor_brands : list string := ["Intel"; "AMD"; "Apple"].

(** [(\d+)(?:th|st|nd|rd)\s*Gen] *)
Definition gen_re : regex :=
  Seq (Grp 1 (Plus digit))
      (Seq (Alts [Word "th"; Word "st"; Word "nd"; Word "rd"])
           (Seq (Star space) (Word "Gen"))).

Definition cpu_models : list (regex * string) :=
  [ (Word "i3", "Core i3");
    (Word "i5", "Core i5");
    (Word "i7", "Core i7");
    (Word "i9", "Core i9");
    (Seq (Word "ryzen") (Seq (Star space) digit), "Ryzen");
    (Word "celeron", "Celeron");
    (Word "pentium", "Pentium") ].

Definition digit_or_point (c : ascii) : bool :=
  Text.is_digit c || Ascii.eqb c "."%char.

(** [([\d.]+)\s*(?:GHz|MHz)] *)
Definition speed_re : regex :=
  Seq (Grp 1 (Plus (Cls digit_or_point)))
      (Seq (Star space) (Alt (Word "GHz") (Word "MHz"))).

(** [(\d+)\s*(?:cores?|processors?)] *)
Definition cores_re : regex :=
  Seq (Grp 1 (Plus digit))
      (Seq (Star space)
           (Alt (Seq (Word "core") (Opt (Chr "s")))
                (Seq (Word "processor") (Opt (Chr "s"))))).

(** The unit chosen for a matched speed text. *)
Definition speed_unit (matched : string) : string :=
  if Text.contains "MHz" (Text.upper matched) then "MHz" else "GHz".

(** The [# Extract speed] step on the processor text. *)
Definition extract_speed (info : string) : result string :=
  match search true speed_re info with
  | Some m =>
      let! speed := Num.py_float (group 1 (m_groups m)) in
      Ok (Num.py_float_repr speed ++ " " ++ speed_unit (m_text m))
  | None => Ok ""
  end.

Definition _extract_processor_info (specs : spec_table)
  : result processor_info :=
  let info := first_present processor_keys specs in
  if Text.nonempty info then
    let brand :=
      match first_match
              (fun b => Text.contains (Text.lower b) (Text.lower info))
              processor_brands with
      | Some b => b
      | None => ""
      end in
    let generation :=
      match search true gen_re info with
      | Some m => group 1 (m_groups m) ++ "th Gen"
      | None => ""
      end in
    let model :=
      match first_match (fun pm => found (search true (fst pm) info))
                        cpu_models with
      | Some pm => snd pm
      | None => ""
      end in
    let! speed := extract_speed info in
    let cores :=
      match search true cores_re info with
      | Some m => group 1 (m_groups m)
      | None => ""
      end in
    Ok (MkProcessor brand model generation speed cores)
  else Ok processor_default.

(** *** RAM *)

Record ram_info : Type := MkRam {
  r_size : string;
  r_type : string;
  r_speed : string
}.

Definition ram_default : ram_info := MkRam "" "" "".

Definition ram_keys : list string :=
  ["ram"; "memory"; "ram_memory_installed_size"].

Definition ram_types : list string :=
  ["DDR4"; "DDR5"; "LPDDR4"; "LPDDR4X"; "LPDDR5"].

(** [(\d+)\s*GB] *)
Definition ram_size_re : regex :=
  Seq (Grp 1 (Plus digit)) (Seq (Star space) (Word "GB")).

(** [(\d+)\s*MHz] *)
Definition ram_speed_re : regex :=
  Seq (Grp 1 (Plus digit)) (Seq (Star space) (Word "MHz")).

(** The [# Extract RAM type] loop. *)
Definition ram_type_of (info : string) : string :=
  match first_match (fun t => Text.contains t info) ram_types with
  | Some t => t
  | None => ""
  end.

Definition _extract_ram_info (specs : spec_table) : ram_info :=
  let info := first_present ram_keys specs in
  if Text.nonempty info then
    let size :=
      match search true ram_size_re info with
      | Some m => group 1 (m_groups m) ++ "GB"
      | None => ""
      end in
    let speed :=
      match search true ram_speed_re info with
      | Some m => group 1 (m_groups m) ++ "MHz"
      | None => ""
      end in
    MkRam size (ram_type_of info) speed
  else ram_default.

(** *** Ports *)

Definition port_keys : list string :=
  ["ports"; "connectivity_type"; "hardware_interface"; "interfaces"].

Definition in_A_C (c : ascii) : bool :=
  let n := nat_of_ascii c in (65 <=? n) && (n <=? 67).

Definition port_patterns : list regex :=
  [ (* USB (?:\d\.?\d?)(?: Type-[A-C])? *)
    Seq (Word "USB ")
        (Seq (Seq digit (Seq (Opt (Chr ".")) (Opt digit)))
             (Opt (Seq (Word " Type-") (Cls in_A_C))));
    (* Type-C *)
    Word "Type-C";
    (* Thunderbolt\s*\d? *)
    Seq (Word "Thunderbolt") (Seq (Star space) (Opt digit));
    (* HDMI ?\d?\.?\d?[a-z]? *)
    Seq (Word "HDMI")
        (Seq (Opt (Chr " "))
             (Seq (Opt digit)
                  (Seq (Opt (Chr "."))
                       (Seq (Opt digit) (Opt (Cls Text.is_lower))))));
    (* DisplayPort(?:\s*\d?\.?\d?)? *)
    Seq (Word "DisplayPort")
        (Opt (Seq (Star space)
                  (Seq (Opt digit) (Seq (Opt (Chr ".")) (Opt digit)))));
    Word "VGA";
    Word "D-Sub";
    Word "RJ45";
    Word "Ethernet";
    (* (?:3\.5mm|audio|headphone|mic)(?:\s+)?(?:combo)?(?:\s+)?jack *)
    Seq (Alts [Word "3.5mm"; Word "audio"; Word "headphone"; Word "mic"])
        (Seq (Opt (Plus space))
             (Seq (Opt (Word "combo"))
                  (Seq (Opt (Plus space)) (Word "jack"))));
    (* Audio(?:\s+)?(?:Combo)?(?:\s+)?Jack *)
    Seq (Word "Audio")
        (Seq (Opt (Plus space))
             (Seq (Opt (Word "Combo"))
                  (Seq (Opt (Plus space)) (Word "Jack"))));
    Word "SD card reader";
    Word "microSD slot";
    Word "Kensington lock" ].

(** The two nested loops: every match of every pattern is added,
    stripped, to the set. *)
Definition collect_ports (info : string) : gset string :=
  foldl (fun ports pattern =>
           foldl (fun ports m => {[ Text.strip (m_text m) ]} ∪ ports)
                 ports (finditer true pattern info))
        ∅ port_patterns.

(** [sorted(list(ports))] *)
Definition sorted_list (ports : gset string) : list string :=
  merge_sort String.le (elements ports).

Definition _extract_ports_info (specs : spec_table) : list string :=
  let info := join_present port_keys specs in
  let ports := if Text.nonempty info then collect_ports info else ∅ in
  sorted_list ports.

(** *** Dimensions and weight *)

Record dimensions_info : Type := MkDimensions {
  d_length : Q;
  d_width : Q;
  d_height : Q;
  d_weight : Q
}.

Definition dimension_keys : list string :=
  ["dimensions"; "product_dimensions"; "item_dimensions"].

Definition weight_keys : list string :=
  ["weight"; "item_weight"; "product_weight"].

(** A decimal number, [\d+\.?\d*], captured as group [n]. *)
Definition number (n : nat) : regex :=
  Grp n (Seq (Plus digit) (Seq (Opt (Chr ".")) (Star digit))).

Definition length_unit : regex :=
  Alts [Word "cm"; Word "mm"; Word "inches"].

(** [N\s*sep\s*N\s*sep\s*N\s*(?:cm|mm|inches)] *)
Definition triple_re (sep : regex) : regex :=
  Seq (number 1)
      (Seq (Star space) (Seq sep (Seq (Star space)
      (Seq (number 2)
      (Seq (Star space) (Seq sep (Seq (Star space)
      (Seq (number 3)
      (Seq (Star space) length_unit))))))))).

(** [x], and [[×x]] with the multiplication sign in UTF-8. *)
Definition sep_x : regex := Chr "x".
Definition sep_times_x : regex := Alt (Word "×") (Chr "x").

Definition dimension_patterns : list regex :=
  [triple_re sep_x; triple_re sep_times_x].

Definition multiplier (info : string) : Q :=
  if Text.contains "mm" (Text.lower info) then 1 # 10
  else if Text.contains "inches" (Text.lower info) then 254 # 100
  else 1.

(** The first pattern of the list that matches. *)
Fixpoint first_search (patterns : list regex) (info : string)
  : option match_obj :=
  match patterns with
  | [] => None
  | p :: ps =>
      match search true p info with
      | Some m => Some m
      | None => first_search ps info
      end
  end.

(** [kg|pounds?|lbs?|g] preceded by the number *)
Definition weight_re : regex :=
  Seq (number 1)
      (Seq (Star space)
           (Grp 2 (Alts [Word "kg";
                         Seq (Word "pound") (Opt (Chr "s"));
                         Seq (Word "lb") (Opt (Chr "s"));
                         Word "g"]))).

Definition to_kg (weight : Q) (unit : string) : Q :=
  if String.prefix "pound" unit || String.prefix "lb" unit
  then weight * (453592 # 1000000)
  else if String.prefix "g" unit then weight * (1 # 1000)
  else weight.

Definition scaled (text : string) (mult : Q) : result Q :=
  let! v := Num.py_float text in Ok (Num.py_round2 (v * mult)).

Definition _extract_dimensions_info (specs : spec_table)
  : result dimensions_info :=
  let info := first_present dimension_keys specs in
  let! lwh :=
    if Text.nonempty info then
      match first_search dimension_patterns info with
      | Some m =>
          let mult := multiplier info in
          let! l := scaled (group 1 (m_groups m)) mult in
          let! w := scaled (group 2 (m_groups m)) mult in
          let! h := scaled (group 3 (m_groups m)) mult in
          Ok (l, w, h)
      | None => Ok (0, 0, 0)%Q
      end
    else Ok (0, 0, 0)%Q in
  let weight_info := first_present weight_keys specs in
  let! weight :=
    if Text.nonempty weight_info then
      match search true weight_re weight_info with
      | Some m =>
          let! weight := Num.py_float (group 1 (m_groups m)) in
          let unit := Text.lower (group 2 (m_groups m)) in
          Ok (Num.py_round2 (to_kg weight unit))
      | None => Ok 0%Q
      end
    else Ok 0%Q in
  let '(l, w, h) := lwh in
  Ok (MkDimensions l w h weight).

(** *** Storage *)

Record storage_info : Type := MkStorage {
  s_primary_type : string;
  s_primary_capacity : string;
  s_secondary_type : string;
  s_secondary_capacity : string
}.

Definition storage_keys : list string := ["hard_drive"; "storage"; "hard_disk"].

(** [(\d+)\s*(?:GB|TB)?\s*NAME] *)
Definition storage_re (name : string) : regex :=
  Seq (Grp 1 (Plus digit))
      (Seq (Star space)
           (Seq (Opt (Alt (Word "GB") (Word "TB")))
                (Seq (Star space) (Word name)))).

Definition storage_types : list (string * regex) :=
  [ ("SSD", storage_re "SSD"); ("HDD", storage_re "HDD");
    ("eMMC", storage_re "eMMC"); ("NVMe", storage_re "NVMe") ].

(** ["TB" if "TB" in storage_info[match.start():match.end()] else "GB"] *)
Definition capacity_of (m : match_obj) : string :=
  group 1 (m_groups m)
  ++ (if Text.contains "TB" (m_text m) then "TB" else "GB").

(** The loop over the matches of one type; the state is the record and
    [found_primary].  The first match seen while a primary exists is
    written as secondary and ends the loop. *)
Fixpoint storage_matches (storage_type : string) (ms : list match_obj)
         (st : storage_info * bool) : storage_info * bool :=
  match ms with
  | [] => st
  | m :: ms' =>
      let '(r, found_primary) := st in
      if found_primary
      then (MkStorage (s_primary_type r) (s_primary_capacity r)
                      storage_type (capacity_of m), true)
      else storage_matches storage_type ms'
             (MkStorage storage_type (capacity_of m)
                        (s_secondary_type r) (s_secondary_capacity r), true)
  end.

Definition _extract_storage_info (specs : spec_table) : storage_info :=
  let info := first_present storage_keys specs in
  let start := (MkStorage "" "" "" "", false) in
  if Text.nonempty info then
    fst (fold_left
           (fun st tp => storage_matches (fst tp)
                           (finditer true (snd tp) info) st)
           storage_types start)
  else fst start.

(** *** Display *)

Record display_info : Type := MkDisplay {
  v_size : string;
  v_resolution : string;
  v_type : string;
  v_refresh_rate : string;
  v_nits : string
}.

Definition display_keys : list string :=
  ["display"; "screen"; "display_resolution"].

(** A decimal number, blanks, then [inches?]. *)
Definition display_size_re : regex :=
  Seq (number 1) (Seq (Star space) (Seq (Word "inche") (Opt (Chr "s")))).

(** [[xX×]], the multiplication sign in UTF-8. *)
Definition by_sign : regex := Alt (Chr "x") (Alt (Chr "X") (Word "×")).

Definition resolution_patterns : list regex :=
  [ (* (\d+\s*[xX×]\s*\d+) *)
    Grp 1 (Seq (Plus digit)
               (Seq (Star space)
                    (Seq by_sign (Seq (Star space) (Plus digit)))));
    (* (HD|Full HD|FHD|QHD|2K|4K|UHD) *)
    Grp 1 (Alts [Word "HD"; Word "Full HD"; Word "FHD"; Word "QHD";
                 Word "2K"; Word "4K"; Word "UHD"]);
    (* (\d+p) *)
    Grp 1 (Seq (Plus digit) (Chr "p")) ].

Definition display_types : list string :=
  ["IPS"; "OLED"; "LED"; "LCD"; "Mini LED"; "VA"; "TN"].

(** [(\d+)\s*Hz] *)
Definition refresh_re : regex :=
  Seq (Grp 1 (Plus digit)) (Seq (Star space) (Word "Hz")).

(** [(\d+)\s*nits?] *)
Definition nits_re : regex :=
  Seq (Grp 1 (Plus digit))
      (Seq (Star space) (Seq (Word "nit") (Opt (Chr "s")))).

(** The first pattern of the list that matches, case-sensitively. *)
Fixpoint first_search_cs (patterns : list regex) (info : string)
  : option match_obj :=
  match patterns with
  | [] => None
  | p :: ps =>
      match search false p info with
      | Some m => Some m
      | None => first_search_cs ps info
      end
  end.

Definition display_type_of (info : string) : string :=
  match first_match (fun t => Text.contains t info) display_types with
  | Some t => t
  | None => ""
  end.

Definition _extract_display_info (specs : spec_table) : display_info :=
  let info := join_present display_keys specs in
  if Text.nonempty info then
    let size :=
      match search true display_size_re info with
      | Some m => group 1 (m_groups m) ++ " inches"
      | None => ""
      end in
    let resolution :=
      match first_search_cs resolution_patterns info with
      | Some m => group 1 (m_groups m)
      | None => ""
      end in
    let refresh_rate :=
      match search false refresh_re info with
      | Some m => group 1 (m_groups m) ++ "Hz"
      | None => ""
      end in
    let nits :=
      match search true nits_re info with
      | Some m => group 1 (m_groups m) ++ " nits"
      | None => ""
      end in
    MkDisplay size resolution (display_type_of info) refresh_rate nits
  else MkDisplay "" "" "" "" "".

(** *** Brand *)

Definition common_brands : list string :=
  [ "HP"; "Dell"; "Lenovo"; "ASUS"; "Acer"; "MSI"; "Apple";
    "Microsoft"; "Razer"; "Samsung"; "LG"; "Toshiba"; "Fujitsu";
    "Alienware"; "ROG"; "Predator"; "VAIO"; "Huawei"; "Honor";
    "Xiaomi"; "Realme"; "RedmiBook" ].

Definition brand_keys : list string := ["brand"; "brand_name"; "manufacturer"].

(** The first known brand whose lower-cased name occurs in the
    lower-cased text. *)
Definition brand_in (text : string) : option string :=
  first_match (fun b => Text.contains (Text.lower b) (Text.lower text))
              common_brands.

(** The loop over the brand keys: a key that is present but names no
    known brand lets the next key be tried. *)
Fixpoint brand_from_specs (keys : list string) (specs : spec_table)
  : option string :=
  match keys with
  | [] => None
  | key :: keys' =>
      match specs !! key with
      | Some v =>
          match brand_in (Text.strip v) with
          | Some brand => Some brand
          | None => brand_from_specs keys' specs
          end
      | None => brand_from_specs keys' specs
      end
  end.

Definition _extract_brand (title : string) (specs : spec_table) : string :=
  match brand_from_specs brand_keys specs with
  | Some brand => brand
  | None =>
      match brand_in title with
      | Some brand => brand
      | None => "Unknown"
      end
  end.

(** *** Links and product ids *)

(** [f"https://www.amazon.in/dp/{asin}"] *)
Definition product_url (asin : string) : string :=
  "https://www.amazon.in/dp/" ++ asin.

(** [url.split('/dp/')[-1].split('/')[0]] *)
Definition product_id_of (url : string) : string :=
  hd "" (Text.split "/" (List.last (Text.split "/dp/" url) "")).

(** [extract_product_links] on the [data-asin] attributes of the grid
    items of a listing page, in page order.  A page that cannot be
    fetched gives the empty list, as a page without items does. *)
Definition extract_product_links (asins : list string) : list string :=
  firstn 10
    (map product_url
         (List.filter (fun asin => Text.nonempty asin
                                   && Text.nonempty (Text.strip asin))
                      asins)).

End AmazonSpider.

(* ===================================================================== *)
(** ** core/data_cleaner.py *)
(* ===================================================================== *)

(** [try: ... except (handled): return fallback] *)
Definition try_except {A : Type} (body : result A)
           (handled : exn -> bool) (fallback : A) : result A :=
  match body with
  | Ok a => Ok a
  | Raise e => if handled e then Ok fallback else Raise e
  end.

Definition is_ValueError_or_TypeError (e : exn) : bool :=
  match e with ValueError | TypeError => true | AttributeError => false end.

Definition is_ValueError_or_AttributeError (e : exn) : bool :=
  match e with ValueError | AttributeError => true | TypeError => false end.

(** [re.sub(r'[^\d.]', '', s)]: every character outside the class
    [[\d.]] is deleted. *)
Definition strip_non_numeric (s : string) : string :=
  Text.filter_chars AmazonSpider.digit_or_point s.

Module DataCleaner.

Definition clean_price (price : string) : result Q :=
  try_except (Num.py_float (strip_non_numeric price))
             is_ValueError_or_TypeError 0%Q.

(** The dictionary [clean_ram_info] returns has the keys [size] and
    [type] only. *)
Record ram_info : Type := MkRam {
  r_size : string;
  r_type : string
}.

Definition ram_types : list string := ["DDR4"; "DDR5"; "LPDDR4"; "LPDDR5"].

(** [(\d+)\s*GB], case-sensitive here. *)
Definition clean_ram_info (info : string) : ram_info :=
  let size :=
    match Re.search false AmazonSpider.ram_size_re info with
    | Some m => Re.group 1 (Re.m_groups m) ++ "GB"
    | None => ""
    end in
  let type :=
    match first_match (fun t => Text.contains t info) ram_types with
    | Some t => t
    | None => ""
    end in
  MkRam size type.

(** The dictionary [clean_storage_info] returns has the keys [type]
    and [capacity]. *)
Record storage_info : Type := MkStorage {
  s_type : string;
  s_capacity : string
}.

Definition storage_types : list string := ["SSD"; "HDD"; "eMMC"].

(** [(\d+)\s*(GB|TB)] *)
Definition capacity_re : Re.regex :=
  Re.Seq (Re.Grp 1 (Re.Plus Re.digit))
         (Re.Seq (Re.Star Re.space)
                 (Re.Grp 2 (Re.Alt (Re.Word "GB") (Re.Word "TB")))).

Definition clean_storage_info (info : string) : storage_info :=
  let type :=
    match first_match (fun t => Text.contains t info) storage_types with
    | Some t => t
    | None => ""
    end in
  let capacity :=
    match Re.search false capacity_re info with
    | Some m => Re.group 1 (Re.m_groups m) ++ Re.group 2 (Re.m_groups m)
    | None => ""
    end in
  MkStorage type capacity.

End DataCleaner.

(* ===================================================================== *)
(** ** spiders/base_spider.py and the price selectors *)
(* ===================================================================== *)

Module BaseSpider.

(** [price_text.replace(',', '')] *)
Definition drop_commas (s : string) : string :=
  Text.filter_chars (fun c => negb (Ascii.eqb c ","%char)) s.

Definition _extract_price (price_text : string) : result Q :=
  try_except
    (let price := Text.filter_chars Text.is_digit (drop_commas price_text) in
     Num.py_float price)
    is_ValueError_or_AttributeError 0%Q.

(** A parsed page, as far as the price path sees it:
    [soup.select_one(selector)] gives the text of the first element
    the selector finds, if any. *)
Definition soup : Type := string -> option string.

Definition price_selectors : list string :=
  [ "span.a-price-whole";
    ".a-price .a-offscreen";
    "#priceblock_ourprice";
    "#priceblock_dealprice";
    ".apexPriceToPay .a-offscreen" ].

Fixpoint first_price (selectors : list string) (page : soup) : result Q :=
  match selectors with
  | [] => Ok 0%Q
  | sel :: rest =>
      match page sel with
      | Some text => _extract_price text
      | None => first_price rest page
      end
  end.

(** [AmazonSpider._extract_current_price] *)
Definition _extract_current_price (page : soup) : result Q :=
  first_price price_selectors page.

(** [' '.join(text.strip().split())], and [""] for an empty text. *)
Definition _clean_text (text : string) : string :=
  if Text.nonempty text
  then Text.join " " (Text.words (Text.strip text))
  else "".

(** [_get_domain]: [url.split('/')[2]]; [None] stands for the
    [IndexError] of an address with fewer than two slashes. *)
Definition _get_domain (url : string) : option string :=
  nth_error (Text.split "/" url) 2.

(** The double quote. *)
Definition dquote : string := String (ascii_of_nat 34) "".

Definition original_price_selectors : list string :=
  [ ".a-text-strike";
    "#priceblock_listprice";
    ".priceBlockStrikePriceString";
    ".a-price.a-text-price span[aria-hidden=" ++ dquote ++ "true"
       ++ dquote ++ "]" ].

(** [AmazonSpider._extract_original_price]: [None] when no selector
    finds an element. *)
Fixpoint first_listed_price (selectors : list string)
         (page : soup) : result (option Q) :=
  match selectors with
  | [] => Ok None
  | sel :: rest =>
      match page sel with
      | Some text =>
          let! price := _extract_price text in Ok (Some price)
      | None => first_listed_price rest page
      end
  end.

Definition _extract_original_price (page : soup)
  : result (option Q) :=
  first_listed_price original_price_selectors page.

(** [a or b] for an optional float [a]: [None] and [0.0] are false. *)
Definition or_else (a : option Q) (b : Q) : Q :=
  match a with
  | Some x => if Qeq_bool x 0 then b else x
  | None => b
  end.

(** The two prices as [extract_product_data] computes them:
    [current_price] and
    [self._extract_original_price(soup) or current_price]. *)
Definition page_prices (page : soup) : result (Q * Q) :=
  let! current_price := _extract_current_price page in
  let! listed := _extract_original_price page in
  Ok (current_price, or_else listed current_price).

(** The loop of [_process_pagination] from page [page] on, with
    [remaining] pages left; [links_of_page n] is what
    [extract_product_links] gives for [f"{base_url}&page={n}"].  An
    empty page and an exception both end the loop. *)
Fixpoint pagination_loop (links_of_page : nat -> result (list string))
         (page remaining : nat) (all_links : list string) : list string :=
  match remaining with
  | O => all_links
  | S remaining' =>
      match links_of_page page with
      | Ok (link :: links) =>
          pagination_loop links_of_page (S page) remaining'
                          (all_links ++ link :: links)
      | Ok [] => all_links
      | Raise _ => all_links
      end
  end.

(** [list(set(all_links))]: the links without duplicates.  Python
    leaves the order of the list open; here it is the order of
    [elements]. *)
Definition _process_pagination (links_of_page : nat -> result (list string))
           (max_pages : nat) : list string :=
  elements (list_to_set (C := gset string)
              (pagination_loop links_of_page 1 max_pages [])).

(** What the request of one pass through the loop of
    [get_page_content] meets: an answer with its status and its text
    ([None] when reading the text raises), a timeout, or any other
    exception, raised by [_get_domain], the rate limiter, the proxy
    manager or the request. *)
Inductive answer : Type :=
| Response (status : Z) (text : option string)
| TimedOut
| Failed.

(** One pass through the loop: the seconds
    [self.rate_limiter.acquire] sleeps at the start of the [try] block
    (0 when it does not sleep or is not reached), and what the pass
    meets after it. *)
Record attempt : Type := MkAttempt {
  limiter_pause : Q;
  met : answer
}.

(** One pass through the [try] block at the given [retry_count]: the
    text returned, if any, and the seconds slept inside the block, by
    the rate limiter and by the block itself.  Status 200 returns the
    text; 403 and 429 sleep [5 * (retry_count + 1)]; 404 and every
    other status raise [ValueError], which the handler for [Exception]
    logs like any other failure. *)
Definition try_fetch (retry_count : nat) (a : attempt) : option string * Q :=
  match met a with
  | Response status text =>
      if (status =? 200)%Z then (text, limiter_pause a)
      else if (status =? 404)%Z then (None, limiter_pause a)
      else if (status =? 403)%Z || (status =? 429)%Z
           then (None,
                 (limiter_pause a
                  + 5 * (inject_Z (Z.of_nat retry_count) + 1))%Q)
           else (None, limiter_pause a)
  | TimedOut => (None, limiter_pause a)
  | Failed => (None, limiter_pause a)
  end.

(** The loop [while retry_count < max_retries] with [remaining] passes
    left; [attempts n] is pass [n] and [slept] the seconds slept so
    far.  A pass that returns nothing adds one to [retry_count] and
    sleeps [retry_count * 2]; [None] at the end is the final
    [raise Exception]. *)
Fixpoint fetch_loop (attempts : nat -> attempt) (retry_count remaining : nat)
         (slept : Q) : option string * Q :=
  match remaining with
  | O => (None, slept)
  | S remaining' =>
      match try_fetch retry_count (attempts retry_count) with
      | (Some text, inside) => (Some text, (slept + inside)%Q)
      | (None, inside) =>
          fetch_loop attempts (S retry_count) remaining'
                     (slept + inside
                      + (inject_Z (Z.of_nat retry_count) + 1) * 2)%Q
      end
  end.

Definition get_page_content (attempts : nat -> attempt) : option string * Q :=
  fetch_loop attempts 0 3 0%Q.

End BaseSpider.

(* ===================================================================== *)
(** ** utils/helpers.py *)
(* ===================================================================== *)

(** Python values held in dictionaries and stored documents. *)
#[warnings="-register-all"]
Inductive value : Type :=
| VNone
| VBool (b : bool)
| VInt (z : Z)
| VFloat (q : Q)
| VStr (s : string)
| VDate (t : Z)
| VList (l : list value)
| VDict (d : list (string * value)).

(** A dictionary keeps its keys in insertion order. *)
Abbreviation dict := (list (string * value)).

Fixpoint dict_get (k : string) (d : dict) : option value :=
  match d with
  | [] => None
  | (k', v) :: d' => if String.eqb k k' then Some v else dict_get k d'
  end.

(** [d[k] = v]: in place when the key exists, appended otherwise. *)
Fixpoint dict_set (k : string) (v : value) (d : dict) : dict :=
  match d with
  | [] => [(k, v)]
  | (k', v') :: d' =>
      if String.eqb k k' then (k', v) :: d' else (k', v') :: dict_set k v d'
  end.

(** Truth value of a non-dictionary object in [elif value:]. *)
Definition truthy (v : value) : bool :=
  match v with
  | VNone => false
  | VBool b => b
  | VInt z => negb (Z.eqb z 0)
  | VFloat q => negb (Qeq_bool q 0)
  | VStr s => Text.nonempty s
  | VDate _ => true
  | VList l => match l with [] => false | _ => true end
  | VDict d => match d with [] => false | _ => true end
  end.

Definition is_dict (v : value) : bool :=
  match v with VDict _ => true | _ => false end.

Module Helpers.

Definition parse_price (price_str : string) : result Q :=
  try_except (Num.py_float (strip_non_numeric price_str))
             is_ValueError_or_TypeError 0%Q.

(** The body of [merge_specs]'s loop over [new_specs.items()], with
    the recursive call as [rec new old]. *)
Definition merge_items (rec : value -> value -> result value)
  : dict -> dict -> result dict :=
  fix loop (items : dict) (merged : dict) {struct items} : result dict :=
    match items with
    | [] => Ok merged
    | (key, value) :: rest =>
        if is_dict value then
          match dict_get key merged with
          | Some sub =>
              let! m := rec value sub in
              loop rest (dict_set key m merged)
          | None => loop rest (dict_set key value merged)
          end
        else if truthy value
        then loop rest (dict_set key value merged)
        else loop rest merged
    end.

(** [merge_specs], by recursion on the new dictionary.  [old_specs] is
    whatever [merged[key]] holds: a dictionary is copied and updated;
    a list is copied but refuses any item assignment ([TypeError]);
    other objects have no [copy] ([AttributeError]). *)
Fixpoint merge_into (new_specs old_specs : value) {struct new_specs}
  : result value :=
  match new_specs with
  | VDict items =>
      match old_specs with
      | VDict old_items =>
          let! merged := merge_items merge_into items old_items in
          Ok (VDict merged)
      | VList l =>
          if forallb (fun kv => negb (is_dict (snd kv))
                                && negb (truthy (snd kv))) items
          then Ok (VList l)
          else Raise TypeError
      | _ => Raise AttributeError
      end
  | _ => Raise AttributeError
  end.

Definition merge_specs (old_specs new_specs : value) : result value :=
  merge_into new_specs old_specs.

(** [re.sub(r'\s+', ' ', text).strip()] *)
Definition clean_text (text : string) : string :=
  Text.strip (Text.squeeze false text).

End Helpers.

(* ===================================================================== *)
(** ** database/models.py *)
(* ===================================================================== *)

Module Models.

Abbreviation str_dict := (list (string * string)).

Record LaptopSpecs : Type := MkSpecs {
  processor : str_dict;
  ram : str_dict;
  storage : str_dict;
  display : str_dict;
  graphics : str_dict;
  os : string;
  battery : str_dict;
  ports : list string;
  dimensions : list (string * Q);
  additional_features : str_dict
}.

(** [LaptopSpecs()] *)
Definition LaptopSpecs_default : LaptopSpecs :=
  {| processor := [("brand", ""); ("model", ""); ("generation", "");
                   ("speed", ""); ("cores", "")];
     ram := [("size", ""); ("type", ""); ("speed", "")];
     storage := [("primary_type", ""); ("primary_capacity", "");
                 ("secondary_type", ""); ("secondary_capacity", "")];
     display := [("size", ""); ("resolution", ""); ("type", "");
                 ("refresh_rate", ""); ("nits", "")];
     graphics := [("type", ""); ("brand", ""); ("model", "");
                  ("memory", "")];
     os := "";
     battery := [("capacity", ""); ("type", ""); ("watt_hours", "");
                 ("cells", "")];
     ports := [];
     dimensions := [("length", 0%Q); ("width", 0%Q); ("height", 0%Q);
                    ("weight", 0%Q)];
     additional_features := [] |}.

Record PriceHistory : Type := MkPrice {
  price : Q;
  date : Z;
  price_source : string
}.

Record Laptop : Type := MkLaptop {
  product_id : string;
  source : string;
  url : string;
  title : string;
  brand : string;
  model : string;
  current_price : Q;
  original_price : Q;
  ratings_count : Z;
  average_rating : Q;
  specifications : LaptopSpecs;
  in_stock : bool;
  last_updated : Z;
  first_seen : Z;
  price_history : list PriceHistory
}.

Definition Qltb (a b : Q) : bool :=
  match Qcompare a b with Lt => true | _ => false end.

Definition validate_price (v : Q) : result Q :=
  if Qltb v 0 then Raise ValueError else Ok (Num.py_round 2 v).

Definition validate_rating (v : Q) : result Q :=
  if negb (Qle_bool 0 v && Qle_bool v 5) then Raise ValueError
  else Ok (Num.py_round 1 v).

Definition validate_product_id (v : string) : result string :=
  if negb (Text.nonempty (Text.strip v)) then Raise ValueError
  else Ok (Text.strip v).

(** The constructor call the page parsers make,
    [Laptop(product_id=..., ..., specifications=..., last_updated=now)]:
    [in_stock], [first_seen] and [price_history] take their defaults. *)
Definition new_laptop (product_id source url title brand model : string)
           (current_price original_price : Q) (ratings_count : Z)
           (average_rating : Q) (specifications : LaptopSpecs) (now : Z)
  : result Laptop :=
  let! cp := validate_price current_price in
  let! op := validate_price original_price in
  let! ar := validate_rating average_rating in
  let! pid := validate_product_id product_id in
  Ok (MkLaptop pid source url title brand model cp op ratings_count ar
               specifications true now now []).

(** [.dict()] of the nested models. *)
Definition str_dict_value (d : str_dict) : value :=
  VDict (map (fun kv => (fst kv, VStr (snd kv))) d).

Definition specs_dict (s : LaptopSpecs) : value :=
  VDict [ ("processor", str_dict_value (processor s));
          ("ram", str_dict_value (ram s));
          ("storage", str_dict_value (storage s));
          ("display", str_dict_value (display s));
          ("graphics", str_dict_value (graphics s));
          ("os", VStr (os s));
          ("battery", str_dict_value (battery s));
          ("ports", VList (map VStr (ports s)));
          ("dimensions",
           VDict (map (fun kv => (fst kv, VFloat (snd kv))) (dimensions s)));
          ("additional_features",
           str_dict_value (additional_features s)) ].

Definition price_dict (p : PriceHistory) : value :=
  VDict [ ("price", VFloat (price p)); ("date", VDate (date p));
          ("source", VStr (price_source p)) ].

(** [laptop.dict(exclude={"first_seen"})] *)
Definition dict_without_first_seen (l : Laptop) : dict :=
  [ ("product_id", VStr (product_id l));
    ("source", VStr (source l));
    ("url", VStr (url l));
    ("title", VStr (title l));
    ("brand", VStr (brand l));
    ("model", VStr (model l));
    ("current_price", VFloat (current_price l));
    ("original_price", VFloat (original_price l));
    ("ratings_count", VInt (ratings_count l));
    ("average_rating", VFloat (average_rating l));
    ("specifications", specs_dict (specifications l));
    ("in_stock", VBool (in_stock l));
    ("last_updated", VDate (last_updated l));
    ("price_history", VList (map price_dict (price_history l))) ].

End Models.

(* ===================================================================== *)
(** ** database/db_service.py *)
(* ===================================================================== *)

Module DatabaseService.
Import Models.

(** The collection: its documents in natural order.  The [_id] the
    store adds to every document plays no part below and is left out;
    the store is taken to acknowledge every write. *)
Abbreviation collection := (list dict).

(** The filter [{"product_id": pid}]. *)
Definition matches (pid : string) (doc : dict) : bool :=
  match dict_get "product_id" doc with
  | Some (VStr s) => String.eqb s pid
  | _ => false
  end.

(** [$set]: every listed field is written into the document. *)
Definition apply_set (fields : dict) (doc : dict) : dict :=
  fold_left (fun d kv => dict_set (fst kv) (snd kv) d) fields doc.

(** [update_one] on the first document the filter finds. *)
Fixpoint update_first (pid : string) (upd : dict -> dict)
         (coll : collection) : option collection :=
  match coll with
  | [] => None
  | doc :: rest =>
      if matches pid doc then Some (upd doc :: rest)
      else option_map (cons doc) (update_first pid upd rest)
  end.

(** [find_one({"product_id": pid})] *)
Definition find_one (pid : string) (coll : collection) : option dict :=
  List.find (matches pid) coll.

(** [update_one(filter, {"$set": ..., "$setOnInsert": ...}, upsert=True)]:
    a found document gets the [$set] fields only; otherwise a document
    is inserted from the filter's field, the [$set] fields and the
    [$setOnInsert] fields. *)
Definition upsert (pid : string) (set_fields on_insert : dict)
           (coll : collection) : collection :=
  match update_first pid (apply_set set_fields) coll with
  | Some coll' => coll'
  | None =>
      coll ++ [apply_set on_insert
                 (apply_set set_fields [("product_id", VStr pid)])]
  end.

Definition insert_laptop (coll : collection) (laptop : Laptop) (now : Z)
  : collection * bool :=
  (upsert (product_id laptop)
          (dict_without_first_seen laptop)
          [("first_seen", VDate now)]
          coll,
   true).

(** The document already holds what [mark_unavailable] would write, so
    the update does not modify it. *)
Definition already_unavailable (doc : dict) (now : Z) : bool :=
  match dict_get "in_stock" doc, dict_get "last_updated" doc with
  | Some (VBool false), Some (VDate t) => Z.eqb t now
  | _, _ => false
  end.

(** [update_one] without upsert; the result is [bool(modified_count)]. *)
Definition mark_unavailable (coll : collection) (pid : string) (now : Z)
  : collection * bool :=
  match find_one pid coll with
  | Some doc =>
      match update_first pid
              (apply_set [("in_stock", VBool false);
                          ("last_updated", VDate now)]) coll with
      | Some coll' => (coll', negb (already_unavailable doc now))
      | None => (coll, false)
      end
  | None => (coll, false)
  end.

(** The [$map] over ["$price_updates"] keeps [price] and [date] of each
    element; over a missing or null field it gives null. *)
Definition project_price_updates (doc : dict) : value :=
  match dict_get "price_updates" doc with
  | Some (VList l) =>
      VList (map (fun pu =>
                    match pu with
                    | VDict d =>
                        VDict (omap (fun k => option_map (pair k)
                                                (dict_get k d))
                                    ["price"; "date"])
                    | _ => VDict []
                    end) l)
  | _ => VNone
  end.

(** [get_price_history]: the projection of the first matching
    document, [[]] when there is none. *)
Definition get_price_history (coll : collection) (pid : string) : value :=
  match find_one pid coll with
  | Some doc => project_price_updates doc
  | None => VList []
  end.

(** The crawl loop of [SpiderManager.run_spiders]: each extracted
    product is saved in turn, each at its own clock value. *)
Definition save_all (coll : collection) (products : list (Laptop * Z))
  : collection :=
  fold_left (fun c p => fst (insert_laptop c (fst p) (snd p)))
            products coll.

(** The names [db_service.py] binds at module level, by its imports
    and its class statement. *)
Definition db_service_names : list string :=
  [ "AsyncIOMotorClient"; "Optional"; "List"; "Dict"; "logging";
    "datetime"; "MONGODB_URI"; "DATABASE_NAME"; "COLLECTION_NAME";
    "Laptop"; "DatabaseService" ].

(** The filter of [cleanup_old_records]:
    [{"last_updated": {"$lt": cutoff_date}, "in_stock": False}]. *)
Definition stale (cutoff_date : Z) (doc : dict) : bool :=
  match dict_get "last_updated" doc, dict_get "in_stock" doc with
  | Some (VDate t), Some (VBool false) => (t <? cutoff_date)%Z
  | _, _ => false
  end.

(** [cleanup_old_records(days)] at time [now], in seconds: the
    collection afterwards and the count returned.  The name
    [timedelta] is looked up when the cutoff is computed; a name the
    module does not bind raises [NameError], which [except Exception]
    answers with 0. *)
Definition cleanup_old_records (coll : collection)
           (days now : Z) : collection * Z :=
  if bool_decide ("timedelta" ∈ db_service_names) then
    let cutoff_date := (now - days * 86400)%Z in
    (List.filter (fun doc => negb (stale cutoff_date doc)) coll,
     Z.of_nat (length (List.filter (stale cutoff_date) coll)))
  else (coll, 0%Z).

End DatabaseService.

(* ===================================================================== *)
(** ** core/rate_limiter.py *)
(* ===================================================================== *)

Module RateLimiter.

(** The time [acquire] sleeps: [(1 / rate_limit) - time_passed] when
    the last request to the domain is less than [1 / rate_limit] old. *)
Definition pause (rate_limit : Q) (last : Q) (current_time : Q) : Q :=
  let time_passed := (current_time - last)%Q in
  if Models.Qltb time_passed (1 / rate_limit)
  then ((1 / rate_limit) - time_passed)%Q
  else 0%Q.

(** [acquire(domain)] on the table [last_request_time].  [current_time]
    is the first reading of the clock; the second reading, which is
    stored, comes [lag] later than the end of the pause.  [None] stands
    for the [ZeroDivisionError] of a zero rate. *)
Definition acquire (rate_limit : Q) (last_request_time : gmap string Q)
           (domain : string) (current_time lag : Q)
  : option (gmap string Q) :=
  match last_request_time !! domain with
  | Some last =>
      if Qeq_bool rate_limit 0 then None
      else Some (<[domain := (current_time
                              + pause rate_limit last current_time
                              + lag)%Q]>
                   last_request_time)
  | None => Some (<[domain := (current_time + lag)%Q]> last_request_time)
  end.

End RateLimiter.

(* ===================================================================== *)
(** ** core/proxy_manager.py *)
(* ===================================================================== *)

Module ProxyManager.

Record state : Type := MkState {
  proxies : list string;
  last_refresh : option Z
}.

(** [ProxyManager()] *)
Definition init : state := MkState [] None.

Definition PROXY_REFRESH_INTERVAL : Z := 600.

Definition _parse_proxy_response (data : value) : list string := [].

(** [_fetch_proxies]: the answer of one provider is its JSON body, or
    [None] when the request or the decoding raises. *)
Definition _fetch_proxies (answer : option value) : list string :=
  match answer with
  | Some data => _parse_proxy_response data
  | None => []
  end.

(** [refresh_proxies]: [answers] holds one answer per provider;
    [None] for [answers] is an exception outside the fetches, which
    leaves the state as it is. *)
Definition refresh_proxies (answers : option (list (option value)))
           (now : Z) (st : state) : state :=
  match answers with
  | Some answers =>
      MkState (concat (map _fetch_proxies answers)) (Some now)
  | None => st
  end.

(** [(datetime.now() - self.last_refresh).seconds]: the seconds field of
    the difference, which leaves out whole days. *)
Definition _should_refresh (now : Z) (st : state) : bool :=
  match last_refresh st with
  | None => true
  | Some t => (PROXY_REFRESH_INTERVAL <=? (now - t) mod 86400)%Z
  end.

(** [get_proxy]; [pick] stands for the draw of [random.choice]. *)
Definition get_proxy (pick : nat) (answers : option (list (option value)))
           (now : Z) (st : state) : state * option string :=
  let st' :=
    if match proxies st with [] => true | _ => false end
       || _should_refresh now st
    then refresh_proxies answers now st
    else st in
  (st', match proxies st' with
        | [] => None
        | p :: ps => Some (nth (pick mod length (p :: ps)) (p :: ps) p)
        end).

(** A run of calls of [get_proxy], each with its draw, its answers and
    its time: the proxies handed out. *)
Fixpoint get_proxies
         (calls : list (nat * option (list (option value)) * Z))
         (st : state) : list (option string) :=
  match calls with
  | [] => []
  | (pick, answers, now) :: calls' =>
      let '(st', proxy) := get_proxy pick answers now st in
      proxy :: get_proxies calls' st'
  end.

End ProxyManager.

(* ===================================================================== *)
(** ** spiders/amazon_spider.py: the specifications record *)
(* ===================================================================== *)

Module AmazonRecord.
Import AmazonSpider.

(** The dictionaries the extractors return. *)
Definition processor_dict (p : processor_info) : Models.str_dict :=
  [("brand", p_brand p); ("model", p_model p);
   ("generation", p_generation p); ("speed", p_speed p);
   ("cores", p_cores p)].

Definition ram_dict (r : ram_info) : Models.str_dict :=
  [("size", r_size r); ("type", r_type r); ("speed", r_speed r)].

Definition storage_dict (s : storage_info) : Models.str_dict :=
  [("primary_type", s_primary_type s);
   ("primary_capacity", s_primary_capacity s);
   ("secondary_type", s_secondary_type s);
   ("secondary_capacity", s_secondary_capacity s)].

Definition display_dict (d : display_info) : Models.str_dict :=
  [("size", v_size d); ("resolution", v_resolution d); ("type", v_type d);
   ("refresh_rate", v_refresh_rate d); ("nits", v_nits d)].

Definition dimensions_dict (d : dimensions_info) : list (string * Q) :=
  [("length", d_length d); ("width", d_width d); ("height", d_height d);
   ("weight", d_weight d)].

(** [_create_laptop_specs].  The arguments of [LaptopSpecs(...)] are
    evaluated in the order they are written; the graphics and battery
    extractors are taken as given results.  The last argument looks up
    [self._extract_additional_features], a method that neither
    [AmazonSpider] nor [BaseSpider] defines, which raises
    [AttributeError]; [except Exception] answers every exception with
    [LaptopSpecs()]. *)
Definition _create_laptop_specs (graphics battery : result Models.str_dict)
           (tech_specs : spec_table) : Models.LaptopSpecs :=
  match
    (let! processor := _extract_processor_info tech_specs in
     let ram := _extract_ram_info tech_specs in
     let storage := _extract_storage_info tech_specs in
     let display := _extract_display_info tech_specs in
     let! graphics := graphics in
     let os := default "" (tech_specs !! "operating_system") in
     let! battery := battery in
     let ports := _extract_ports_info tech_specs in
     let! dimensions := _extract_dimensions_info tech_specs in
     let! additional_features :=
       (Raise AttributeError : result Models.str_dict) in
     Ok (Models.MkSpecs (processor_dict processor) (ram_dict ram)
           (storage_dict storage) (display_dict display) graphics os
           battery ports (dimensions_dict dimensions)
           additional_features))
  with
  | Ok specs => specs
  | Raise _ => Models.LaptopSpecs_default
  end.

End AmazonRecord.

(* ===================================================================== *)
(** * Vocabulary of the statements *)
(* ===================================================================== *)

(** The character occurs in the text. *)
Fixpoint has_char (c : ascii) (s : string) : bool :=
  match s with
  | EmptyString => false
  | String x s' => Ascii.eqb c x || has_char c s'
  end.

(** The tokens the pattern table finds in a text: the stripped text of
    every match of every pattern. *)
Definition port_token (info x : string) : Prop :=
  exists (pattern : Re.regex) (m : Re.match_obj),
    pattern ∈ AmazonSpider.port_patterns
    /\ m ∈ Re.finditer true pattern info
    /\ x = Text.strip (Re.m_text m).

(** A page whose only price element is [.a-price .a-offscreen], with the
    given text. *)
Definition offscreen_price_page (text : string) : BaseSpider.soup :=
  fun selector =>
    if String.eqb selector ".a-price .a-offscreen" then Some text else None.

(** What an update writes into a document. *)
Definition updated (l : Models.Laptop) (doc : dict) : dict :=
  DatabaseService.apply_set (Models.dict_without_first_seen l) doc.

(** The document an upsert inserts when the filter finds none. *)
Definition inserted (l : Models.Laptop) (now : Z) : dict :=
  DatabaseService.apply_set
    [("first_seen", VDate now)]
    (updated l [("product_id", VStr (Models.product_id l))]).

(** No save ever writes the field that [get_price_history] reads. *)
Definition no_price_updates (coll : list dict) : Prop :=
  Forall (fun doc => dict_get "price_updates" doc = None) coll.

(** One crawl of a product page that shows the given price: the laptop
    the page parser builds, or nothing when validation rejects it. *)
Definition observe (pid : string) (obs : Q * Z) : list (Models.Laptop * Z) :=
  match Models.new_laptop pid "Amazon" ("https://www.amazon.in/dp/" ++ pid)
                          "Laptop" "Unknown" "" (fst obs) (fst obs) 0 0
                          Models.LaptopSpecs_default (snd obs) with
  | Ok laptop => [(laptop, snd obs)]
  | Raise _ => []
  end.

(** Successive crawls of one product, each price with its clock value. *)
Definition crawls (pid : string) (observations : list (Q * Z))
  : list (Models.Laptop * Z) :=
  flat_map (observe pid) observations.

(** The prices of the stored [price_history] of a product. *)
Definition stored_prices (coll : list dict) (pid : string)
  : option (list value) :=
  match DatabaseService.find_one pid coll with
  | Some doc =>
      match dict_get "price_history" doc with
      | Some (VList entries) =>
          Some (omap (fun e => match e with
                               | VDict d => dict_get "price" d
                               | _ => None
                               end) entries)
      | _ => None
      end
  | None => None
  end.

Definition price_sequence : list (Q * Z) :=
  map (fun pz : Z * Z => (inject_Z (fst pz), snd pz))
      [(50000, 1); (50000, 2); (45000, 3); (45000, 4); (48000, 5)]%Z.

(** The value found by following a path of keys through nested
    dictionaries. *)
Fixpoint get_path (path : list string) (v : value) : option value :=
  match path with
  | [] => Some v
  | k :: path' =>
      match v with
      | VDict d =>
          match dict_get k d with
          | Some v' => get_path path' v'
          | None => None
          end
      | _ => None
      end
  end.

(** A dictionary holds each key once, at every level. *)
Fixpoint unique_keys (v : value) : bool :=
  match v with
  | VDict d =>
      bool_decide (NoDup (map fst d))
      && forallb (fun kv => unique_keys (snd kv)) d
  | VList l => forallb unique_keys l
  | _ => true
  end.

(** What the loop of [merge_specs] leaves under a key [k]. *)
Definition merged_at (k : string) (items merged0 merged : dict) : Prop :=
  match dict_get k items with
  | None => dict_get k merged = dict_get k merged0
  | Some v =>
      if is_dict v then
        match dict_get k merged0 with
        | Some sub =>
            exists m, Helpers.merge_into v sub = Ok m /\ dict_get k merged = Some m
        | None => dict_get k merged = Some v
        end
      else if truthy v then dict_get k merged = Some v
      else dict_get k merged = dict_get k merged0
  end.

(** A laptop whose RAM sub-record has the given type. *)
Definition laptop_with_ram_type (ram_type : string) (now : Z)
  : Models.Laptop :=
  Models.MkLaptop "B0C1X2Y3Z4" "Amazon" "https://www.amazon.in/dp/B0C1X2Y3Z4"
    "Laptop" "Unknown" "" 50000 50000 0 0
    {| Models.processor := Models.processor Models.LaptopSpecs_default;
       Models.ram := [("size", "16GB"); ("type", ram_type); ("speed", "")];
       Models.storage := Models.storage Models.LaptopSpecs_default;
       Models.display := Models.display Models.LaptopSpecs_default;
       Models.graphics := Models.graphics Models.LaptopSpecs_default;
       Models.os := "";
       Models.battery := Models.battery Models.LaptopSpecs_default;
       Models.ports := [];
       Models.dimensions := Models.dimensions Models.LaptopSpecs_default;
       Models.additional_features := [] |}
    true now now [].

(** The stored value of specifications.ram.type of a product. *)
Definition stored_ram_type (coll : list dict) (pid : string) : option value :=
  match DatabaseService.find_one pid coll with
  | Some doc => get_path ["specifications"; "ram"; "type"] (VDict doc)
  | None => None
  end.


(** A class that reads the same with and without [IGNORECASE]. *)
Definition case_stable (p : ascii -> bool) : Prop :=
  forall b, Re.cls_match true p b = p b.

(** A decimal numeral as [\d+\.?\d*] reads it whole: digits, then
    possibly a point and further digits. *)
Definition decimal (s : string) : bool :=
  let '(i, f) := Num.split_point s in
  Text.nonempty i && Num.all_digits i
  && Num.all_digits (match f with Some x => x | None => "" end).

(** A possibly empty run of blanks. *)
Definition blank (s : string) : bool := Text.all_chars Text.is_space s.




(** Keys that hold sub-dictionaries, as a predicate [D]: the items
    under them are dictionaries of plain values, the other items are
    plain, and what is merged into has dictionaries under them. *)
Definition items_shaped (D : string -> bool) (items : dict) : Prop :=
  Forall (fun kv =>
            if D (fst kv)
            then exists d, snd kv = VDict d
                           /\ forallb (fun kv => negb (is_dict (snd kv))) d = true
            else is_dict (snd kv) = false) items.

Definition holds_dicts (D : string -> bool) (merged : dict) : Prop :=
  forall k v, dict_get k merged = Some v -> D k = true -> is_dict v = true.

(** The keys of a specification record that hold sub-records. *)
Definition sub_record_key (k : string) : bool :=
  existsb (String.eqb k)
          ["processor"; "ram"; "storage"; "display"; "graphics"; "battery";
           "dimensions"; "additional_features"].

(** The documents of a collection that belong to a product. *)
Definition documents_of (pid : string) (coll : list dict) : list dict :=
  List.filter (DatabaseService.matches pid) coll.

(** A collection holds at most one document per product. *)
Definition one_per_product (coll : list dict) : Prop :=
  forall pid : string, length (documents_of pid coll) <= 1.

(** The fields [mark_unavailable] writes. *)
Definition unavailable_fields (now : Z) : dict :=
  [("in_stock", VBool false); ("last_updated", VDate now)].

(** The numerator [py_round] settles on. *)
Definition rounded_num (ndigits : nat) (q : Q) : Z :=
  let h := Qred (q * inject_Z (Zpos (Num.scale ndigits))) in
  let lo := Qfloor h in
  match Qcompare (Qred (h - inject_Z lo)) (1 # 2) with
  | Lt => lo
  | Gt => (lo + 1)%Z
  | Eq => if Z.even lo then lo else (lo + 1)%Z
  end.

(** What a successful run of the matcher on a pattern amounts to: the
    pattern takes the text from [s] to its suffix [s'] and the captures
    from [c] to [c']. *)
Inductive matches (icase : bool)
  : Re.regex -> string -> Re.caps -> string -> Re.caps -> Prop :=
| M_eps s c : matches icase Re.Eps s c s c
| M_chr a b s c :
    Re.chr_match icase a b = true ->
    matches icase (Re.Chr a) (String b s) c s c
| M_cls p b s c :
    Re.cls_match icase p b = true ->
    matches icase (Re.Cls p) (String b s) c s c
| M_seq r1 r2 s c s1 c1 s2 c2 :
    matches icase r1 s c s1 c1 -> matches icase r2 s1 c1 s2 c2 ->
    matches icase (Re.Seq r1 r2) s c s2 c2
| M_alt_l r1 r2 s c s1 c1 :
    matches icase r1 s c s1 c1 -> matches icase (Re.Alt r1 r2) s c s1 c1
| M_alt_r r1 r2 s c s1 c1 :
    matches icase r2 s c s1 c1 -> matches icase (Re.Alt r1 r2) s c s1 c1
| M_star_stop r s c : matches icase (Re.Star r) s c s c
| M_star_more r s c s1 c1 s2 c2 :
    matches icase r s c s1 c1 -> matches icase (Re.Star r) s1 c1 s2 c2 ->
    matches icase (Re.Star r) s c s2 c2
| M_grp n r s c s1 c1 :
    matches icase r s c s1 c1 ->
    matches icase (Re.Grp n r) s c s1 ((n, Re.consumed s s1) :: c1).

(** The pattern has no capturing group. *)
Fixpoint no_groups (r : Re.regex) : bool :=
  match r with
  | Re.Eps | Re.Chr _ | Re.Cls _ => true
  | Re.Seq r1 r2 | Re.Alt r1 r2 => no_groups r1 && no_groups r2
  | Re.Star r1 => no_groups r1
  | Re.Grp _ _ => false
  end.

(** A non-empty run of digits. *)
Definition digits (d : string) : Prop :=
  Num.all_digits d = true /\ Text.nonempty d = true.

(** Empty, or a non-empty run of digits followed by the given unit. *)
Definition empty_or_digits_then (unit text : string) : Prop :=
  text = "" \/ exists d, digits d /\ text = (d ++ unit)%string.

(** A capacity as the storage extractor writes it: digits and a unit. *)
Definition capacity_shape (text : string) : Prop :=
  exists d, digits d /\ (text = (d ++ "GB")%string \/ text = (d ++ "TB")%string).

(** The names of the storage table. *)
Definition storage_names : list string := ["SSD"; "HDD"; "eMMC"; "NVMe"].

(** What the storage loops keep true of their state. *)
Definition storage_ok (st : AmazonSpider.storage_info * bool) : Prop :=
  let r := fst st in
  if snd st then
    AmazonSpider.s_primary_type r ∈ storage_names
    /\ capacity_shape (AmazonSpider.s_primary_capacity r)
    /\ ((AmazonSpider.s_secondary_type r = ""
         /\ AmazonSpider.s_secondary_capacity r = "")
        \/ (AmazonSpider.s_secondary_type r ∈ storage_names
            /\ capacity_shape (AmazonSpider.s_secondary_capacity r)))
  else r = AmazonSpider.MkStorage "" "" "" "".

(** No known brand occurs in the text, whatever the case. *)
Definition mentions_no_brand (text : string) : Prop :=
  forall brand, brand ∈ AmazonSpider.common_brands ->
    Text.contains (Text.lower brand) (Text.lower text) = false.

(** The [data-asin] value is not blank. *)
Definition not_blank (asin : string) : bool :=
  Text.nonempty (Text.strip asin).

(** The text has no digit at all. *)
Definition no_digit (text : string) : bool :=
  negb (Text.nonempty (Text.filter_chars Text.is_digit text)).

(** Every page before page [p] gave at least one link. *)
Definition pages_before (links_of_page : nat -> result (list string))
           (p : nat) : Prop :=
  forall q, 1 <= q < p ->
    exists link links, links_of_page q = Ok (link :: links).

(** The page offers no struck-out price. *)
Definition no_listed_price (page : BaseSpider.soup) : Prop :=
  forall sel, sel ∈ BaseSpider.original_price_selectors -> page sel = None.

(** [s.rstrip()], as [strip] computes it. *)
Definition rstrip (s : string) : string :=
  String.rev (Text.lstrip (String.rev s)).






(** The seconds the rate limiter sleeps in the first [n] passes. *)
Fixpoint limiter_pauses (attempts : nat -> BaseSpider.attempt) (n : nat) : Q :=
  match n with
  | O => 0
  | S n' => limiter_pauses attempts n'
            + BaseSpider.limiter_pause (attempts n')
  end.

(** The text is ASCII: every character is below 128.  On such texts
    [str.isdigit] and [\d] are the digits 0 to 9, and [str.strip],
    [str.split] and [\s] know the whitespace of [Text.is_space] only. *)
Definition ascii_text (s : string) : bool :=
  Text.all_chars (fun c => Nat.ltb (nat_of_ascii c) 128) s.

(* ===================================================================== *)
(** * Properties *)
(* ===================================================================== *)

(** ** Facts about texts *)

Section TextFacts.

Lemma append_cons (x : ascii) (a b : string) :
  (String x a ++ b)%string = String x (a ++ b).
Proof. reflexivity. Qed.

Lemma append_empty (b : string) : (EmptyString ++ b)%string = b.
Proof. reflexivity. Qed.

Lemma append_assoc (a b c : string) : ((a ++ b) ++ c = a ++ (b ++ c))%string.
Proof.
  induction a as [|x a IH]; [reflexivity|].
  now rewrite !append_cons, IH.
Qed.

Lemma prefix_append (p r : string) : String.prefix p (p ++ r) = true.
Proof.
  induction p as [|x p IH].
  - rewrite append_empty. now destruct r.
  - rewrite append_cons. simpl.
    destruct (ascii_dec x x); [exact IH | congruence].
Qed.

Lemma prefix_inv (p s : string) :
  String.prefix p s = true -> exists r, s = (p ++ r)%string.
Proof.
  revert s. induction p as [|x p IH]; intros s H.
  - exists s. reflexivity.
  - destruct s as [|y s]; simpl in H; [discriminate|].
    destruct (ascii_dec x y) as [->|]; [|discriminate].
    destruct (IH s H) as [r ->]. exists r. reflexivity.
Qed.

Lemma contains_prefix (p s : string) :
  String.prefix p s = true -> Text.contains p s = true.
Proof.
  intros H. destruct s; cbn [Text.contains]; rewrite H; reflexivity.
Qed.

Lemma contains_append (l p r : string) :
  Text.contains p (l ++ p ++ r) = true.
Proof.
  induction l as [|x l IH].
  - rewrite append_empty. apply contains_prefix, prefix_append.
  - rewrite append_cons. cbn [Text.contains].
    rewrite IH. apply orb_true_r.
Qed.

Lemma contains_inv (p s : string) :
  Text.contains p s = true -> exists l r, s = (l ++ p ++ r)%string.
Proof.
  induction s as [|x s IH]; cbn [Text.contains]; intros H.
  - rewrite orb_false_r in H. apply prefix_inv in H as [r ->].
    exists ""%string, r. reflexivity.
  - apply orb_true_iff in H as [H|H].
    + apply prefix_inv in H as [r ->]. exists ""%string, r. reflexivity.
    + destruct (IH H) as (l & r & ->). exists (String x l), r. reflexivity.
Qed.

(** A text that contains [a ++ p ++ b] contains [p]. *)
Lemma contains_inner (a p b s : string) :
  Text.contains (a ++ p ++ b) s = true -> Text.contains p s = true.
Proof.
  intros H. apply contains_inv in H as (l & r & ->).
  replace (l ++ (a ++ p ++ b) ++ r)%string
    with ((l ++ a) ++ p ++ (b ++ r))%string.
  - apply contains_append.
  - now rewrite !append_assoc.
Qed.

Lemma has_char_append (c : ascii) (a b : string) :
  has_char c (a ++ b) = has_char c a || has_char c b.
Proof.
  induction a as [|x a IH]; [reflexivity|].
  rewrite append_cons. simpl. now rewrite IH, orb_assoc.
Qed.

Lemma upper_char_not_lower (x : ascii) : Text.is_lower (Text.upper_char x) = false.
Proof.
  destruct x as [[] [] [] [] [] [] [] []]; vm_compute; reflexivity.
Qed.

Lemma upper_has_no_lower (c : ascii) (s : string) :
  Text.is_lower c = true -> has_char c (Text.upper s) = false.
Proof.
  intros Hc. induction s as [|x s IH]; [reflexivity|].
  change (Text.upper (String x s))
    with (String (Text.upper_char x) (Text.upper s)).
  cbn [has_char]. rewrite IH, orb_false_r.
  destruct (Ascii.eqb_spec c (Text.upper_char x)) as [E|]; [|reflexivity].
  rewrite E, upper_char_not_lower in Hc. discriminate.
Qed.

(** No upper-cased text contains ["MHz"], whose last letter is small. *)
Lemma upper_never_contains_MHz (s : string) :
  Text.contains "MHz" (Text.upper s) = false.
Proof.
  destruct (Text.contains "MHz" (Text.upper s)) eqn:E; [|reflexivity].
  apply contains_inv in E as (l & r & E).
  pose proof (upper_has_no_lower "z" s eq_refl) as H.
  rewrite E, !has_char_append in H. simpl in H.
  rewrite !orb_true_r in H. discriminate.
Qed.

End TextFacts.

(** ** The processor extractor *)

Section ProcessorFacts.
Import AmazonSpider.

Lemma speed_unit_GHz (matched : string) : speed_unit matched = "GHz".
Proof. unfold speed_unit. now rewrite upper_never_contains_MHz. Qed.

Lemma search_speed_empty : Re.search true speed_re "" = None.
Proof. vm_compute. reflexivity. Qed.

End ProcessorFacts.

(** C8. For the processor text
    "Intel Core i7-1260P, 12th Gen, 2.10GHz, 4 cores", found under any of
    the processor keys, the processor extractor returns brand "Intel",
    model "Core i7", generation "12th Gen", speed "2.1 GHz" and
    cores "4". *)
Theorem processor_round_trip (specs : spec_table) :
  first_present AmazonSpider.processor_keys specs
    = "Intel Core i7-1260P, 12th Gen, 2.10GHz, 4 cores" ->
  AmazonSpider._extract_processor_info specs
    = Ok (AmazonSpider.MkProcessor "Intel" "Core i7" "12th Gen" "2.1 GHz" "4").
Proof.
  intros H. unfold AmazonSpider._extract_processor_info.
  rewrite H. vm_compute. reflexivity.
Qed.

Lemma processor_round_trip_witness :
  first_present AmazonSpider.processor_keys
    {[ "processor" := "Intel Core i7-1260P, 12th Gen, 2.10GHz, 4 cores" ]}
    = "Intel Core i7-1260P, 12th Gen, 2.10GHz, 4 cores"
  /\ AmazonSpider._extract_processor_info
       {[ "processor" := "Intel Core i7-1260P, 12th Gen, 2.10GHz, 4 cores" ]}
     = Ok (AmazonSpider.MkProcessor "Intel" "Core i7" "12th Gen" "2.1 GHz" "4").
Proof.
  split; [vm_compute; reflexivity|].
  apply processor_round_trip. vm_compute. reflexivity.
Defined.

(** C10. Whenever the speed pattern matches the processor text, the
    extractor either fails in [float] on the matched number or returns a
    record whose speed is that number followed by the unit "GHz",
    whether the text said GHz or MHz: the unit is never "MHz". *)
Theorem processor_speed_unit_is_GHz (specs : spec_table) (m : Re.match_obj) :
  Re.search true AmazonSpider.speed_re
            (first_present AmazonSpider.processor_keys specs) = Some m ->
  match Num.py_float (Re.group 1 (Re.m_groups m)) with
  | Ok speed =>
      exists r : AmazonSpider.processor_info,
        AmazonSpider._extract_processor_info specs = Ok r
        /\ AmazonSpider.p_speed r = (Num.py_float_repr speed ++ " GHz")%string
  | Raise e => AmazonSpider._extract_processor_info specs = Raise e
  end.
Proof.
  intros Hm. unfold AmazonSpider._extract_processor_info.
  destruct (first_present AmazonSpider.processor_keys specs) as [|b info] eqn:E.
  - rewrite search_speed_empty in Hm. discriminate.
  - cbn [Text.nonempty]. unfold AmazonSpider.extract_speed. rewrite Hm.
    destruct (Num.py_float (Re.group 1 (Re.m_groups m))) as [speed|e];
      cbn [bind]; [|reflexivity].
    rewrite speed_unit_GHz. eexists. split; reflexivity.
Qed.

(** The text "3200 MHz" is reported as "3200.0 GHz". *)
Lemma processor_speed_unit_is_GHz_witness :
  let specs : spec_table := {[ "processor" := "3200 MHz" ]} in
  let m := Re.MkMatch 0 "3200 MHz" [(1, "3200")] "" in
  Re.search true AmazonSpider.speed_re
            (first_present AmazonSpider.processor_keys specs) = Some m
  /\ exists r : AmazonSpider.processor_info,
      AmazonSpider._extract_processor_info specs = Ok r
      /\ AmazonSpider.p_speed r = "3200.0 GHz".
Proof.
  intros specs m.
  assert (H : Re.search true AmazonSpider.speed_re
                (first_present AmazonSpider.processor_keys specs) = Some m)
    by (vm_compute; reflexivity).
  split; [exact H|].
  exact (processor_speed_unit_is_GHz specs m H).
Defined.

(** C3. The processor extractor is not total: the number part of the
    speed pattern, [[\d.]+], accepts texts that [float] rejects, and the
    [ValueError] escapes the extractor. *)
Theorem processor_extractor_raises :
  AmazonSpider._extract_processor_info {[ "processor" := "1.2.3GHz" ]}
  = Raise ValueError.
Proof. vm_compute. reflexivity. Qed.

(** ** The RAM extractors *)

Section RamFacts.
Import AmazonSpider.

Lemma contains_LPDDR4X_DDR4 (info : string) :
  Text.contains "LPDDR4X" info = true -> Text.contains "DDR4" info = true.
Proof. apply (contains_inner "LP" "DDR4" "X"). Qed.

Lemma contains_nonempty (p info : string) :
  Text.nonempty p = true -> Text.contains p info = true ->
  Text.nonempty info = true.
Proof.
  intros Hp H. destruct info; [|reflexivity].
  destruct p; [discriminate|]. cbn in H. discriminate.
Qed.

(** The scan stops at "DDR4", the first entry of the table, for any
    text that holds it. *)
Lemma ram_type_of_DDR4 (info : string) :
  Text.contains "DDR4" info = true -> ram_type_of info = "DDR4".
Proof.
  intros H. unfold ram_type_of, first_match, ram_types.
  cbn [List.find]. now rewrite H.
Qed.

End RamFacts.

(** C4 (the code departs from it).  For every RAM text that contains the
    token LPDDR4X, both RAM extractors report the type "DDR4": the scan
    tries "DDR4" first, and every text with LPDDR4X contains it. *)
Theorem ram_type_LPDDR4X_reported_as_DDR4 (info : string) :
  Text.contains "LPDDR4X" info = true ->
  (forall specs : spec_table,
      first_present AmazonSpider.ram_keys specs = info ->
      AmazonSpider.r_type (AmazonSpider._extract_ram_info specs) = "DDR4")
  /\ DataCleaner.r_type (DataCleaner.clean_ram_info info) = "DDR4".
Proof.
  intros H.
  pose proof (contains_LPDDR4X_DDR4 info H) as H4.
  split.
  - intros specs E. unfold AmazonSpider._extract_ram_info. rewrite E.
    rewrite (contains_nonempty "LPDDR4X" info eq_refl H).
    cbn [AmazonSpider.r_type]. now apply ram_type_of_DDR4.
  - unfold DataCleaner.clean_ram_info, first_match, DataCleaner.ram_types.
    cbn [DataCleaner.r_type List.find]. now rewrite H4.
Qed.

Lemma ram_type_LPDDR4X_reported_as_DDR4_witness :
  Text.contains "LPDDR4X" "16GB LPDDR4X" = true
  /\ AmazonSpider._extract_ram_info {[ "ram" := "16GB LPDDR4X" ]}
     = AmazonSpider.MkRam "16GB" "DDR4" ""
  /\ AmazonSpider.r_type
       (AmazonSpider._extract_ram_info {[ "ram" := "16GB LPDDR4X" ]}) = "DDR4".
Proof.
  split; [vm_compute; reflexivity|].
  split; [vm_compute; reflexivity|].
  apply (proj1 (ram_type_LPDDR4X_reported_as_DDR4 "16GB LPDDR4X" eq_refl)).
  vm_compute. reflexivity.
Defined.

(** ** The price path *)

Section PriceFacts.
Import BaseSpider.

Lemma filter_digits_all_digits (s : string) :
  Num.all_digits (Text.filter_chars Text.is_digit s) = true.
Proof.
  induction s as [|c s IH]; [reflexivity|].
  cbn [Text.filter_chars]. destruct (Text.is_digit c) eqn:E; [|exact IH].
  unfold Num.all_digits in *. cbn [Text.all_chars]. now rewrite E, IH.
Qed.

Lemma point_not_digit (c : ascii) :
  Text.is_digit c = true -> Ascii.eqb c "."%char = false.
Proof.
  destruct (Ascii.eqb_spec c "."%char) as [->|]; [|reflexivity].
  vm_compute. discriminate.
Qed.

Lemma split_point_digits (s : string) :
  Num.all_digits s = true -> Num.split_point s = (s, None).
Proof.
  induction s as [|c s IH]; [reflexivity|].
  unfold Num.all_digits in *. cbn [Text.all_chars Num.split_point]. intros H.
  apply andb_true_iff in H as [Hc Hs].
  now rewrite (point_not_digit c Hc), (IH Hs).
Qed.

Lemma append_empty_r (s : string) : (s ++ "")%string = s.
Proof.
  induction s as [|c s IH]; [reflexivity|]. now rewrite append_cons, IH.
Qed.

Lemma Qred_inject_Z (n : Z) : Qred (n # 1) = inject_Z n.
Proof. apply Qcanon.Qred_identity. cbn. apply Z.gcd_1_r. Qed.

(** [float] of a run of digits is the integer the digits spell. *)
Lemma py_float_digits (s : string) :
  Num.all_digits s = true -> Text.nonempty s = true ->
  Num.py_float s = Ok (inject_Z (Num.digits_val 0 s)).
Proof.
  intros Hd Hn. unfold Num.py_float.
  rewrite (split_point_digits s Hd), append_empty_r, Hd, Hn.
  cbn. now rewrite Qred_inject_Z.
Qed.

(** [_extract_price] never raises and always gives a whole number. *)
Lemma extract_price_integral (text : string) :
  exists n : Z, _extract_price text = Ok (inject_Z n).
Proof.
  unfold _extract_price.
  set (digits := Text.filter_chars Text.is_digit (drop_commas text)).
  destruct (Text.nonempty digits) eqn:E.
  - exists (Num.digits_val 0 digits).
    rewrite py_float_digits; [reflexivity| |exact E].
    apply filter_digits_all_digits.
  - exists 0%Z. destruct digits; [|discriminate]. reflexivity.
Qed.

Lemma first_price_integral (selectors : list string) (page : soup) :
  exists n : Z, first_price selectors page = Ok (inject_Z n).
Proof.
  induction selectors as [|sel rest IH]; cbn [first_price].
  - exists 0%Z. reflexivity.
  - destruct (page sel); [apply extract_price_integral | exact IH].
Qed.

End PriceFacts.

(** C5 (the code departs from it).  The current price of a page is always
    a whole number: [_extract_price] keeps the digits only, so the
    decimal point is lost and "1,234.56" becomes 123456 where the
    normalizer [parse_price] gives 1234.56. *)
Theorem current_price_drops_decimal_point :
  (forall page : BaseSpider.soup,
      exists n : Z, BaseSpider._extract_current_price page = Ok (inject_Z n))
  /\ BaseSpider._extract_price "1,234.56" = Ok (inject_Z 123456)
  /\ BaseSpider._extract_current_price (offscreen_price_page "1,234.56")
     = Ok (inject_Z 123456)
  /\ Helpers.parse_price "1,234.56" = Ok (Qred (123456 # 100))
  /\ DataCleaner.clean_price "1,234.56" = Ok (Qred (123456 # 100)).
Proof.
  split; [intros page; apply first_price_integral|].
  repeat split; vm_compute; reflexivity.
Qed.

(** ** The ports extractor *)

Section PortsFacts.
Import AmazonSpider.

Lemma add_all_elem {B : Type} (f : B -> string) (l : list B)
      (X : gset string) (x : string) :
  x ∈ foldl (fun ports m => {[ f m ]} ∪ ports) X l
  <-> x ∈ X \/ exists m, m ∈ l /\ x = f m.
Proof.
  revert X. induction l as [|b l IH]; intros X; cbn [foldl].
  - split; [auto|]. intros [H|(m & Hm & _)]; [exact H|].
    now apply elem_of_nil in Hm.
  - rewrite IH. split.
    + intros [H|(m & Hm & ->)].
      * apply elem_of_union in H as [H|H]; [|auto].
        apply elem_of_singleton in H as ->.
        right. exists b. split; [left|reflexivity].
      * right. exists m. split; [now right|reflexivity].
    + intros [H|(m & Hm & ->)].
      * left. apply elem_of_union. now right.
      * apply elem_of_cons in Hm as [->|Hm].
        -- left. apply elem_of_union. left. now apply elem_of_singleton.
        -- right. exists m. split; [exact Hm|reflexivity].
Qed.

Lemma collect_elem (info : string) (patterns : list Re.regex)
      (X : gset string) (x : string) :
  x ∈ foldl (fun ports pattern =>
               foldl (fun ports m => {[ Text.strip (Re.m_text m) ]} ∪ ports)
                     ports (Re.finditer true pattern info))
            X patterns
  <-> x ∈ X \/ exists pattern m,
        pattern ∈ patterns /\ m ∈ Re.finditer true pattern info
        /\ x = Text.strip (Re.m_text m).
Proof.
  revert X. induction patterns as [|p ps IH]; intros X; cbn [foldl].
  - split; [auto|]. intros [H|(p & m & Hp & _)]; [exact H|].
    now apply elem_of_nil in Hp.
  - rewrite IH, add_all_elem. split.
    + intros [[H|(m & Hm & ->)]|(p' & m & Hp & Hm & ->)].
      * now left.
      * right. exists p, m. split; [left|auto].
      * right. exists p', m. split; [now right|auto].
    + intros [H|(p' & m & Hp & Hm & ->)].
      * left. now left.
      * apply elem_of_cons in Hp as [->|Hp].
        -- left. right. exists m. auto.
        -- right. exists p', m. auto.
Qed.

Lemma collect_ports_elem (info x : string) :
  x ∈ collect_ports info <-> port_token info x.
Proof.
  unfold collect_ports, port_token. rewrite collect_elem.
  split; [intros [H|H]; [now apply not_elem_of_empty in H | exact H] | auto].
Qed.

Lemma sorted_list_elem (X : gset string) (x : string) :
  x ∈ sorted_list X <-> x ∈ X.
Proof.
  unfold sorted_list. rewrite merge_sort_Permutation. apply elem_of_elements.
Qed.

Lemma sorted_list_NoDup (X : gset string) : NoDup (sorted_list X).
Proof.
  unfold sorted_list. rewrite merge_sort_Permutation. apply NoDup_elements.
Qed.

Lemma sorted_list_Sorted (X : gset string) :
  StronglySorted String.le (sorted_list X).
Proof. apply StronglySorted_merge_sort; apply _. Qed.

End PortsFacts.

(** C7 (as the code has it).  The ports extractor returns the tokens
    matched in the joined candidate text, each stripped of surrounding
    blanks, in increasing order and without repetition; tokens are
    compared as written, so two spellings that differ in case are two
    entries.  For "USB 3.0, usb 3.0, HDMI, Type-C" the result is
    HDMI, Type-C, USB 3.0, usb 3.0. *)
Theorem ports_sorted_and_distinct_as_written :
  (forall specs : spec_table,
      let ports := AmazonSpider._extract_ports_info specs in
      StronglySorted String.le ports
      /\ NoDup ports
      /\ forall x : string,
          x ∈ ports <->
          Text.nonempty (join_present AmazonSpider.port_keys specs) = true
          /\ port_token (join_present AmazonSpider.port_keys specs) x)
  /\ AmazonSpider._extract_ports_info
       {[ "ports" := "USB 3.0, usb 3.0, HDMI, Type-C" ]}
     = ["HDMI"; "Type-C"; "USB 3.0"; "usb 3.0"].
Proof.
  split; [|vm_compute; reflexivity].
  intros specs ports. subst ports. unfold AmazonSpider._extract_ports_info.
  split; [apply sorted_list_Sorted|].
  split; [apply sorted_list_NoDup|].
  intros x. rewrite sorted_list_elem.
  destruct (Text.nonempty (join_present AmazonSpider.port_keys specs)).
  - rewrite collect_ports_elem. tauto.
  - split; [intros H; now apply not_elem_of_empty in H | intros [H _]; discriminate].
Qed.

(** C7, as stated, fails: the two case variants of "USB 3.0" are both
    kept, so the entries are not distinct once case is normalized. *)
Lemma ports_case_variants_both_kept :
  let ports := AmazonSpider._extract_ports_info
                 {[ "ports" := "USB 3.0, usb 3.0, HDMI, Type-C" ]} in
  "USB 3.0" ∈ ports /\ "usb 3.0" ∈ ports
  /\ ~ NoDup (map Text.lower ports).
Proof.
  assert (E : AmazonSpider._extract_ports_info
                {[ "ports" := "USB 3.0, usb 3.0, HDMI, Type-C" ]}
              = ["HDMI"; "Type-C"; "USB 3.0"; "usb 3.0"])
    by (vm_compute; reflexivity).
  cbv zeta. rewrite E. split; [|split].
  - do 2 right. left.
  - do 3 right. left.
  - intros H. change (map Text.lower ["HDMI"; "Type-C"; "USB 3.0"; "usb 3.0"])
      with ["hdmi"; "type-c"; "usb 3.0"; "usb 3.0"] in H.
    apply NoDup_cons in H as [_ H]. apply NoDup_cons in H as [_ H].
    apply NoDup_cons in H as [H _]. apply H. left.
Qed.

(** ** Dictionaries and stored documents *)

Section DictFacts.

Lemma dict_get_set_eq (k : string) (v : value) (d : dict) :
  dict_get k (dict_set k v d) = Some v.
Proof.
  induction d as [|[k' v'] d IH]; cbn [dict_set dict_get].
  - now rewrite String.eqb_refl.
  - destruct (String.eqb k k') eqn:E; cbn [dict_get]; rewrite E; auto.
Qed.

Lemma dict_get_set_ne (k k' : string) (v : value) (d : dict) :
  k <> k' -> dict_get k' (dict_set k v d) = dict_get k' d.
Proof.
  intros Hne. induction d as [|[k0 v0] d IH]; cbn [dict_set dict_get].
  - apply not_eq_sym, String.eqb_neq in Hne. now rewrite Hne.
  - destruct (String.eqb k k0) eqn:E; cbn [dict_get].
    + apply String.eqb_eq in E as <-.
      apply not_eq_sym, String.eqb_neq in Hne. now rewrite Hne.
    + now rewrite IH.
Qed.

Lemma dict_get_set (k k' : string) (v : value) (d : dict) :
  dict_get k' (dict_set k v d)
  = if String.eqb k k' then Some v else dict_get k' d.
Proof.
  destruct (String.eqb_spec k k') as [->|Hne].
  - apply dict_get_set_eq.
  - now apply dict_get_set_ne.
Qed.

Import DatabaseService.

(** Fields that [$set] does not list keep their value. *)
Lemma apply_set_other (fields : dict) (doc : dict) (k : string) :
  k ∉ map fst fields -> dict_get k (apply_set fields doc) = dict_get k doc.
Proof.
  unfold apply_set. revert doc.
  induction fields as [|[k0 v0] fields IH]; intros doc Hk; [reflexivity|].
  cbn [fold_left fst snd]. cbn [map fst] in Hk.
  apply not_elem_of_cons in Hk as [Hne Hk].
  rewrite (IH _ Hk). now apply dict_get_set_ne, not_eq_sym.
Qed.

(** A listed field takes the listed value. *)
Lemma apply_set_listed (fields : dict) (doc : dict) (k : string) (v : value) :
  NoDup (map fst fields) -> (k, v) ∈ fields ->
  dict_get k (apply_set fields doc) = Some v.
Proof.
  unfold apply_set. revert doc.
  induction fields as [|[k0 v0] fields IH]; intros doc Hnd Hin.
  - now apply elem_of_nil in Hin.
  - cbn [map fst] in Hnd. apply NoDup_cons in Hnd as [Hk0 Hnd].
    cbn [fold_left fst snd].
    apply elem_of_cons in Hin as [[= -> ->]|Hin].
    + change (fold_left _ fields ?d) with (apply_set fields d).
      rewrite (apply_set_other _ _ _ Hk0). apply dict_get_set_eq.
    + now apply IH.
Qed.

Import Models.

Lemma laptop_fields_NoDup (l : Laptop) :
  NoDup (map fst (dict_without_first_seen l)).
Proof.
  cbn [dict_without_first_seen map fst].
  refine (bool_decide_unpack _ _). vm_compute. exact I.
Qed.

Lemma first_seen_not_set (l : Laptop) :
  "first_seen" ∉ map fst (dict_without_first_seen l).
Proof.
  cbn [dict_without_first_seen map fst].
  refine (bool_decide_unpack _ _). vm_compute. exact I.
Qed.

Lemma updated_product_id (l : Laptop) (doc : dict) :
  dict_get "product_id" (updated l doc) = Some (VStr (product_id l)).
Proof.
  apply apply_set_listed; [apply laptop_fields_NoDup|]. left.
Qed.

Lemma updated_price_history (l : Laptop) (doc : dict) :
  dict_get "price_history" (updated l doc)
  = Some (VList (map price_dict (price_history l))).
Proof.
  apply apply_set_listed; [apply laptop_fields_NoDup|].
  cbn [dict_without_first_seen]. do 13 right. left.
Qed.

Lemma updated_first_seen (l : Laptop) (doc : dict) :
  dict_get "first_seen" (updated l doc) = dict_get "first_seen" doc.
Proof. apply apply_set_other, first_seen_not_set. Qed.

Lemma matches_updated (pid : string) (l : Laptop) (doc : dict) :
  matches pid (updated l doc) = String.eqb (product_id l) pid.
Proof. unfold matches. now rewrite updated_product_id. Qed.

Lemma inserted_get (l : Laptop) (now : Z) (k : string) :
  dict_get k (inserted l now)
  = if String.eqb "first_seen" k then Some (VDate now)
    else dict_get k (updated l [("product_id", VStr (product_id l))]).
Proof. unfold inserted, apply_set. cbn [fold_left fst snd]. apply dict_get_set. Qed.

Lemma matches_inserted (pid : string) (l : Laptop) (now : Z) :
  matches pid (inserted l now) = String.eqb (product_id l) pid.
Proof.
  unfold matches. rewrite inserted_get. cbn [String.eqb Ascii.eqb Bool.eqb].
  now rewrite updated_product_id.
Qed.

(** The effect of [insert_laptop] on what [find_one] returns. *)
Lemma update_first_found (pid : string) (upd : dict -> dict)
      (coll : collection) (doc : dict) :
  find_one pid coll = Some doc ->
  exists coll', update_first pid upd coll = Some coll'
                /\ (matches pid (upd doc) = true ->
                    find_one pid coll' = Some (upd doc))
                /\ forall pid', matches pid' doc = false ->
                                matches pid' (upd doc) = false ->
                                find_one pid' coll' = find_one pid' coll.
Proof.
  unfold find_one. induction coll as [|d coll IH]; [discriminate|].
  cbn [List.find update_first]. destruct (matches pid d) eqn:E.
  - intros [= ->]. eexists. split; [reflexivity|]. split.
    + intros H. cbn [List.find]. now rewrite H.
    + intros pid' H1 H2. cbn [List.find]. now rewrite H1, H2.
  - intros H. destruct (IH H) as (coll' & -> & Hsame & Hother).
    eexists. split; [reflexivity|]. split.
    + intros Hm. cbn [List.find]. rewrite E. now apply Hsame.
    + intros pid' H1 H2. cbn [List.find].
      destruct (matches pid' d); [reflexivity|]. now apply Hother.
Qed.

Lemma update_first_absent (pid : string) (upd : dict -> dict)
      (coll : collection) :
  find_one pid coll = None -> update_first pid upd coll = None.
Proof.
  unfold find_one. induction coll as [|d coll IH]; [reflexivity|].
  cbn [List.find update_first]. destruct (matches pid d); [discriminate|].
  intros H. now rewrite (IH H).
Qed.

Lemma find_one_app (pid : string) (coll : collection) (doc : dict) :
  find_one pid (coll ++ [doc])
  = match find_one pid coll with
    | Some d => Some d
    | None => if matches pid doc then Some doc else None
    end.
Proof.
  unfold find_one. induction coll as [|d coll IH]; [reflexivity|].
  cbn [app List.find]. destruct (matches pid d); [reflexivity|exact IH].
Qed.

Lemma matches_unique (pid pid' : string) (doc : dict) :
  matches pid doc = true -> pid <> pid' -> matches pid' doc = false.
Proof.
  unfold matches. destruct (dict_get "product_id" doc) as [[]|]; try discriminate.
  intros H Hne. apply String.eqb_eq in H as ->. now apply String.eqb_neq.
Qed.

Lemma find_one_matches (pid : string) (coll : collection) (doc : dict) :
  find_one pid coll = Some doc -> matches pid doc = true.
Proof. intros H. now apply find_some in H as [_ H]. Qed.

(** Saving a laptop when its product is already stored. *)
Lemma insert_laptop_found (coll : collection) (l : Laptop) (now : Z)
      (doc : dict) :
  find_one (product_id l) coll = Some doc ->
  find_one (product_id l) (fst (insert_laptop coll l now))
  = Some (updated l doc).
Proof.
  intros H. unfold insert_laptop, upsert. cbn [fst].
  destruct (update_first_found _ (apply_set (dict_without_first_seen l)) _ _ H)
    as (coll' & -> & Hsame & _).
  apply Hsame. fold (updated l doc).
  rewrite matches_updated. apply String.eqb_refl.
Qed.

(** Saving a laptop whose product is not stored yet. *)
Lemma insert_laptop_absent (coll : collection) (l : Laptop) (now : Z) :
  find_one (product_id l) coll = None ->
  find_one (product_id l) (fst (insert_laptop coll l now))
  = Some (inserted l now).
Proof.
  intros H. unfold insert_laptop, upsert. cbn [fst].
  rewrite (update_first_absent _ _ _ H), find_one_app, H.
  fold (updated l [("product_id", VStr (product_id l))]).
  fold (inserted l now).
  now rewrite matches_inserted, String.eqb_refl.
Qed.

(** Saving a laptop leaves the documents of other products alone. *)
Lemma insert_laptop_other (coll : collection) (l : Laptop) (now : Z)
      (pid : string) :
  product_id l <> pid ->
  find_one pid (fst (insert_laptop coll l now)) = find_one pid coll.
Proof.
  intros Hne. unfold insert_laptop, upsert. cbn [fst].
  destruct (find_one (product_id l) coll) as [doc|] eqn:H.
  - destruct (update_first_found _ (apply_set (dict_without_first_seen l)) _ _ H)
      as (coll' & -> & _ & Hother).
    apply Hother.
    + eapply matches_unique; [|exact Hne]. eapply find_one_matches, H.
    + fold (updated l doc). rewrite matches_updated.
      now apply String.eqb_neq.
  - rewrite (update_first_absent _ _ _ H), find_one_app.
    destruct (find_one pid coll); [reflexivity|].
    fold (updated l [("product_id", VStr (product_id l))]).
    fold (inserted l now).
    rewrite matches_inserted.
    apply String.eqb_neq in Hne. now rewrite Hne.
Qed.

End DictFacts.

(** ** Saving laptops: [first_seen] and [price_history] *)

Section SaveFacts.
Import Models DatabaseService.

Lemma save_all_cons (coll : collection) (p : Laptop * Z)
      (rest : list (Laptop * Z)) :
  save_all coll (p :: rest)
  = save_all (fst (insert_laptop coll (fst p) (snd p))) rest.
Proof. reflexivity. Qed.

(** Later saves, of this or any other product, keep [first_seen]. *)
Lemma save_all_keeps_first_seen (products : list (Laptop * Z)) :
  forall (coll : collection) (pid : string) (doc : dict),
    find_one pid coll = Some doc ->
    exists doc',
      find_one pid (save_all coll products) = Some doc'
      /\ dict_get "first_seen" doc' = dict_get "first_seen" doc.
Proof.
  induction products as [|[l now] rest IH]; intros coll pid doc H.
  - exists doc. auto.
  - rewrite save_all_cons. cbn [fst snd].
    destruct (String.eqb_spec (product_id l) pid) as [E|Hne].
    + subst pid. apply (insert_laptop_found coll l now) in H.
      destruct (IH _ _ _ H) as (doc' & Hfind & Hfs).
      exists doc'. split; [exact Hfind|].
      now rewrite Hfs, updated_first_seen.
    + apply IH. now rewrite insert_laptop_other.
Qed.

Lemma price_updates_not_set (l : Laptop) :
  "price_updates" ∉ map fst (dict_without_first_seen l).
Proof.
  cbn [dict_without_first_seen map fst].
  refine (bool_decide_unpack _ _). vm_compute. exact I.
Qed.

Lemma update_first_Forall (P : dict -> Prop) (pid : string)
      (upd : dict -> dict) (coll coll' : collection) :
  (forall doc, P doc -> P (upd doc)) ->
  Forall P coll -> update_first pid upd coll = Some coll' ->
  Forall P coll'.
Proof.
  intros Hupd. revert coll'.
  induction coll as [|d coll IH]; intros coll' Hall; [discriminate|].
  cbn [update_first]. apply Forall_cons in Hall as [Hd Hall].
  destruct (matches pid d).
  - intros [= <-]. apply Forall_cons. auto.
  - destruct (update_first pid upd coll) as [c|]; [|discriminate].
    intros [= <-]. apply Forall_cons. auto.
Qed.

Lemma insert_laptop_no_price_updates (coll : collection) (l : Laptop)
      (now : Z) :
  no_price_updates coll ->
  no_price_updates (fst (insert_laptop coll l now)).
Proof.
  unfold no_price_updates, insert_laptop, upsert. cbn [fst]. intros H.
  destruct (update_first _ _ coll) as [coll'|] eqn:E.
  - eapply update_first_Forall; [|exact H|exact E].
    intros doc Hd. now rewrite apply_set_other by apply price_updates_not_set.
  - apply Forall_app. split; [exact H|].
    apply Forall_cons. split; [|constructor].
    fold (updated l [("product_id", VStr (product_id l))]).
    fold (inserted l now). rewrite inserted_get.
    cbn [String.eqb Ascii.eqb Bool.eqb]. unfold updated.
    now rewrite apply_set_other by apply price_updates_not_set.
Qed.

Lemma save_all_no_price_updates (products : list (Laptop * Z))
      (coll : collection) :
  no_price_updates coll -> no_price_updates (save_all coll products).
Proof.
  revert coll. induction products as [|p rest IH]; intros coll H; [exact H|].
  rewrite save_all_cons. now apply IH, insert_laptop_no_price_updates.
Qed.

Lemma get_price_history_no_updates (coll : collection) (pid : string) :
  no_price_updates coll ->
  get_price_history coll pid = VNone \/ get_price_history coll pid = VList [].
Proof.
  intros H. unfold get_price_history.
  destruct (find_one pid coll) as [doc|] eqn:E; [left|now right].
  apply find_some in E as [Hin _].
  unfold no_price_updates in H. rewrite Forall_forall in H.
  unfold project_price_updates.
  now rewrite (H doc) by (apply list_elem_of_In; exact Hin).
Qed.

Lemma new_laptop_price_history
      (pid src u t b m : string) (cp op : Q) (rc : Z) (ar : Q)
      (specs : LaptopSpecs) (now : Z) (l : Laptop) :
  new_laptop pid src u t b m cp op rc ar specs now = Ok l ->
  price_history l = [].
Proof.
  unfold new_laptop.
  destruct (validate_price cp); [|discriminate].
  destruct (validate_price op); [|discriminate].
  destruct (validate_rating ar); [|discriminate].
  destruct (validate_product_id pid); [|discriminate].
  cbn [bind]. now intros [= <-].
Qed.

End SaveFacts.

(** C9. Saving a laptop leaves a stored document for its product whose
    [first_seen] is the one already stored when the product was known,
    and the clock value of this save when it was not; every later save,
    of this or of any other product, leaves that [first_seen] as it is. *)
Theorem first_seen_written_once
        (coll : list dict) (laptop : Models.Laptop) (now : Z) :
  let pid := Models.product_id laptop in
  let coll1 := fst (DatabaseService.insert_laptop coll laptop now) in
  exists doc1 : dict,
    DatabaseService.find_one pid coll1 = Some doc1
    /\ dict_get "first_seen" doc1
       = match DatabaseService.find_one pid coll with
         | Some doc => dict_get "first_seen" doc
         | None => Some (VDate now)
         end
    /\ forall later : list (Models.Laptop * Z),
        exists doc' : dict,
          DatabaseService.find_one pid (DatabaseService.save_all coll1 later)
          = Some doc'
          /\ dict_get "first_seen" doc' = dict_get "first_seen" doc1.
Proof.
  intros pid coll1. subst pid coll1.
  destruct (DatabaseService.find_one (Models.product_id laptop) coll)
    as [doc|] eqn:H.
  - exists (updated laptop doc).
    pose proof (insert_laptop_found coll laptop now doc H) as H1.
    split; [exact H1|]. split; [apply updated_first_seen|].
    intros later. now apply save_all_keeps_first_seen.
  - exists (inserted laptop now).
    pose proof (insert_laptop_absent coll laptop now H) as H1.
    split; [exact H1|]. split; [now rewrite inserted_get|].
    intros later. now apply save_all_keeps_first_seen.
Qed.

(** C1 (as the code has it).  A save writes the [price_history] list the
    new record carries over the stored one, whatever was stored and
    whatever the prices are; the records the page parsers build carry an
    empty list, and no save writes the [price_updates] field that
    [get_price_history] reads.  So nothing is ever appended: after the
    prices 50000, 50000, 45000, 45000, 48000 the stored [price_history]
    is empty. *)
Theorem price_history_overwritten_by_save :
  (forall (coll : list dict) (laptop : Models.Laptop) (now : Z),
      exists doc : dict,
        DatabaseService.find_one (Models.product_id laptop)
          (fst (DatabaseService.insert_laptop coll laptop now)) = Some doc
        /\ dict_get "price_history" doc
           = Some (VList (map Models.price_dict
                              (Models.price_history laptop))))
  /\ (forall (pid : string) (observations : list (Q * Z)),
         Forall (fun p => Models.price_history (fst p) = [])
                (crawls pid observations))
  /\ (forall (products : list (Models.Laptop * Z)) (pid : string),
         let coll := DatabaseService.save_all [] products in
         DatabaseService.get_price_history coll pid = VNone
         \/ DatabaseService.get_price_history coll pid = VList [])
  /\ stored_prices
       (DatabaseService.save_all [] (crawls "B0C1X2Y3Z4" price_sequence))
       "B0C1X2Y3Z4" = Some [].
Proof.
  split; [|split; [|split]].
  - intros coll laptop now.
    destruct (DatabaseService.find_one (Models.product_id laptop) coll)
      as [doc|] eqn:H.
    + exists (updated laptop doc).
      split; [now apply insert_laptop_found | apply updated_price_history].
    + exists (inserted laptop now).
      split; [now apply insert_laptop_absent|].
      rewrite inserted_get. cbn [String.eqb Ascii.eqb Bool.eqb].
      apply updated_price_history.
  - intros pid observations. unfold crawls.
    induction observations as [|obs rest IH]; [constructor|].
    cbn [flat_map]. apply Forall_app. split; [|exact IH].
    unfold observe.
    destruct (Models.new_laptop _ _ _ _ _ _ _ _ _ _ _ _) as [l|] eqn:E;
      [|constructor].
    apply Forall_cons. split; [|constructor].
    cbn [fst]. eapply new_laptop_price_history, E.
  - intros products pid coll. subst coll.
    apply get_price_history_no_updates, save_all_no_price_updates.
    constructor.
  - vm_compute. reflexivity.
Qed.

(** C1, as stated, fails: after the five observations the stored history
    is not the three entries 50000, 45000, 48000, and
    [get_price_history] returns null. *)
Lemma price_history_not_appended :
  let coll := DatabaseService.save_all [] (crawls "B0C1X2Y3Z4" price_sequence) in
  length (crawls "B0C1X2Y3Z4" price_sequence) = 5
  /\ stored_prices coll "B0C1X2Y3Z4"
     <> Some [VFloat (inject_Z 50000); VFloat (inject_Z 45000);
              VFloat (inject_Z 48000)]
  /\ DatabaseService.get_price_history coll "B0C1X2Y3Z4" = VNone.
Proof.
  cbv zeta. split; [vm_compute; reflexivity|]. split.
  - assert (E : stored_prices
                  (DatabaseService.save_all []
                     (crawls "B0C1X2Y3Z4" price_sequence)) "B0C1X2Y3Z4"
                = Some []) by (vm_compute; reflexivity).
    rewrite E. discriminate.
  - vm_compute. reflexivity.
Qed.

(** ** Merging specifications *)

Section MergeFacts.
Import Helpers.

Lemma dict_get_None (k : string) (d : dict) :
  k ∉ map fst d -> dict_get k d = None.
Proof.
  induction d as [|[k' v'] d IH]; [reflexivity|].
  cbn [map fst dict_get]. intros H.
  apply not_elem_of_cons in H as [Hne H].
  apply String.eqb_neq in Hne. now rewrite Hne, IH.
Qed.

Lemma dict_get_elem (k : string) (v : value) (d : dict) :
  dict_get k d = Some v -> (k, v) ∈ d.
Proof.
  induction d as [|[k' v'] d IH]; [discriminate|].
  cbn [dict_get]. destruct (String.eqb_spec k k') as [->|].
  - intros [= ->]. left.
  - intros H. right. now apply IH.
Qed.

Lemma unique_keys_NoDup (d : dict) :
  unique_keys (VDict d) = true -> NoDup (map fst d).
Proof.
  cbn [unique_keys]. intros H. apply andb_true_iff in H as [H _].
  now apply bool_decide_eq_true in H.
Qed.

Lemma unique_keys_sub (d : dict) (k : string) (v : value) :
  unique_keys (VDict d) = true -> dict_get k d = Some v ->
  unique_keys v = true.
Proof.
  cbn [unique_keys]. intros H Hk. apply andb_true_iff in H as [_ H].
  rewrite forallb_forall in H.
  apply dict_get_elem, list_elem_of_In in Hk. exact (H _ Hk).
Qed.

Lemma merge_items_at (k : string) (items : dict) :
  forall merged0 merged : dict,
    NoDup (map fst items) ->
    merge_items merge_into items merged0 = Ok merged ->
    merged_at k items merged0 merged.
Proof.
  unfold merged_at.
  induction items as [|[k0 v0] rest IH]; intros merged0 merged Hnd Hm.
  - cbn in Hm. now injection Hm as <-.
  - cbn [map fst] in Hnd. apply NoDup_cons in Hnd as [Hk0 Hnd].
    cbn [merge_items] in Hm. cbn [dict_get].
    destruct (String.eqb_spec k k0) as [->|Hne].
    + (* the key of this item: the rest of the loop leaves it alone *)
      pose proof (dict_get_None _ _ Hk0) as Hrest.
      destruct (is_dict v0).
      * destruct (dict_get k0 merged0) as [sub|].
        -- destruct (merge_into v0 sub) as [m|] eqn:Em; [|discriminate].
           cbn [bind] in Hm. specialize (IH _ _ Hnd Hm).
           rewrite Hrest in IH. exists m. split; [reflexivity|].
           now rewrite IH, dict_get_set_eq.
        -- specialize (IH _ _ Hnd Hm). rewrite Hrest in IH.
           now rewrite IH, dict_get_set_eq.
      * destruct (truthy v0); specialize (IH _ _ Hnd Hm);
          rewrite Hrest in IH; [|exact IH].
        now rewrite IH, dict_get_set_eq.
    + (* another key: this item does not touch [k] *)
      assert (Hset : forall v, dict_get k (dict_set k0 v merged0)
                               = dict_get k merged0)
        by (intros v; now apply dict_get_set_ne, not_eq_sym).
      destruct (is_dict v0).
      * destruct (dict_get k0 merged0) as [sub|].
        -- destruct (merge_into v0 sub) as [m|]; [|discriminate].
           cbn [bind] in Hm. specialize (IH _ _ Hnd Hm).
           now rewrite Hset in IH.
        -- specialize (IH _ _ Hnd Hm). now rewrite Hset in IH.
      * destruct (truthy v0); specialize (IH _ _ Hnd Hm);
          [now rewrite Hset in IH | exact IH].
Qed.

Lemma merge_specs_dicts (old new : dict) (merged : value) :
  merge_specs (VDict old) (VDict new) = Ok merged ->
  exists md, merge_items merge_into new old = Ok md /\ merged = VDict md.
Proof.
  unfold merge_specs. cbn [merge_into].
  destruct (merge_items merge_into new old) as [md|]; [|discriminate].
  cbn [bind]. intros [= <-]. eauto.
Qed.

Import Models.

(** A dictionary of plain values merges into any dictionary. *)
Lemma merge_items_leaves (rec : value -> value -> result value)
      (items : dict) :
  forallb (fun kv => negb (is_dict (snd kv))) items = true ->
  forall merged0, exists merged, merge_items rec items merged0 = Ok merged.
Proof.
  induction items as [|[k v] items IH]; intros H merged0.
  - exists merged0. reflexivity.
  - cbn [forallb snd] in H. apply andb_true_iff in H as [Hv H].
    apply negb_true_iff in Hv. cbn [merge_items]. rewrite Hv.
    destruct (truthy v); apply (IH H).
Qed.

Lemma merge_into_leaves (items old : dict) :
  forallb (fun kv => negb (is_dict (snd kv))) items = true ->
  exists merged, merge_into (VDict items) (VDict old) = Ok (VDict merged).
Proof.
  intros H. cbn [merge_into].
  destruct (merge_items_leaves merge_into items H old) as [m ->].
  exists m. reflexivity.
Qed.

Lemma str_dict_leaves (d : str_dict) :
  forallb (fun kv : string * value => negb (is_dict (snd kv)))
          (map (fun kv => (fst kv, VStr (snd kv))) d) = true.
Proof. induction d as [|[k v] d IH]; [reflexivity|exact IH]. Qed.

Lemma float_dict_leaves (d : list (string * Q)) :
  forallb (fun kv : string * value => negb (is_dict (snd kv)))
          (map (fun kv => (fst kv, VFloat (snd kv))) d) = true.
Proof. induction d as [|[k v] d IH]; [reflexivity|exact IH]. Qed.

Lemma merge_str_dicts (new old : str_dict) :
  exists merged,
    merge_into (str_dict_value new) (str_dict_value old) = Ok (VDict merged).
Proof. apply merge_into_leaves, str_dict_leaves. Qed.

(** Two specification records always merge. *)
Lemma holds_dicts_set (D : string -> bool) (k : string) (v : value)
      (merged : dict) :
  (D k = true -> is_dict v = true) ->
  holds_dicts D merged -> holds_dicts D (dict_set k v merged).
Proof.
  intros Hv H k' v'. rewrite dict_get_set.
  destruct (String.eqb_spec k k') as [->|_]; [|apply H].
  intros [= <-]. exact Hv.
Qed.

Lemma merge_items_shaped (D : string -> bool) (items : dict) :
  items_shaped D items ->
  forall merged0, holds_dicts D merged0 ->
    exists merged, merge_items merge_into items merged0 = Ok merged.
Proof.
  induction 1 as [|[k v] items Hkv _ IH]; intros merged0 Hm.
  - exists merged0. reflexivity.
  - cbn [fst snd] in Hkv. cbn [merge_items].
    destruct (D k) eqn:HD.
    + destruct Hkv as (d & -> & Hd). cbn [is_dict].
      destruct (dict_get k merged0) as [sub|] eqn:Hsub.
      * pose proof (Hm k sub Hsub HD) as Hs.
        destruct sub as [| | | | | | |od]; try discriminate.
        destruct (merge_into_leaves d od Hd) as [m ->]. cbn [bind].
        apply IH, holds_dicts_set; auto.
      * apply IH, holds_dicts_set; auto.
    + rewrite Hkv. destruct (truthy v); [|now apply IH].
      apply IH, holds_dicts_set; [congruence|exact Hm].
Qed.

Lemma specs_items_shaped (s : LaptopSpecs) (items : dict) :
  specs_dict s = VDict items -> items_shaped sub_record_key items.
Proof.
  intros [= <-]. unfold items_shaped, str_dict_value.
  repeat (apply Forall_cons; split;
          [cbn [fst snd]; first
             [ reflexivity
             | eexists; split; [reflexivity|];
               first [apply str_dict_leaves | apply float_dict_leaves] ] |]).
  constructor.
Qed.

Lemma specs_holds_dicts (s : LaptopSpecs) (items : dict) :
  specs_dict s = VDict items -> holds_dicts sub_record_key items.
Proof.
  intros [= <-] k v. unfold str_dict_value. cbn [dict_get].
  repeat match goal with
         | |- context [String.eqb k ?x] =>
             destruct (String.eqb_spec k x) as [->|_];
             [intros [= <-] HD;
              first [reflexivity | vm_compute in HD; discriminate HD] |]
         end.
  discriminate.
Qed.

(** Two specification records always merge. *)
Lemma merge_specs_total (old new : LaptopSpecs) :
  exists merged, merge_specs (specs_dict old) (specs_dict new) = Ok merged.
Proof.
  unfold merge_specs.
  destruct (specs_dict new) as [| | | | | | |items] eqn:En; try discriminate.
  destruct (specs_dict old) as [| | | | | | |oitems] eqn:Eo; try discriminate.
  cbn [merge_into].
  destruct (merge_items_shaped sub_record_key items
              (specs_items_shaped new items En) oitems
              (specs_holds_dicts old oitems Eo)) as [m ->].
  eexists. reflexivity.
Qed.
End MergeFacts.

Section MergePath.

(** The prior value survives along a path of keys. *)
Lemma merge_specs_path (path : list string) :
  forall (old new merged v prior : value),
    path <> [] ->
    unique_keys new = true ->
    Helpers.merge_specs old new = Ok merged ->
    get_path path new = Some v ->
    is_dict v = false -> truthy v = false ->
    get_path path old = Some prior ->
    get_path path merged = Some prior.
Proof.
  induction path as [|k path IH]; intros old new merged v prior Hne Hu Hm Hn Hd Ht Ho;
    [congruence|].
  cbn [get_path] in Hn, Ho.
  destruct new as [| | | | | | |items]; try discriminate.
  destruct old as [| | | | | | |old_items]; try discriminate.
  apply merge_specs_dicts in Hm as (md & Hm & ->).
  pose proof (merge_items_at k items old_items md
                (unique_keys_NoDup _ Hu) Hm) as Hat.
  unfold merged_at in Hat.
  destruct (dict_get k items) as [nv|] eqn:Hnv; [|discriminate].
  destruct (dict_get k old_items) as [ov|] eqn:Hov; [|discriminate].
  cbn [get_path].
  destruct path as [|k' path'].
  - (* the empty field itself *)
    cbn [get_path] in Hn, Ho. injection Hn as ->. injection Ho as ->.
    rewrite Hd, Ht in Hat. now rewrite Hat.
  - (* a nested dictionary: the merge recurses into it *)
    assert (Hnd : is_dict nv = true).
    { destruct nv; cbn [get_path] in Hn; try discriminate. reflexivity. }
    rewrite Hnd in Hat. destruct Hat as (m & Hrec & ->).
    apply (IH ov nv m v prior); try assumption; [discriminate|].
    eapply unique_keys_sub; eauto.
Qed.

End MergePath.

(** C2 (as the code has it).  [merge_specs] returns a merged dictionary
    for any two specification records, and [merge_specs old new] keeps,
    at every depth, the prior value of a field that the new dictionary
    leaves empty: if the new value found along a path of keys is empty
    (and not a dictionary) and the old dictionary has a value along the
    same path, the merged dictionary has that old value there. *)
Theorem merge_specs_keeps_prior_value :
  (forall old new : Models.LaptopSpecs,
      exists merged : value,
        Helpers.merge_specs (Models.specs_dict old) (Models.specs_dict new)
        = Ok merged)
  /\ forall (path : list string) (old new merged v prior : value),
      path <> [] ->
      unique_keys new = true ->
      Helpers.merge_specs old new = Ok merged ->
      get_path path new = Some v ->
      is_dict v = false -> truthy v = false ->
      get_path path old = Some prior ->
      get_path path merged = Some prior.
Proof.
  split.
  - exact merge_specs_total.
  - exact merge_specs_path.
Qed.

(** A prior ram.type "DDR4" is kept by [merge_specs] when the new
    dictionary has ram.type "". *)
Lemma merge_specs_keeps_prior_value_witness :
  let old := VDict [("ram", VDict [("size", VStr "8GB");
                                   ("type", VStr "DDR4")])] in
  let new := VDict [("ram", VDict [("size", VStr "16GB");
                                   ("type", VStr "")])] in
  let merged := VDict [("ram", VDict [("size", VStr "16GB");
                                      ("type", VStr "DDR4")])] in
  Helpers.merge_specs old new = Ok merged
  /\ get_path ["ram"; "type"] new = Some (VStr "")
  /\ get_path ["ram"; "type"] merged = Some (VStr "DDR4").
Proof.
  intros old new merged.
  assert (Hm : Helpers.merge_specs old new = Ok merged)
    by (vm_compute; reflexivity).
  split; [exact Hm|]. split; [reflexivity|].
  apply (proj2 merge_specs_keeps_prior_value ["ram"; "type"] old new merged
           (VStr "") (VStr "DDR4")).
  - discriminate.
  - vm_compute. reflexivity.
  - exact Hm.
  - reflexivity.
  - reflexivity.
  - reflexivity.
  - reflexivity.
Defined.

(** C2, as stated, fails on the persisted record: a save does not merge,
    it replaces the specifications, so a stored ram.type "DDR4" becomes
    "" when the new extraction has ram.type "". *)
Lemma persisted_ram_type_not_retained :
  let coll1 := fst (DatabaseService.insert_laptop
                      [] (laptop_with_ram_type "DDR4" 1) 1) in
  let coll2 := fst (DatabaseService.insert_laptop
                      coll1 (laptop_with_ram_type "" 2) 2) in
  stored_ram_type coll1 "B0C1X2Y3Z4" = Some (VStr "DDR4")
  /\ stored_ram_type coll2 "B0C1X2Y3Z4" = Some (VStr "")
  /\ stored_ram_type coll2 "B0C1X2Y3Z4" <> Some (VStr "DDR4").
Proof.
  cbv zeta. split; [vm_compute; reflexivity|].
  assert (E : stored_ram_type
                (fst (DatabaseService.insert_laptop
                        (fst (DatabaseService.insert_laptop
                                [] (laptop_with_ram_type "DDR4" 1) 1))
                        (laptop_with_ram_type "" 2) 2)) "B0C1X2Y3Z4"
              = Some (VStr "")) by (vm_compute; reflexivity).
  split; [exact E|]. rewrite E. discriminate.
Qed.

(** ** The dimensions extractor *)

Section RegexFacts.
Import Re.
Context {A : Type}.

Lemma length_append (a b : string) :
  String.length (a ++ b) = String.length a + String.length b.
Proof.
  induction a as [|x a IH]; [reflexivity|].
  rewrite append_cons. cbn [String.length]. now rewrite IH.
Qed.

Lemma substring_prefix (x rest : string) :
  String.substring 0 (String.length x) (x ++ rest) = x.
Proof.
  induction x as [|b x IH].
  - cbn. now destruct rest.
  - rewrite append_cons. cbn [String.length String.substring].
    now rewrite IH.
Qed.

Lemma consumed_append (x rest : string) : consumed (x ++ rest) rest = x.
Proof.
  unfold consumed. rewrite length_append.
  replace (String.length x + String.length rest - String.length rest)
    with (String.length x) by lia.
  apply substring_prefix.
Qed.

Lemma digit_case_stable : case_stable Text.is_digit.
Proof. intros [[] [] [] [] [] [] [] []]; reflexivity. Qed.


(** The defining equations of the matcher. *)
Lemma rmatch_cls_cons icase p b s c (k : string -> caps -> option A) :
  rmatch icase (Cls p) (String b s) c k
  = if cls_match icase p b then k s c else None.
Proof. reflexivity. Qed.


Lemma rmatch_chr_cons icase x b s c (k : string -> caps -> option A) :
  rmatch icase (Chr x) (String b s) c k
  = if chr_match icase x b then k s c else None.
Proof. reflexivity. Qed.

Lemma rmatch_seq icase r1 r2 s c (k : string -> caps -> option A) :
  rmatch icase (Seq r1 r2) s c k
  = rmatch icase r1 s c (fun s' c' => rmatch icase r2 s' c' k).
Proof. reflexivity. Qed.

Lemma rmatch_alt icase r1 r2 s c (k : string -> caps -> option A) :
  rmatch icase (Alt r1 r2) s c k
  = match rmatch icase r1 s c k with
    | Some a => Some a
    | None => rmatch icase r2 s c k
    end.
Proof. reflexivity. Qed.

Lemma rmatch_star icase r s c (k : string -> caps -> option A) :
  rmatch icase (Star r) s c k
  = star_loop (rmatch icase r) (S (String.length s)) s c k.
Proof. reflexivity. Qed.

Lemma rmatch_grp icase n r s c (k : string -> caps -> option A) :
  rmatch icase (Grp n r) s c k
  = rmatch icase r s c (fun s' c' => k s' ((n, consumed s s') :: c')).
Proof. reflexivity. Qed.

Lemma star_loop_S step fuel s c (k : string -> caps -> option A) :
  star_loop step (S fuel) s c k
  = match step s c
            (fun s' c' =>
               if String.length s' <? String.length s
               then star_loop step fuel s' c' k
               else None) with
    | Some a => Some a
    | None => k s c
    end.
Proof. reflexivity. Qed.



End RegexFacts.

Section NumberFacts.
Import Re AmazonSpider.
Context {A : Type}.


Lemma consumed_eq (s x rest : string) :
  s = (x ++ rest)%string -> consumed s rest = x.
Proof. intros ->. apply consumed_append. Qed.

Lemma chr_match_point (b : ascii) :
  chr_match true "." b = Ascii.eqb b ".".
Proof. destruct b as [[] [] [] [] [] [] [] []]; reflexivity. Qed.




Lemma py_float_decimal (s : string) :
  decimal s = true -> exists v : Q, Num.py_float s = Ok v.
Proof.
  unfold decimal, Num.py_float. destruct (Num.split_point s) as [i f].
  intros [[Hne Hi]%andb_true_iff Hf]%andb_true_iff.
  rewrite Hi, Hf. destruct i as [|b i]; [discriminate|].
  rewrite append_cons. cbn [Text.nonempty andb]. eauto.
Qed.

End NumberFacts.

Section TripleFacts.
Import Re AmazonSpider.


Lemma all_chars_append (p : ascii -> bool) (a b : string) :
  Text.all_chars p (a ++ b) = Text.all_chars p a && Text.all_chars p b.
Proof.
  induction a as [|x a IH]; [reflexivity|].
  rewrite append_cons. cbn [Text.all_chars]. now rewrite IH, andb_assoc.
Qed.









End TripleFacts.

Section TripleMatch.
Import Re AmazonSpider.





End TripleMatch.


(* ===================================================================== *)
(** * Further properties of the code *)
(* ===================================================================== *)

(** ** Saving and looking up *)

Section StoreFacts.
Import Models DatabaseService.

Lemma dict_set_same (k : string) (v : value) (d : dict) :
  dict_get k d = Some v -> dict_set k v d = d.
Proof.
  induction d as [|[k' v'] d IH]; [discriminate|].
  cbn [dict_get dict_set]. destruct (String.eqb_spec k k') as [->|_].
  - now intros [= ->].
  - intros H. now rewrite IH.
Qed.

Lemma apply_set_same (fields : dict) (d : dict) :
  (forall k v, (k, v) ∈ fields -> dict_get k d = Some v) ->
  apply_set fields d = d.
Proof.
  unfold apply_set. induction fields as [|[k v] fields IH]; intros H.
  - reflexivity.
  - cbn [fold_left fst snd]. rewrite dict_set_same by (apply H; left).
    apply IH. intros k' v' Hin. apply H. now right.
Qed.

Lemma updated_field (l : Laptop) (doc : dict) (k : string) (v : value) :
  (k, v) ∈ dict_without_first_seen l -> dict_get k (updated l doc) = Some v.
Proof. apply apply_set_listed, laptop_fields_NoDup. Qed.

Lemma inserted_field (l : Laptop) (now : Z) (k : string) (v : value) :
  (k, v) ∈ dict_without_first_seen l -> dict_get k (inserted l now) = Some v.
Proof.
  intros H. rewrite inserted_get.
  destruct (String.eqb_spec "first_seen" k) as [<-|_].
  - exfalso. apply (first_seen_not_set l).
    apply list_elem_of_fmap. exists ("first_seen", v). auto.
  - now apply updated_field.
Qed.

Lemma update_first_same (pid : string) (upd : dict -> dict)
      (coll : collection) (doc : dict) :
  find_one pid coll = Some doc -> upd doc = doc ->
  update_first pid upd coll = Some coll.
Proof.
  unfold find_one. induction coll as [|d coll IH]; [discriminate|].
  cbn [List.find update_first]. destruct (matches pid d).
  - intros [= ->] ->. reflexivity.
  - intros H Hupd. now rewrite (IH H Hupd).
Qed.

(** Counting the documents of a product across an update in place. *)
Lemma update_first_documents (pid pid' : string) (upd : dict -> dict)
      (coll coll' : collection) :
  (forall doc, matches pid' doc = true ->
               matches pid (upd doc) = matches pid doc) ->
  update_first pid' upd coll = Some coll' ->
  length (documents_of pid coll') = length (documents_of pid coll).
Proof.
  intros Hupd. revert coll'. unfold documents_of.
  induction coll as [|d coll IH]; intros coll'; [discriminate|].
  cbn [update_first]. destruct (matches pid' d) eqn:E.
  - intros [= <-]. cbn [List.filter]. rewrite (Hupd d E).
    now destruct (matches pid d).
  - destruct (update_first pid' upd coll) as [c|]; [|discriminate].
    intros [= <-]. cbn [List.filter].
    destruct (matches pid d); cbn [length]; now rewrite (IH c).
Qed.

Lemma documents_of_absent (pid : string) (coll : collection) :
  find_one pid coll = None -> documents_of pid coll = [].
Proof.
  unfold find_one, documents_of. induction coll as [|d coll IH];
    [reflexivity|].
  cbn [List.find List.filter]. destruct (matches pid d); [discriminate|].
  exact IH.
Qed.

Lemma documents_of_app (pid : string) (a b : collection) :
  documents_of pid (a ++ b) = (documents_of pid a ++ documents_of pid b)%list.
Proof. unfold documents_of. apply List.filter_app. Qed.

Lemma insert_laptop_documents (coll : collection) (l : Laptop) (now : Z)
      (pid : string) :
  length (documents_of pid (fst (insert_laptop coll l now)))
  = match find_one (product_id l) coll with
    | Some _ => length (documents_of pid coll)
    | None =>
        length (documents_of pid coll)
        + (if String.eqb (product_id l) pid then 1 else 0)
    end.
Proof.
  unfold insert_laptop, upsert. cbn [fst].
  destruct (find_one (product_id l) coll) as [doc|] eqn:H.
  - destruct (update_first_found _ (apply_set (dict_without_first_seen l))
                _ _ H) as (coll' & E & _).
    rewrite E. eapply update_first_documents; [|exact E].
    intros d Hd. fold (updated l d). rewrite matches_updated.
    destruct (String.eqb_spec (product_id l) pid) as [<-|Hne].
    + now rewrite Hd.
    + symmetry. now apply (matches_unique (product_id l)).
  - rewrite (update_first_absent _ _ _ H), documents_of_app, length_app.
    f_equal. unfold documents_of. cbn [List.filter].
    fold (updated l [("product_id", VStr (product_id l))]).
    fold (inserted l now). rewrite matches_inserted.
    now destruct (String.eqb (product_id l) pid).
Qed.

(** After a save the stored document of the product holds the saved
    fields. *)
Lemma insert_laptop_stored (coll : collection) (l : Laptop) (now : Z) :
  exists doc : dict,
    find_one (product_id l) (fst (insert_laptop coll l now)) = Some doc
    /\ forall (k : string) (v : value),
        (k, v) ∈ dict_without_first_seen l -> dict_get k doc = Some v.
Proof.
  destruct (find_one (product_id l) coll) as [doc|] eqn:H.
  - exists (updated l doc). split; [now apply insert_laptop_found|].
    intros k v. apply updated_field.
  - exists (inserted l now). split; [now apply insert_laptop_absent|].
    intros k v. apply inserted_field.
Qed.

End StoreFacts.

(** X1. Saving then looking up: after a save, the stored document of the
    product holds every field of the saved record, except [first_seen],
    with the saved value. *)
Theorem saved_fields_are_stored
        (coll : list dict) (laptop : Models.Laptop) (now : Z) :
  exists doc : dict,
    DatabaseService.find_one (Models.product_id laptop)
      (fst (DatabaseService.insert_laptop coll laptop now)) = Some doc
    /\ forall (k : string) (v : value),
        (k, v) ∈ Models.dict_without_first_seen laptop ->
        dict_get k doc = Some v.
Proof. apply insert_laptop_stored. Qed.

(** X2. A save never creates a second document for a product: a
    collection with at most one document per product stays so, and a
    collection built by saves alone is so. *)
Theorem saves_keep_one_document_per_product :
  (forall (coll : list dict) (laptop : Models.Laptop) (now : Z),
      one_per_product coll ->
      one_per_product (fst (DatabaseService.insert_laptop coll laptop now)))
  /\ forall products : list (Models.Laptop * Z),
      one_per_product (DatabaseService.save_all [] products).
Proof.
  assert (Hstep : forall (coll : list dict) (laptop : Models.Laptop) (now : Z),
             one_per_product coll ->
             one_per_product
               (fst (DatabaseService.insert_laptop coll laptop now))).
  { intros coll l now H pid. rewrite insert_laptop_documents.
    destruct (DatabaseService.find_one (Models.product_id l) coll) eqn:E;
      [apply H|].
    destruct (String.eqb_spec (Models.product_id l) pid) as [<-|_].
    - rewrite (documents_of_absent _ _ E). cbn. lia.
    - specialize (H pid). lia. }
  split; [exact Hstep|].
  intros products.
  assert (G : forall coll, one_per_product coll ->
                one_per_product (DatabaseService.save_all coll products)).
  { induction products as [|p rest IH]; intros coll H; [exact H|].
    rewrite save_all_cons. now apply IH, Hstep. }
  apply G. intros pid. cbn. lia.
Qed.

Lemma saves_keep_one_document_per_product_witness :
  one_per_product []
  /\ one_per_product
       (fst (DatabaseService.insert_laptop [] (laptop_with_ram_type "DDR4" 1) 1)).
Proof.
  assert (H : one_per_product []) by (intros pid; cbn; lia).
  split; [exact H|].
  exact (proj1 saves_keep_one_document_per_product [] _ 1%Z H).
Defined.

(** X3. Saving the same record again changes nothing: the second save
    leaves the collection exactly as the first one made it. *)
Theorem save_is_idempotent
        (coll : list dict) (laptop : Models.Laptop) (now later : Z) :
  fst (DatabaseService.insert_laptop
         (fst (DatabaseService.insert_laptop coll laptop now)) laptop later)
  = fst (DatabaseService.insert_laptop coll laptop now).
Proof.
  set (coll1 := fst (DatabaseService.insert_laptop coll laptop now)).
  assert (H : exists doc,
             DatabaseService.find_one (Models.product_id laptop) coll1 = Some doc
             /\ DatabaseService.apply_set
                  (Models.dict_without_first_seen laptop) doc = doc).
  { destruct (insert_laptop_stored coll laptop now) as (doc & Hf & Hk).
    exists doc. split; [exact Hf|]. now apply apply_set_same. }
  destruct H as (doc & Hf & Hsame).
  unfold DatabaseService.insert_laptop at 1, DatabaseService.upsert. cbn [fst].
  now rewrite (update_first_same _ _ _ _ Hf Hsame).
Qed.

(** ** Marking a product unavailable *)

Section UnavailableFacts.
Import Models DatabaseService.

Lemma marked_get (now : Z) (doc : dict) (k : string) :
  dict_get k (apply_set (unavailable_fields now) doc)
  = if String.eqb "last_updated" k then Some (VDate now)
    else if String.eqb "in_stock" k then Some (VBool false)
    else dict_get k doc.
Proof.
  unfold apply_set, unavailable_fields. cbn [fold_left fst snd].
  now rewrite !dict_get_set.
Qed.

Lemma matches_marked (pid : string) (now : Z) (doc : dict) :
  matches pid (apply_set (unavailable_fields now) doc) = matches pid doc.
Proof. unfold matches. now rewrite marked_get. Qed.

End UnavailableFacts.

(** X4. Marking a product unavailable touches one document and two
    fields: when the product is stored, its document gets
    [in_stock = false] and [last_updated = now], every other field of it
    and every other product's document stay as they were, and the result
    tells whether the document changed; when the product is not stored,
    nothing is inserted and the result is false. *)
Theorem mark_unavailable_touches_two_fields
        (coll : list dict) (pid : string) (now : Z) :
  let after := fst (DatabaseService.mark_unavailable coll pid now) in
  length after = length coll
  /\ (forall pid', pid' <> pid ->
        DatabaseService.find_one pid' after
        = DatabaseService.find_one pid' coll)
  /\ match DatabaseService.find_one pid coll with
     | None => DatabaseService.mark_unavailable coll pid now = (coll, false)
     | Some doc =>
         exists doc' : dict,
           DatabaseService.find_one pid after = Some doc'
           /\ dict_get "in_stock" doc' = Some (VBool false)
           /\ dict_get "last_updated" doc' = Some (VDate now)
           /\ (forall k, k <> "in_stock" -> k <> "last_updated" ->
                         dict_get k doc' = dict_get k doc)
           /\ snd (DatabaseService.mark_unavailable coll pid now)
              = negb (DatabaseService.already_unavailable doc now)
     end.
Proof.
  cbv zeta. unfold DatabaseService.mark_unavailable.
  destruct (DatabaseService.find_one pid coll) as [doc|] eqn:H.
  - destruct (update_first_found pid
                (DatabaseService.apply_set (unavailable_fields now))
                coll doc H) as (coll' & E & Hsame & Hother).
    fold (unavailable_fields now). rewrite E. cbn [fst snd].
    split; [|split].
    + clear -E. revert coll' E.
      induction coll as [|d coll IH]; intros coll'; [discriminate|].
      cbn [DatabaseService.update_first].
      destruct (DatabaseService.matches pid d).
      * now intros [= <-].
      * destruct (DatabaseService.update_first pid _ coll) as [c|];
          [|discriminate].
        intros [= <-]. cbn [length]. now rewrite (IH c).
    + intros pid' Hne. apply Hother.
      * eapply matches_unique; [|apply not_eq_sym, Hne].
        eapply find_one_matches, H.
      * rewrite matches_marked. eapply matches_unique;
          [|apply not_eq_sym, Hne]. eapply find_one_matches, H.
    + exists (DatabaseService.apply_set (unavailable_fields now) doc).
      split.
      { apply Hsame. rewrite matches_marked. eapply find_one_matches, H. }
      rewrite !marked_get. cbn [String.eqb Ascii.eqb Bool.eqb].
      repeat split.
      intros k Hk1 Hk2. rewrite marked_get.
      apply not_eq_sym, String.eqb_neq in Hk1, Hk2. now rewrite Hk1, Hk2.
  - cbn [fst]. repeat split.
Qed.

(** ** Validation of a new record *)

Section RoundFacts.

Lemma scale_pos (n : nat) : (0 < inject_Z (Zpos (Num.scale n)))%Q.
Proof. reflexivity. Qed.

Lemma py_round_num (ndigits : nat) (q : Q) :
  (Num.py_round ndigits q == rounded_num ndigits q # Num.scale ndigits)%Q.
Proof. unfold Num.py_round, rounded_num. apply Qred_correct. Qed.

Lemma rounded_num_bounds (ndigits : nat) (q : Q) :
  let h := (q * inject_Z (Zpos (Num.scale ndigits)))%Q in
  (Qfloor h <= rounded_num ndigits q)%Z
  /\ (rounded_num ndigits q = Qfloor h
      \/ (rounded_num ndigits q = Qfloor h + 1)%Z /\ (inject_Z (Qfloor h) < h)%Q).
Proof.
  cbv zeta. unfold rounded_num.
  set (h := (q * inject_Z (Zpos (Num.scale ndigits)))%Q).
  assert (Eh : Qfloor (Qred h) = Qfloor h)
    by (apply Qfloor_comp, Qred_correct).
  rewrite Eh. set (lo := Qfloor h).
  assert (Hr : (Qred (Qred h - inject_Z lo) == h - inject_Z lo)%Q)
    by (repeat rewrite Qred_correct; reflexivity).
  assert (Hpos : forall c, Qcompare (Qred (Qred h - inject_Z lo)) (1 # 2) = c ->
                           c <> Lt -> (inject_Z lo < h)%Q).
  { intros c Hc Hne.
    assert (Hge : ~ (Qred (Qred h - inject_Z lo) < 1 # 2)%Q)
      by (rewrite Qlt_alt, Hc; exact Hne).
    apply Qnot_lt_le in Hge. rewrite Hr in Hge.
    apply Qlt_minus_iff. eapply Qlt_le_trans; [|exact Hge]. reflexivity. }
  destruct (Qcompare (Qred (Qred h - inject_Z lo)) (1 # 2)) eqn:Hc.
  - destruct (Z.even lo).
    + split; [lia | now left].
    + split; [lia | right; split; [reflexivity|]].
      apply (Hpos Eq); [reflexivity | discriminate].
  - split; [lia | now left].
  - split; [lia | right; split; [reflexivity|]].
    apply (Hpos Gt); [reflexivity | discriminate].
Qed.

(** Rounding keeps a value on its side of a whole number. *)
Lemma py_round_ge (ndigits : nat) (q : Q) (n : Z) :
  (inject_Z n <= q)%Q -> (inject_Z n <= Num.py_round ndigits q)%Q.
Proof.
  intros H. rewrite py_round_num.
  destruct (rounded_num_bounds ndigits q) as [Hlo _].
  set (u := Num.scale ndigits) in *.
  assert (Hh : (inject_Z (n * Zpos u) <= q * inject_Z (Zpos u))%Q)
    by (rewrite inject_Z_mult; apply Qmult_le_compat_r; [exact H | easy]).
  assert (Hf : (n * Zpos u <= Qfloor (q * inject_Z (Zpos u)))%Z).
  { apply Qfloor_resp_le in Hh. now rewrite Qfloor_Z in Hh. }
  unfold Qle. cbn. nia.
Qed.



End RoundFacts.

Section ValidationFacts.
Import Models.

Lemma Qltb_lt (a b : Q) : Qltb a b = true <-> (a < b)%Q.
Proof.
  unfold Qltb. rewrite Qlt_alt.
  destruct (Qcompare a b); split; congruence.
Qed.

Lemma validate_price_spec (v : Q) :
  match validate_price v with
  | Ok p => (0 <= v)%Q /\ p = Num.py_round 2 v /\ (0 <= p)%Q
  | Raise e => e = ValueError /\ (v < 0)%Q
  end.
Proof.
  unfold validate_price. destruct (Qltb v 0) eqn:E.
  - split; [reflexivity | now apply Qltb_lt].
  - assert (H : (0 <= v)%Q).
    { apply Qnot_lt_le. intros H%Qltb_lt. congruence. }
    split; [exact H|]. split; [reflexivity|].
    now apply (py_round_ge 2 v 0).
Qed.


End ValidationFacts.


(** ** Merging: what the new dictionary contributes *)

Section MergeMore.
Import Helpers.

Lemma merge_items_keeps (rec : value -> value -> result value) (k : string)
      (items : dict) :
  forall merged0 merged : dict,
    merge_items rec items merged0 = Ok merged ->
    is_Some (dict_get k merged0) -> is_Some (dict_get k merged).
Proof.
  induction items as [|[k0 v0] rest IH]; intros merged0 merged Hm Hk.
  - cbn in Hm. now injection Hm as <-.
  - cbn [merge_items] in Hm.
    assert (Hset : forall v, is_Some (dict_get k (dict_set k0 v merged0))).
    { intros v. rewrite dict_get_set. now destruct (String.eqb k0 k). }
    destruct (is_dict v0).
    + destruct (dict_get k0 merged0) as [sub|].
      * destruct (rec v0 sub) as [m|]; [|discriminate]. cbn [bind] in Hm.
        eapply IH; [exact Hm | apply Hset].
      * eapply IH; [exact Hm | apply Hset].
    + destruct (truthy v0); eapply IH; eauto.
Qed.

Lemma get_path_leaf_falsy_items (items : dict) (path : list string)
      (v : value) :
  path <> [] ->
  forallb (fun kv => negb (is_dict (snd kv)) && negb (truthy (snd kv))) items
  = true ->
  get_path path (VDict items) = Some v ->
  is_dict v = false -> truthy v = true -> False.
Proof.
  intros Hne Hall Hp Hd Ht. destruct path as [|k path]; [congruence|].
  cbn [get_path] in Hp.
  destruct (dict_get k items) as [nv|] eqn:Hk; [|discriminate].
  rewrite forallb_forall in Hall.
  apply dict_get_elem, list_elem_of_In in Hk.
  specialize (Hall _ Hk). cbn [snd] in Hall.
  apply andb_true_iff in Hall as [Hnd Hnt].
  apply negb_true_iff in Hnd, Hnt.
  destruct path as [|k' path'].
  - cbn in Hp. injection Hp as ->. congruence.
  - destruct nv; cbn [get_path] in Hp; discriminate.
Qed.

(** A non-empty new value is what the merged dictionary holds. *)
Lemma merge_specs_new_path (path : list string) :
  forall (old new merged v : value),
    path <> [] ->
    unique_keys new = true ->
    merge_specs old new = Ok merged ->
    get_path path new = Some v ->
    is_dict v = false -> truthy v = true ->
    get_path path merged = Some v.
Proof.
  induction path as [|k path IH]; intros old new merged v Hne Hu Hm Hn Hd Ht;
    [congruence|].
  destruct new as [| | | | | | |items];
    try (cbn [get_path] in Hn; discriminate).
  unfold merge_specs in Hm.
  destruct old as [| | | | | |l|old_items]; try discriminate.
  - (* merging into a list only succeeds when nothing is to be written *)
    cbn [merge_into] in Hm.
    destruct (forallb _ items) eqn:Hall; [|discriminate].
    exfalso. eapply (get_path_leaf_falsy_items items (k :: path)); eauto.
  - fold (merge_specs (VDict old_items) (VDict items)) in Hm.
    apply merge_specs_dicts in Hm as (md & Hm & ->).
    pose proof (merge_items_at k items old_items md
                  (unique_keys_NoDup _ Hu) Hm) as Hat.
    unfold merged_at in Hat. cbn [get_path] in Hn |- *.
    destruct (dict_get k items) as [nv|] eqn:Hnv; [|discriminate].
    destruct path as [|k' path'].
    + cbn [get_path] in Hn. injection Hn as ->.
      rewrite Hd, Ht in Hat. now rewrite Hat.
    + assert (Hnd : is_dict nv = true).
      { destruct nv; cbn [get_path] in Hn; try discriminate. reflexivity. }
      rewrite Hnd in Hat.
      destruct (dict_get k old_items) as [ov|].
      * destruct Hat as (m & Hrec & ->).
        apply (IH ov nv m v); try assumption; [discriminate|].
        eapply unique_keys_sub; eauto.
      * now rewrite Hat.
Qed.

End MergeMore.

(** X6. Last write wins for non-empty values: when [merge_specs old new]
    returns, a value of [new] found along a path of keys that is neither
    empty nor a dictionary is the value the merged dictionary has along
    that path, whatever [old] held there. *)
Theorem merge_specs_new_value_wins
        (path : list string) (old new merged v : value) :
  path <> [] ->
  unique_keys new = true ->
  Helpers.merge_specs old new = Ok merged ->
  get_path path new = Some v ->
  is_dict v = false -> truthy v = true ->
  get_path path merged = Some v.
Proof. apply merge_specs_new_path. Qed.

Lemma merge_specs_new_value_wins_witness :
  let old := VDict [("ram", VDict [("size", VStr "8GB");
                                   ("type", VStr "DDR4")])] in
  let new := VDict [("ram", VDict [("size", VStr "16GB");
                                   ("type", VStr "")])] in
  let merged := VDict [("ram", VDict [("size", VStr "16GB");
                                      ("type", VStr "DDR4")])] in
  Helpers.merge_specs old new = Ok merged
  /\ get_path ["ram"; "size"] new = Some (VStr "16GB")
  /\ get_path ["ram"; "size"] merged = Some (VStr "16GB").
Proof.
  intros old new merged.
  assert (Hm : Helpers.merge_specs old new = Ok merged)
    by (vm_compute; reflexivity).
  split; [exact Hm|]. split; [reflexivity|].
  apply (merge_specs_new_value_wins ["ram"; "size"] old new merged
           (VStr "16GB")).
  - discriminate.
  - vm_compute. reflexivity.
  - exact Hm.
  - reflexivity.
  - reflexivity.
  - reflexivity.
Defined.

(** X7. Merging never drops a field: every key of the old dictionary is
    still a key of the merged one. *)
Theorem merge_specs_keeps_old_keys (old new merged : dict) (k : string) :
  Helpers.merge_specs (VDict old) (VDict new) = Ok (VDict merged) ->
  is_Some (dict_get k old) -> is_Some (dict_get k merged).
Proof.
  intros Hm. apply merge_specs_dicts in Hm as (md & Hm & [= ->]).
  eapply merge_items_keeps, Hm.
Qed.

Lemma merge_specs_keeps_old_keys_witness :
  let old := [("os", VStr "Windows 11"); ("ports", VList [VStr "HDMI"])] in
  let new := [("os", VStr "")] in
  let merged := [("os", VStr "Windows 11"); ("ports", VList [VStr "HDMI"])] in
  Helpers.merge_specs (VDict old) (VDict new) = Ok (VDict merged)
  /\ is_Some (dict_get "ports" old)
  /\ is_Some (dict_get "ports" merged).
Proof.
  intros old new merged.
  assert (Hm : Helpers.merge_specs (VDict old) (VDict new) = Ok (VDict merged))
    by (vm_compute; reflexivity).
  assert (Hk : is_Some (dict_get "ports" old)) by (eexists; reflexivity).
  split; [exact Hm|]. split; [exact Hk|].
  exact (merge_specs_keeps_old_keys old new merged "ports" Hm Hk).
Defined.

(** ** What a match of the matcher means *)

Section Soundness.
Import Re.
Context {A : Type}.
Variable icase : bool.

Lemma star_loop_sound (r : regex) (a : A) :
  (forall s c (k : string -> caps -> option A),
      rmatch icase r s c k = Some a ->
      exists s' c', matches icase r s c s' c' /\ k s' c' = Some a) ->
  forall fuel s c (k : string -> caps -> option A),
    star_loop (rmatch icase r) fuel s c k = Some a ->
    exists s' c', matches icase (Star r) s c s' c' /\ k s' c' = Some a.
Proof.
  intros Hr. induction fuel as [|fuel IH]; intros s c k H.
  - cbn in H. exists s, c. split; [constructor | exact H].
  - rewrite star_loop_S in H.
    destruct (rmatch icase r s c _) as [a'|] eqn:E.
    + injection H as ->. apply Hr in E as (s1 & c1 & Hm & Hk).
      destruct (String.length s1 <? String.length s); [|discriminate].
      apply IH in Hk as (s2 & c2 & Hm2 & Hk2).
      exists s2, c2. split; [econstructor; eauto | exact Hk2].
    + exists s, c. split; [constructor | exact H].
Qed.

(** Whatever the matcher returns, it got from its continuation at the
    end of a match of the pattern. *)
Lemma rmatch_sound (r : regex) (a : A) :
  forall s c (k : string -> caps -> option A),
    rmatch icase r s c k = Some a ->
    exists s' c', matches icase r s c s' c' /\ k s' c' = Some a.
Proof.
  induction r as [|x|p|r1 IH1 r2 IH2|r1 IH1 r2 IH2|r IH|n r IH];
    intros s c k H.
  - exists s, c. split; [constructor | exact H].
  - destruct s as [|b s]; [discriminate|]. rewrite rmatch_chr_cons in H.
    destruct (chr_match icase x b) eqn:E; [|discriminate].
    exists s, c. split; [now constructor | exact H].
  - destruct s as [|b s]; [discriminate|]. rewrite rmatch_cls_cons in H.
    destruct (cls_match icase p b) eqn:E; [|discriminate].
    exists s, c. split; [now constructor | exact H].
  - rewrite rmatch_seq in H. apply IH1 in H as (s1 & c1 & H1 & H).
    apply IH2 in H as (s2 & c2 & H2 & H).
    exists s2, c2. split; [econstructor; eauto | exact H].
  - rewrite rmatch_alt in H.
    destruct (rmatch icase r1 s c k) as [a'|] eqn:E.
    + injection H as ->. apply IH1 in E as (s1 & c1 & H1 & H).
      exists s1, c1. split; [now apply M_alt_l | exact H].
    + apply IH2 in H as (s1 & c1 & H1 & H).
      exists s1, c1. split; [now apply M_alt_r | exact H].
  - rewrite rmatch_star in H. now apply (star_loop_sound r a IH) in H.
  - rewrite rmatch_grp in H. apply IH in H as (s1 & c1 & H1 & H).
    exists s1, ((n, consumed s s1) :: c1).
    split; [apply M_grp, H1 | exact H].
Qed.

End Soundness.

Section MatchFacts.
Import Re.

(** A match ends on a suffix of the text it started on. *)
Lemma matches_suffix icase r s c s' c' :
  matches icase r s c s' c' -> exists w, s = (w ++ s')%string.
Proof.
  induction 1 as [s c|a b s c _|p b s c _
                  |r1 r2 s c s1 c1 s2 c2 _ [w1 ->] _ [w2 ->]
                  |r1 r2 s c s1 c1 _ IH|r1 r2 s c s1 c1 _ IH
                  |r s c|r s c s1 c1 s2 c2 _ [w1 ->] _ [w2 ->]
                  |n r s c s1 c1 _ IH].
  - now exists "".
  - now exists (String b "").
  - now exists (String b "").
  - exists (w1 ++ w2)%string. now rewrite append_assoc.
  - exact IH.
  - exact IH.
  - now exists "".
  - exists (w1 ++ w2)%string. now rewrite append_assoc.
  - exact IH.
Qed.

(** A pattern without groups leaves the captures alone. *)
Lemma matches_no_groups icase r s c s' c' :
  matches icase r s c s' c' -> no_groups r = true -> c' = c.
Proof.
  induction 1; cbn [no_groups]; intros Hn; try reflexivity;
    try discriminate.
  - apply andb_true_iff in Hn as [H1 H2].
    rewrite IHmatches2 by assumption. now apply IHmatches1.
  - apply andb_true_iff in Hn as [H1 H2]. now apply IHmatches.
  - apply andb_true_iff in Hn as [H1 H2]. now apply IHmatches.
  - rewrite IHmatches2 by assumption. now apply IHmatches1.
Qed.

(** A repetition of a class takes a run of the class. *)
Lemma matches_star_class icase (p : ascii -> bool) s c s' c' :
  (forall b, cls_match icase p b = p b) ->
  matches icase (Star (Cls p)) s c s' c' ->
  exists w, Text.all_chars p w = true /\ s = (w ++ s')%string /\ c' = c.
Proof.
  intros Hp H. remember (Star (Cls p)) as r eqn:Er.
  induction H as [| | | | | |r s c|r s c s1 c1 s2 c2 H1 _ H2 IH|];
    try discriminate.
  - exists "". auto.
  - injection Er as ->. destruct (IH eq_refl) as (w & Hw & -> & ->).
    inversion H1 as [| |p0 b s0 c0 Hb| | | | | |]; subst.
    exists (String b w). cbn [Text.all_chars].
    rewrite <- (Hp b), Hb, Hw. auto.
Qed.

Lemma matches_plus_class icase (p : ascii -> bool) s c s' c' :
  (forall b, cls_match icase p b = p b) ->
  matches icase (Plus (Cls p)) s c s' c' ->
  exists w, Text.all_chars p w = true /\ Text.nonempty w = true
            /\ s = (w ++ s')%string /\ c' = c.
Proof.
  intros Hp H. unfold Plus in H.
  inversion H as [| | |r1 r2 s0 c0 s1 c1 s2 c2 H1 H2| | | | |]; subst.
  inversion H1 as [| |p0 b s0 c0 Hb| | | | | |]; subst.
  apply (matches_star_class icase p) in H2 as (w & Hw & -> & ->);
    [|exact Hp].
  exists (String b w). cbn [Text.all_chars]. rewrite <- (Hp b), Hb, Hw. auto.
Qed.

Lemma digit_stable icase (b : ascii) :
  cls_match icase Text.is_digit b = Text.is_digit b.
Proof. destruct icase; [apply digit_case_stable | reflexivity]. Qed.

End MatchFacts.

Section InversionFacts.
Import Re AmazonSpider.

Lemma seq_inv icase r1 r2 s c s2 c2 :
  matches icase (Seq r1 r2) s c s2 c2 ->
  exists s1 c1, matches icase r1 s c s1 c1 /\ matches icase r2 s1 c1 s2 c2.
Proof. inversion 1; subst. eauto. Qed.

Lemma grp_inv icase n r s c s' c' :
  matches icase (Grp n r) s c s' c' ->
  exists c1, matches icase r s c s' c1 /\ c' = (n, consumed s s') :: c1.
Proof. inversion 1; subst. eauto. Qed.

Lemma alt_inv icase r1 r2 s c s' c' :
  matches icase (Alt r1 r2) s c s' c' ->
  matches icase r1 s c s' c' \/ matches icase r2 s c s' c'.
Proof. inversion 1; subst; auto. Qed.

Lemma split_point_fraction (i fs : string) :
  Num.all_digits i = true ->
  Num.split_point (i ++ String "." fs) = (i, Some fs).
Proof.
  induction i as [|b i IH]; [reflexivity|].
  unfold Num.all_digits. cbn [Text.all_chars].
  intros [Hb Hi]%andb_true_iff.
  rewrite append_cons. cbn [Num.split_point].
  now rewrite (point_not_digit b Hb), (IH Hi).
Qed.

Lemma decimal_digits (i : string) :
  Num.all_digits i = true -> Text.nonempty i = true -> decimal i = true.
Proof.
  intros Hi Hne. unfold decimal.
  now rewrite (split_point_digits i Hi), Hne, Hi.
Qed.

Lemma decimal_fraction (i fs : string) :
  Num.all_digits i = true -> Text.nonempty i = true ->
  Num.all_digits fs = true -> decimal (i ++ String "." fs) = true.
Proof.
  intros Hi Hne Hfs. unfold decimal.
  now rewrite (split_point_fraction i fs Hi), Hne, Hi, Hfs.
Qed.

Lemma all_digits_append (a b : string) :
  Num.all_digits (a ++ b) = Num.all_digits a && Num.all_digits b.
Proof. apply all_chars_append. Qed.

Lemma nonempty_append (a b : string) :
  Text.nonempty a = true -> Text.nonempty (a ++ b) = true.
Proof. destruct a; [discriminate | reflexivity]. Qed.

(** What the number pattern captures is a decimal numeral. *)
Lemma matches_number (n : nat) s c s' c' :
  matches true (number n) s c s' c' ->
  exists d, decimal d = true /\ s = (d ++ s')%string /\ c' = (n, d) :: c.
Proof.
  unfold number. intros H.
  apply grp_inv in H as (c1 & H & ->).
  apply seq_inv in H as (sa & ca & Hint & H).
  apply (matches_plus_class true Text.is_digit) in Hint
    as (w & Hw & Hne & -> & ->); [|exact digit_case_stable].
  apply seq_inv in H as (sb & cb & Hopt & Hfrac).
  apply (matches_star_class true Text.is_digit) in Hfrac
    as (w2 & Hw2 & -> & ->); [|exact digit_case_stable].
  apply alt_inv in Hopt as [Hpt|Heps].
  - inversion Hpt as [|a b s0 c0 Hb| | | | | | |]; subst.
    rewrite chr_match_point in Hb. apply Ascii.eqb_eq in Hb as ->.
    exists (w ++ String "." w2)%string.
    assert (E : (w ++ String "." (w2 ++ s') = (w ++ String "." w2) ++ s')%string)
      by now rewrite append_assoc.
    split; [now apply decimal_fraction|]. split; [exact E|].
    now rewrite (consumed_eq _ _ _ E).
  - inversion Heps; subst.
    exists (w ++ w2)%string.
    assert (E : (w ++ w2 ++ s' = (w ++ w2) ++ s')%string)
      by now rewrite append_assoc.
    split.
    + apply decimal_digits; [|now apply nonempty_append].
      rewrite all_digits_append. unfold Num.all_digits. now rewrite Hw, Hw2.
    + split; [exact E|]. now rewrite (consumed_eq _ _ _ E).
Qed.

(** What [(\d+)] captures is a non-empty run of digits. *)
Lemma matches_digits_group icase (n : nat) s c s' c' :
  matches icase (Grp n (Plus digit)) s c s' c' ->
  exists d, Num.all_digits d = true /\ Text.nonempty d = true
            /\ s = (d ++ s')%string /\ c' = (n, d) :: c.
Proof.
  intros H. apply grp_inv in H as (c1 & H & ->).
  apply (matches_plus_class icase Text.is_digit) in H
    as (w & Hw & Hne & -> & ->); [|apply digit_stable].
  exists w. rewrite consumed_append. auto.
Qed.

(** A match object of a search comes from a match of the pattern. *)
Lemma search_from_sound icase r (s : string) :
  forall pos m,
    search_from icase r pos s = Some m ->
    exists s0 s', matches icase r s0 [] s' (m_groups m)
                  /\ m_text m = consumed s0 s'.
Proof.
  induction s as [|b s IH]; intros pos m; cbn [search_from];
    destruct (match_at icase r pos _) as [m'|] eqn:E.
  - intros [= <-]. unfold match_at in E.
    apply rmatch_sound in E as (s' & c' & Hm & [= <-]). eauto.
  - discriminate.
  - intros [= <-]. unfold match_at in E.
    apply rmatch_sound in E as (s' & c' & Hm & [= <-]). eauto.
  - apply IH.
Qed.

Lemma search_sound icase r s m :
  search icase r s = Some m ->
  exists s0 s', matches icase r s0 [] s' (m_groups m)
                /\ m_text m = consumed s0 s'.
Proof. apply search_from_sound. Qed.

(** The groups of a match of a dimension pattern. *)
Lemma triple_groups (sep : regex) s s' c' :
  no_groups sep = true ->
  matches true (triple_re sep) s [] s' c' ->
  exists d1 d2 d3,
    decimal d1 = true /\ decimal d2 = true /\ decimal d3 = true
    /\ c' = [(3, d3); (2, d2); (1, d1)].
Proof.
  intros Hsep H. unfold triple_re in H.
  apply seq_inv in H as (s1 & c1 & Hn1 & H).
  apply matches_number in Hn1 as (d1 & Hd1 & _ & ->).
  apply seq_inv in H as (s2 & c2 & Hw & H).
  apply matches_no_groups in Hw as ->; [|reflexivity].
  apply seq_inv in H as (s3 & c3 & Hx & H).
  apply matches_no_groups in Hx as ->; [|exact Hsep].
  apply seq_inv in H as (s4 & c4 & Hw & H).
  apply matches_no_groups in Hw as ->; [|reflexivity].
  apply seq_inv in H as (s5 & c5 & Hn2 & H).
  apply matches_number in Hn2 as (d2 & Hd2 & _ & ->).
  apply seq_inv in H as (s6 & c6 & Hw & H).
  apply matches_no_groups in Hw as ->; [|reflexivity].
  apply seq_inv in H as (s7 & c7 & Hx & H).
  apply matches_no_groups in Hx as ->; [|exact Hsep].
  apply seq_inv in H as (s8 & c8 & Hw & H).
  apply matches_no_groups in Hw as ->; [|reflexivity].
  apply seq_inv in H as (s9 & c9 & Hn3 & H).
  apply matches_number in Hn3 as (d3 & Hd3 & _ & ->).
  apply seq_inv in H as (s10 & c10 & Hw & H).
  apply matches_no_groups in Hw as ->; [|reflexivity].
  apply matches_no_groups in H as ->; [|reflexivity].
  exists d1, d2, d3. auto.
Qed.

Lemma first_search_dimension_groups (info : string) (m : match_obj) :
  first_search dimension_patterns info = Some m ->
  exists d1 d2 d3,
    decimal d1 = true /\ decimal d2 = true /\ decimal d3 = true
    /\ m_groups m = [(3, d3); (2, d2); (1, d1)].
Proof.
  unfold dimension_patterns. cbn [first_search].
  destruct (search true (triple_re sep_x) info) as [m1|] eqn:E1.
  - intros [= <-]. apply search_sound in E1 as (s0 & s' & H & _).
    now apply triple_groups in H.
  - destruct (search true (triple_re sep_times_x) info) as [m2|] eqn:E2;
      [|discriminate].
    intros [= <-]. apply search_sound in E2 as (s0 & s' & H & _).
    now apply triple_groups in H.
Qed.

Lemma weight_groups (info : string) (m : match_obj) :
  search true weight_re info = Some m ->
  exists d u, decimal d = true /\ m_groups m = [(2, u); (1, d)].
Proof.
  intros H. apply search_sound in H as (s0 & s' & H & _).
  unfold weight_re in H.
  apply seq_inv in H as (s1 & c1 & Hn & H).
  apply matches_number in Hn as (d & Hd & _ & ->).
  apply seq_inv in H as (s2 & c2 & Hw & H).
  apply matches_no_groups in Hw as ->; [|reflexivity].
  apply grp_inv in H as (c3 & H & ->).
  apply matches_no_groups in H as ->; [|reflexivity].
  eauto.
Qed.

End InversionFacts.

Section NonNegFacts.
Import AmazonSpider.

Lemma digits_val_nonneg (s : string) :
  forall acc, (0 <= acc)%Z -> (0 <= Num.digits_val acc s)%Z.
Proof.
  induction s as [|b s IH]; intros acc H; [exact H|].
  cbn [Num.digits_val]. apply IH. unfold Num.digit_val. lia.
Qed.

Lemma py_float_nonneg (s : string) (v : Q) :
  Num.py_float s = Ok v -> (0 <= v)%Q.
Proof.
  unfold Num.py_float. destruct (Num.split_point s) as [i f].
  destruct (_ && _); [|discriminate]. intros [= <-].
  rewrite Qred_correct. unfold Qle. cbn.
  pose proof (digits_val_nonneg
                (i ++ match f with Some x => x | None => "" end) 0).
  lia.
Qed.

Lemma multiplier_nonneg (info : string) : (0 <= multiplier info)%Q.
Proof.
  unfold multiplier.
  destruct (Text.contains "mm" _); [easy|].
  destruct (Text.contains "inches" _); easy.
Qed.

Lemma to_kg_nonneg (w : Q) (unit : string) :
  (0 <= w)%Q -> (0 <= to_kg w unit)%Q.
Proof.
  intros H. unfold to_kg.
  destruct (_ || _); [apply Qmult_le_0_compat; easy|].
  destruct (String.prefix "g" unit); [apply Qmult_le_0_compat; easy|].
  exact H.
Qed.

Lemma py_round2_nonneg (q : Q) : (0 <= q)%Q -> (0 <= Num.py_round2 q)%Q.
Proof. apply (py_round_ge 2 q 0). Qed.

Lemma scaled_decimal (d : string) (mult : Q) :
  decimal d = true -> (0 <= mult)%Q ->
  exists v, scaled d mult = Ok v /\ (0 <= v)%Q.
Proof.
  intros Hd Hm. destruct (py_float_decimal d Hd) as [x Hx].
  unfold scaled. rewrite Hx. cbn [bind]. eexists. split; [reflexivity|].
  apply py_round2_nonneg, Qmult_le_0_compat; [|exact Hm].
  eapply py_float_nonneg, Hx.
Qed.

End NonNegFacts.

(** X8. The dimensions extractor is total: for every specification table
    it returns a record, never an exception, and the four values of the
    record are non-negative. *)
Theorem dimensions_extractor_total (specs : spec_table) :
  exists d : AmazonSpider.dimensions_info,
    AmazonSpider._extract_dimensions_info specs = Ok d
    /\ (0 <= AmazonSpider.d_length d)%Q
    /\ (0 <= AmazonSpider.d_width d)%Q
    /\ (0 <= AmazonSpider.d_height d)%Q
    /\ (0 <= AmazonSpider.d_weight d)%Q.
Proof.
  unfold AmazonSpider._extract_dimensions_info.
  set (info := first_present AmazonSpider.dimension_keys specs).
  set (winfo := first_present AmazonSpider.weight_keys specs).
  assert (Hz : (0 <= 0)%Q) by easy.
  destruct (Text.nonempty info);
    [destruct (AmazonSpider.first_search _ info) as [m|] eqn:E|].
  1: { apply first_search_dimension_groups in E
         as (d1 & d2 & d3 & H1 & H2 & H3 & ->).
       cbn [Re.group Nat.eqb]. cbv zeta.
       destruct (scaled_decimal d1 _ H1 (multiplier_nonneg info))
         as (l & -> & Hl).
       destruct (scaled_decimal d2 _ H2 (multiplier_nonneg info))
         as (w & -> & Hw).
       destruct (scaled_decimal d3 _ H3 (multiplier_nonneg info))
         as (h & -> & Hh).
       cbn [bind].
       destruct (Text.nonempty winfo);
         [destruct (Re.search true AmazonSpider.weight_re winfo)
            as [mw|] eqn:Ew|].
       1: { apply weight_groups in Ew as (d & u & Hd & ->).
            cbn [Re.group Nat.eqb].
            destruct (py_float_decimal d Hd) as [x Hx]. rewrite Hx.
            cbn [bind]. eexists. split; [reflexivity|]. cbn.
            repeat split; try assumption.
            apply py_round2_nonneg, to_kg_nonneg.
            eapply py_float_nonneg, Hx. }
       all: cbn [bind]; eexists; (split; [reflexivity|]); cbn; auto. }
  all: cbn [bind];
    (destruct (Text.nonempty winfo);
     [destruct (Re.search true AmazonSpider.weight_re winfo)
        as [mw|] eqn:Ew|]);
    [ apply weight_groups in Ew as (d & u & Hd & ->);
      cbn [Re.group Nat.eqb];
      destruct (py_float_decimal d Hd) as [x Hx]; rewrite Hx;
      cbn [bind]; eexists; (split; [reflexivity|]); cbn;
      repeat split; try assumption;
      apply py_round2_nonneg, to_kg_nonneg;
      eapply py_float_nonneg, Hx
    | cbn [bind]; eexists; (split; [reflexivity|]); cbn; auto .. ].
Qed.

(** ** The dimensions extractor: conversion to centimeters *)

Section RoundExact.



End RoundExact.

Section UnitMatch.
Import Re AmazonSpider.
Context {A : Type}.









End UnitMatch.

Section TripleAnywhere.
Import Re AmazonSpider.










End TripleAnywhere.

Section FieldFactor.
Import AmazonSpider.










End FieldFactor.




Section ShapeFacts.
Import Re AmazonSpider.

(** The first group of a pattern that starts with [(\d+)] and has no
    other group. *)
Lemma digits_then_groups icase (rest : regex) (info : string)
      (m : match_obj) :
  no_groups rest = true ->
  search icase (Seq (Grp 1 (Plus digit)) rest) info = Some m ->
  digits (group 1 (m_groups m)).
Proof.
  intros Hrest H. apply search_sound in H as (s0 & s' & H & _).
  apply seq_inv in H as (s1 & c1 & Hg & H).
  apply matches_digits_group in Hg as (d & Hd & Hne & _ & ->).
  apply matches_no_groups in H as ->; [|exact Hrest].
  cbn [group Nat.eqb]. now split.
Qed.

Lemma first_match_table {B : Type} (test : B -> bool) (table : list B)
      (pick : B -> string) :
  match first_match test table with
  | Some x => pick x
  | None => ""
  end ∈ "" :: map pick table.
Proof.
  unfold first_match. destruct (List.find test table) as [x|] eqn:E.
  - apply find_some in E as [Hin _]. right.
    apply list_elem_of_In, in_map, Hin.
  - left.
Qed.

Lemma ram_type_of_values (info : string) :
  ram_type_of info ∈ [""; "DDR4"; "DDR5"].
Proof.
  unfold ram_type_of, first_match, ram_types. cbn [List.find].
  destruct (Text.contains "DDR4" info) eqn:E4; [right; left|].
  destruct (Text.contains "DDR5" info) eqn:E5; [do 2 right; left|].
  destruct (Text.contains "LPDDR4" info) eqn:L4.
  { apply (contains_inner "LP" "DDR4" "") in L4. congruence. }
  destruct (Text.contains "LPDDR4X" info) eqn:L4X.
  { apply (contains_inner "LP" "DDR4" "X") in L4X. congruence. }
  destruct (Text.contains "LPDDR5" info) eqn:L5.
  { apply (contains_inner "LP" "DDR5" "") in L5. congruence. }
  left.
Qed.

End ShapeFacts.

(** X9. The shape of what the RAM extractor returns: the size is empty or
    a run of digits followed by "GB", the speed is empty or a run of
    digits followed by "MHz" (both with the unit spelled this way
    whatever its case in the text), and the type is empty, "DDR4" or
    "DDR5": the entries LPDDR4, LPDDR4X and LPDDR5 of the table are never
    returned. *)
Theorem ram_extractor_shape (specs : spec_table) :
  let r := AmazonSpider._extract_ram_info specs in
  empty_or_digits_then "GB" (AmazonSpider.r_size r)
  /\ AmazonSpider.r_type r ∈ [""; "DDR4"; "DDR5"]
  /\ empty_or_digits_then "MHz" (AmazonSpider.r_speed r).
Proof.
  cbv zeta. unfold AmazonSpider._extract_ram_info.
  destruct (Text.nonempty _).
  - cbn [AmazonSpider.r_size AmazonSpider.r_type AmazonSpider.r_speed].
    split; [|split; [apply ram_type_of_values|]].
    + destruct (Re.search true AmazonSpider.ram_size_re _) as [m|] eqn:E;
        [|now left].
      right. eexists. split; [|reflexivity].
      eapply digits_then_groups; [|exact E]. reflexivity.
    + destruct (Re.search true AmazonSpider.ram_speed_re _) as [m|] eqn:E;
        [|now left].
      right. eexists. split; [|reflexivity].
      eapply digits_then_groups; [|exact E]. reflexivity.
  - cbn. split; [now left|]. split; [left | now left].
Qed.

(** X10. The processor extractor can only fail with [ValueError], and a
    record it returns has its brand and model taken from the tables (or
    empty), a generation that is empty or a run of digits followed by
    "th Gen" whatever ordinal suffix the text had, and a core count that
    is empty or a run of digits. *)
Theorem processor_extractor_shape (specs : spec_table) :
  match AmazonSpider._extract_processor_info specs with
  | Ok r =>
      AmazonSpider.p_brand r ∈ [""; "Intel"; "AMD"; "Apple"]
      /\ AmazonSpider.p_model r
         ∈ [""; "Core i3"; "Core i5"; "Core i7"; "Core i9"; "Ryzen";
            "Celeron"; "Pentium"]
      /\ empty_or_digits_then "th Gen" (AmazonSpider.p_generation r)
      /\ (AmazonSpider.p_cores r = "" \/ digits (AmazonSpider.p_cores r))
  | Raise e => e = ValueError
  end.
Proof.
  unfold AmazonSpider._extract_processor_info.
  set (info := first_present AmazonSpider.processor_keys specs).
  destruct (Text.nonempty info).
  - assert (He : match AmazonSpider.extract_speed info with
                 | Ok _ => True
                 | Raise e => e = ValueError
                 end).
    { unfold AmazonSpider.extract_speed.
      destruct (Re.search true AmazonSpider.speed_re info) as [m|]; [|exact I].
      unfold Num.py_float. destruct (Num.split_point _) as [i f].
      now destruct (_ && _). }
    destruct (AmazonSpider.extract_speed info) as [sp|e]; cbn [bind];
      [|exact He].
    cbn [AmazonSpider.p_brand AmazonSpider.p_model AmazonSpider.p_generation
         AmazonSpider.p_cores].
    split; [|split; [|split]].
    + apply (first_match_table _ AmazonSpider.processor_brands (fun b => b)).
    + apply (first_match_table _ AmazonSpider.cpu_models snd).
    + destruct (Re.search true AmazonSpider.gen_re info) as [m|] eqn:E;
        [|now left].
      right. eexists. split; [|reflexivity].
      eapply digits_then_groups; [|exact E]. reflexivity.
    + destruct (Re.search true AmazonSpider.cores_re info) as [m|] eqn:E;
        [|now left].
      right. eapply digits_then_groups; [|exact E]. reflexivity.
  - cbn. repeat split; now left.
Qed.

(** ** The storage and display extractors *)

Section StorageFacts.
Import Re AmazonSpider.

Lemma finditer_from_sound icase r (fuel : nat) :
  forall pos s m,
    m ∈ finditer_from icase r fuel pos s ->
    exists s0 s', matches icase r s0 [] s' (m_groups m)
                  /\ m_text m = consumed s0 s'.
Proof.
  induction fuel as [|fuel IH]; intros pos s m; cbn [finditer_from].
  - intros H. now apply elem_of_nil in H.
  - destruct (search_from icase r pos s) as [m0|] eqn:E.
    + intros [->|H]%elem_of_cons.
      * now apply search_from_sound in E.
      * destruct (m_rest m0) as [|b rest]; [now apply elem_of_nil in H|].
        destruct (Text.nonempty (m_text m0)); now apply IH in H.
    + intros H. now apply elem_of_nil in H.
Qed.

Lemma storage_match_digits (name : string) (info : string) (m : match_obj) :
  name ∈ storage_names ->
  m ∈ finditer true (storage_re name) info ->
  digits (group 1 (m_groups m)).
Proof.
  intros Hname H. apply finditer_from_sound in H as (s0 & s' & H & _).
  unfold storage_re in H.
  apply seq_inv in H as (s1 & c1 & Hg & H).
  apply matches_digits_group in Hg as (d & Hd & Hne & _ & ->).
  apply matches_no_groups in H as ->.
  - cbn [group Nat.eqb]. now split.
  - unfold storage_names in Hname.
    repeat (apply elem_of_cons in Hname as [->|Hname]; [reflexivity|]).
    now apply elem_of_nil in Hname.
Qed.

Lemma capacity_of_shape (m : match_obj) :
  digits (group 1 (m_groups m)) -> capacity_shape (capacity_of m).
Proof.
  intros H. exists (group 1 (m_groups m)). split; [exact H|].
  unfold capacity_of. destruct (Text.contains "TB" (m_text m)); auto.
Qed.

Lemma storage_matches_ok (name : string) (ms : list match_obj) :
  name ∈ storage_names ->
  (forall m, m ∈ ms -> digits (group 1 (m_groups m))) ->
  forall st, storage_ok st -> storage_ok (storage_matches name ms st).
Proof.
  intros Hname. induction ms as [|m ms IH]; intros Hms [r found] Hst;
    [exact Hst|].
  assert (Hm : capacity_shape (capacity_of m))
    by (apply capacity_of_shape, Hms; left).
  cbn [storage_matches]. destruct found.
  - destruct Hst as (Hp & Hpc & _). unfold storage_ok. cbn. auto.
  - apply IH; [intros m' H'; apply Hms; now right|].
    unfold storage_ok in Hst |- *. cbn in Hst |- *. subst r. cbn. auto.
Qed.

Lemma storage_fold_ok (info : string) (types : list (string * regex)) :
  (forall tp, tp ∈ types ->
              fst tp ∈ storage_names /\ snd tp = storage_re (fst tp)) ->
  forall st, storage_ok st ->
    storage_ok (fold_left
                  (fun st tp => storage_matches (fst tp)
                                  (finditer true (snd tp) info) st)
                  types st).
Proof.
  induction types as [|tp types IH]; intros Htypes st Hst; [exact Hst|].
  cbn [fold_left]. apply IH; [intros tp' H'; apply Htypes; now right|].
  destruct (Htypes tp) as [Hn Hr]; [left|].
  apply storage_matches_ok; [exact Hn| |exact Hst].
  intros m Hm. rewrite Hr in Hm. now apply storage_match_digits in Hm.
Qed.

Lemma storage_types_table (tp : string * regex) :
  tp ∈ storage_types ->
  fst tp ∈ storage_names /\ snd tp = storage_re (fst tp).
Proof.
  unfold storage_types, storage_names. intros H.
  repeat (apply elem_of_cons in H as [->|H];
          [split; [cbn; set_solver | reflexivity]|]).
  now apply elem_of_nil in H.
Qed.

Lemma display_type_of_values (info : string) :
  display_type_of info ∈ [""; "IPS"; "OLED"; "LED"; "LCD"; "VA"; "TN"].
Proof.
  unfold display_type_of, first_match, display_types. cbn [List.find].
  destruct (Text.contains "IPS" info); [set_solver|].
  destruct (Text.contains "OLED" info); [set_solver|].
  destruct (Text.contains "LED" info) eqn:EL; [set_solver|].
  destruct (Text.contains "LCD" info); [set_solver|].
  destruct (Text.contains "Mini LED" info) eqn:EM.
  { apply (contains_inner "Mini " "LED" "") in EM. congruence. }
  destruct (Text.contains "VA" info); [set_solver|].
  destruct (Text.contains "TN" info); set_solver.
Qed.

Lemma display_size_group (info : string) (m : match_obj) :
  search true display_size_re info = Some m ->
  decimal (group 1 (m_groups m)) = true.
Proof.
  intros H. apply search_sound in H as (s0 & s' & H & _).
  unfold display_size_re in H.
  apply seq_inv in H as (s1 & c1 & Hn & H).
  apply matches_number in Hn as (d & Hd & _ & ->).
  apply matches_no_groups in H as ->; [|reflexivity].
  exact Hd.
Qed.

End StorageFacts.

(** X11. The storage extractor never reports a secondary drive without a
    primary one: its result is either entirely empty, or has a primary
    type from the table with a capacity made of digits and "GB" or "TB",
    and a secondary that is either entirely empty or of the same
    shape. *)
Theorem storage_extractor_shape (specs : spec_table) :
  let r := AmazonSpider._extract_storage_info specs in
  r = AmazonSpider.MkStorage "" "" "" ""
  \/ (AmazonSpider.s_primary_type r ∈ storage_names
      /\ capacity_shape (AmazonSpider.s_primary_capacity r)
      /\ ((AmazonSpider.s_secondary_type r = ""
           /\ AmazonSpider.s_secondary_capacity r = "")
          \/ (AmazonSpider.s_secondary_type r ∈ storage_names
              /\ capacity_shape (AmazonSpider.s_secondary_capacity r)))).
Proof.
  cbv zeta. unfold AmazonSpider._extract_storage_info.
  destruct (Text.nonempty _); [|now left].
  pose proof (storage_fold_ok
                (first_present AmazonSpider.storage_keys specs)
                AmazonSpider.storage_types storage_types_table
                (AmazonSpider.MkStorage "" "" "" "", false) eq_refl) as H.
  destruct (fold_left _ _ _) as [r found]. unfold storage_ok in H.
  cbn [fst snd] in H |- *. destruct found; [now right | now left].
Qed.

(** X12. The shape of what the display extractor returns: the size is
    empty or a decimal numeral followed by " inches", the refresh rate
    empty or digits followed by "Hz", the brightness empty or digits
    followed by " nits", and the type is empty or one of IPS, OLED, LED,
    LCD, VA, TN: the table entry "Mini LED" is never returned, "LED"
    being tried before it. *)
Theorem display_extractor_shape (specs : spec_table) :
  let r := AmazonSpider._extract_display_info specs in
  (AmazonSpider.v_size r = ""
   \/ exists d, decimal d = true
                /\ AmazonSpider.v_size r = (d ++ " inches")%string)
  /\ AmazonSpider.v_type r ∈ [""; "IPS"; "OLED"; "LED"; "LCD"; "VA"; "TN"]
  /\ empty_or_digits_then "Hz" (AmazonSpider.v_refresh_rate r)
  /\ empty_or_digits_then " nits" (AmazonSpider.v_nits r).
Proof.
  cbv zeta. unfold AmazonSpider._extract_display_info.
  destruct (Text.nonempty _).
  - cbn [AmazonSpider.v_size AmazonSpider.v_type
         AmazonSpider.v_refresh_rate AmazonSpider.v_nits].
    split; [|split; [apply display_type_of_values|split]].
    + destruct (Re.search true AmazonSpider.display_size_re _) as [m|] eqn:E;
        [|now left].
      right. eexists. split; [|reflexivity]. now apply display_size_group in E.
    + destruct (Re.search false AmazonSpider.refresh_re _) as [m|] eqn:E;
        [|now left].
      right. eexists. split; [|reflexivity].
      eapply digits_then_groups; [|exact E]. reflexivity.
    + destruct (Re.search true AmazonSpider.nits_re _) as [m|] eqn:E;
        [|now left].
      right. eexists. split; [|reflexivity].
      eapply digits_then_groups; [|exact E]. reflexivity.
  - cbn. split; [now left|]. split; [left|]. split; now left.
Qed.

(** ** The brand *)

Section BrandFacts.
Import Text AmazonSpider.

Lemma brand_in_some (text brand : string) :
  brand_in text = Some brand -> brand ∈ common_brands.
Proof.
  unfold brand_in, first_match. intros H.
  apply find_some in H as [H _]. now apply list_elem_of_In.
Qed.

Lemma brand_in_none (text : string) :
  brand_in text = None -> mentions_no_brand text.
Proof.
  unfold brand_in, first_match, mentions_no_brand. intros H brand Hb.
  apply (find_none _ _ H). now apply list_elem_of_In.
Qed.

Lemma brand_from_specs_some (keys : list string) (specs : spec_table)
      (brand : string) :
  brand_from_specs keys specs = Some brand -> brand ∈ common_brands.
Proof.
  induction keys as [|key keys IH]; cbn [brand_from_specs]; [discriminate|].
  destruct (specs !! key) as [v|]; [|exact IH].
  destruct (brand_in (Text.strip v)) as [b|] eqn:E; [|exact IH].
  intros [= <-]. now apply brand_in_some in E.
Qed.

Lemma brand_from_specs_none (keys : list string) (specs : spec_table) :
  brand_from_specs keys specs = None ->
  forall key v, key ∈ keys -> specs !! key = Some v ->
                mentions_no_brand (Text.strip v).
Proof.
  induction keys as [|k keys IH]; cbn [brand_from_specs]; intros H key v Hk Hv.
  - now apply elem_of_nil in Hk.
  - apply elem_of_cons in Hk as [->|Hk].
    + rewrite Hv in H. destruct (brand_in (Text.strip v)) eqn:E;
        [discriminate|]. now apply brand_in_none.
    + destruct (specs !! k) as [w|]; [|now apply (IH H key v)].
      destruct (brand_in (Text.strip w)); [discriminate|].
      now apply (IH H key v).
Qed.

End BrandFacts.

(** X13. The brand is one of the known brands, or it is "Unknown", and
    then no known brand occurs, whatever the case of the letters, in
    the title or in any of the fields brand, brand_name and
    manufacturer. *)
Theorem brand_known_or_absent (title : string) (specs : spec_table) :
  let brand := AmazonSpider._extract_brand title specs in
  brand ∈ AmazonSpider.common_brands
  \/ (brand = "Unknown"
      /\ mentions_no_brand title
      /\ forall key v, key ∈ AmazonSpider.brand_keys ->
                       specs !! key = Some v ->
                       mentions_no_brand (Text.strip v)).
Proof.
  cbv zeta. unfold AmazonSpider._extract_brand.
  destruct (AmazonSpider.brand_from_specs _ specs) as [b|] eqn:Es.
  - left. now apply brand_from_specs_some in Es.
  - destruct (AmazonSpider.brand_in title) as [b|] eqn:Et.
    + left. now apply brand_in_some in Et.
    + right. split; [reflexivity|]. split; [now apply brand_in_none|].
      now apply brand_from_specs_none.
Qed.

Section LinkFacts.
Import Text AmazonSpider.

(** A text without the first character of the separator is one piece. *)
Lemma split_go_plain (x : ascii) (sep s : string) :
  has_char x s = false ->
  forall cur, split_go (String x sep) 0 cur s = [(cur ++ s)%string].
Proof.
  induction s as [|c s IH]; intros H cur.
  - cbn [split_go]. now rewrite append_empty_r.
  - cbn [has_char] in H. apply orb_false_iff in H as [Hc Hs].
    cbn [split_go String.prefix].
    destruct (ascii_dec x c) as [->|_].
    + now rewrite Ascii.eqb_refl in Hc.
    + rewrite (IH Hs). now rewrite append_assoc.
Qed.

Lemma split_product_url (asin : string) :
  has_char "/" asin = false ->
  split "/dp/" (product_url asin) = ["https://www.amazon.in"; asin].
Proof.
  intros H. unfold split, product_url.
  rewrite !append_cons, append_empty.
  cbn [split_go String.prefix ascii_dec ascii_rec ascii_rect bool_dec
       bool_rec bool_rect sumbool_rec sumbool_rect String.length Nat.sub].
  replace (String.prefix "" asin) with true by now destruct asin.
  rewrite (split_go_plain "/" "dp/" asin H). reflexivity.
Qed.

Lemma product_id_round_trip_plain (asin : string) :
  has_char "/" asin = false -> product_id_of (product_url asin) = asin.
Proof.
  intros H. unfold product_id_of. rewrite (split_product_url asin H).
  cbn [List.last]. unfold split. now rewrite (split_go_plain "/" "" asin H).
Qed.

Lemma firstn_elem {B : Type} (n : nat) (l : list B) (x : B) :
  x ∈ firstn n l -> In x l.
Proof.
  intros (i & H & _)%elem_of_take. apply list_elem_of_In.
  now apply list_elem_of_lookup_2 in H.
Qed.

End LinkFacts.

(** X14. A listing page gives at most ten links, each of them the
    [/dp/] address of a [data-asin] value of the page that is not
    blank. *)
Theorem product_links_bounded (asins : list string) :
  length (AmazonSpider.extract_product_links asins) <= 10
  /\ forall link, link ∈ AmazonSpider.extract_product_links asins ->
       exists asin, asin ∈ asins /\ not_blank asin = true
                    /\ link = AmazonSpider.product_url asin.
Proof.
  unfold AmazonSpider.extract_product_links. split.
  - rewrite length_firstn. lia.
  - intros link H. apply firstn_elem in H.
    apply in_map_iff in H as (asin & <- & H).
    apply filter_In in H as [H Hb]. exists asin.
    apply andb_true_iff in Hb as [_ Hb].
    split; [now apply list_elem_of_In|]. now split.
Qed.

(** X15. Links and product ids fit together: when no [data-asin] value
    of the page has a slash, the product id that the detail-page parser
    cuts out of a link is that value again, and the record validator
    accepts it, storing it trimmed. *)
Theorem product_links_give_valid_ids (asins : list string)
        (Hplain : forall asin, asin ∈ asins -> has_char "/" asin = false) :
  forall link, link ∈ AmazonSpider.extract_product_links asins ->
    exists asin, asin ∈ asins
      /\ AmazonSpider.product_id_of link = asin
      /\ Models.validate_product_id (AmazonSpider.product_id_of link)
         = Ok (Text.strip asin).
Proof.
  intros link H. unfold AmazonSpider.extract_product_links in H.
  apply firstn_elem in H.
  apply in_map_iff in H as (asin & <- & H).
  apply filter_In in H as [H Hb]. apply andb_true_iff in Hb as [_ Hb].
  apply list_elem_of_In in H. exists asin. split; [exact H|].
  rewrite (product_id_round_trip_plain asin (Hplain asin H)).
  split; [reflexivity|]. unfold Models.validate_product_id.
  now rewrite Hb.
Qed.

Lemma product_links_give_valid_ids_witness :
  exists asin, asin ∈ ["B0C1"; " "; "B0D2 "]
    /\ AmazonSpider.product_id_of "https://www.amazon.in/dp/B0D2 " = asin
    /\ Models.validate_product_id
         (AmazonSpider.product_id_of "https://www.amazon.in/dp/B0D2 ")
       = Ok (Text.strip asin).
Proof.
  apply (product_links_give_valid_ids ["B0C1"; " "; "B0D2 "]).
  - intros asin H.
    repeat (apply elem_of_cons in H as [->|H]; [reflexivity|]).
    now apply elem_of_nil in H.
  - apply list_elem_of_In. vm_compute. right. left. reflexivity.
Defined.

(** ** The price parsers *)

Section ParserFacts.

Lemma filter_point_free (s : string) :
  has_char "." s = false ->
  strip_non_numeric s = Text.filter_chars Text.is_digit s.
Proof.
  unfold strip_non_numeric. induction s as [|c s IH]; [reflexivity|].
  cbn [has_char Text.filter_chars]. intros H.
  apply orb_false_iff in H as [Hc Hs]. unfold AmazonSpider.digit_or_point at 1.
  rewrite Ascii.eqb_sym, Hc, orb_false_r, (IH Hs). reflexivity.
Qed.

Lemma filter_digits_drop_commas (s : string) :
  Text.filter_chars Text.is_digit (BaseSpider.drop_commas s)
  = Text.filter_chars Text.is_digit s.
Proof.
  unfold BaseSpider.drop_commas. induction s as [|c s IH]; [reflexivity|].
  cbn [Text.filter_chars].
  destruct (Ascii.eqb_spec c ","%char) as [->|_]; cbn [negb].
  - exact IH.
  - cbn [Text.filter_chars]. now rewrite IH.
Qed.

(** [float] of a run of digits raises nothing but [ValueError]. *)
Lemma py_float_digits_cases (s : string) :
  Num.all_digits s = true ->
  (exists n, Num.py_float s = Ok (inject_Z n)) \/ Num.py_float s = Raise ValueError.
Proof.
  intros H. destruct (Text.nonempty s) eqn:E.
  - left. eexists. now apply py_float_digits.
  - right. now destruct s.
Qed.

Lemma py_float_raises_ValueError (s : string) (e : exn) :
  Num.py_float s = Raise e -> e = ValueError.
Proof.
  unfold Num.py_float. destruct (Num.split_point s) as [i f].
  destruct (_ && _); [discriminate|]. now intros [= <-].
Qed.

Lemma filter_no_digit (s : string) :
  no_digit s = true ->
  Text.all_chars (fun c => Ascii.eqb c "."%char) (strip_non_numeric s) = true.
Proof.
  unfold no_digit, strip_non_numeric.
  induction s as [|c s IH]; [reflexivity|].
  cbn [Text.filter_chars]. unfold AmazonSpider.digit_or_point at 1.
  destruct (Text.is_digit c); [discriminate|]. cbn [orb]. intros H.
  destruct (Ascii.eqb c "."%char) eqn:E; [|now apply IH].
  cbn [Text.all_chars]. now rewrite E, IH.
Qed.

Lemma py_float_points (s : string) :
  Text.all_chars (fun c => Ascii.eqb c "."%char) s = true ->
  Num.py_float s = Raise ValueError.
Proof.
  unfold Num.py_float. destruct s as [|c s]; [reflexivity|].
  cbn [Text.all_chars Num.split_point]. intros H.
  apply andb_true_iff in H as [-> H]. rewrite append_empty.
  destruct s as [|d s]; [reflexivity|].
  cbn [Text.all_chars] in H. apply andb_true_iff in H as [Hd _].
  apply Ascii.eqb_eq in Hd as ->. reflexivity.
Qed.

End ParserFacts.

(** X16. [parse_price] never raises and never gives a negative price,
    whatever the text, so that the record validator accepts its result;
    a text without any digit gives 0. *)
Theorem parse_price_total (text : string) :
  exists v, Helpers.parse_price text = Ok v
            /\ (0 <= v)%Q
            /\ Models.validate_price v = Ok (Num.py_round 2 v)
            /\ (no_digit text = true -> v = 0%Q).
Proof.
  unfold Helpers.parse_price.
  destruct (Num.py_float (strip_non_numeric text)) as [v|e] eqn:E.
  - exists v. cbn [try_except].
    assert (Hv : (0 <= v)%Q) by now apply py_float_nonneg in E.
    split; [reflexivity|]. split; [exact Hv|]. split.
    + pose proof (validate_price_spec v) as H.
      destruct (Models.validate_price v) as [p|e'].
      * now destruct H as (_ & -> & _).
      * destruct H as [_ H]. exfalso. now apply (Qlt_not_le _ _ H).
    + intros H%filter_no_digit%py_float_points. congruence.
  - apply py_float_raises_ValueError in E as ->. exists 0%Q.
    cbn. repeat split; try reflexivity. discriminate.
Qed.

(** X17. On an ASCII text without a decimal point the three price
    parsers agree: [parse_price], [DataCleaner.clean_price] and the
    spiders' [_extract_price] give the same number. *)
Theorem price_parsers_agree (text : string)
        (Hascii : ascii_text text = true)
        (Hpoint : has_char "." text = false) :
  Helpers.parse_price text = BaseSpider._extract_price text
  /\ DataCleaner.clean_price text = BaseSpider._extract_price text.
Proof.
  assert (H : Helpers.parse_price text = BaseSpider._extract_price text).
  { unfold Helpers.parse_price, BaseSpider._extract_price.
    rewrite (filter_point_free text Hpoint), filter_digits_drop_commas.
    destruct (py_float_digits_cases (Text.filter_chars Text.is_digit text))
      as [[n ->]| ->]; [apply filter_digits_all_digits| |]; reflexivity. }
  split; [exact H|]. exact H.
Qed.

Lemma price_parsers_agree_witness :
  Helpers.parse_price "Rs 54,990" = BaseSpider._extract_price "Rs 54,990"
  /\ DataCleaner.clean_price "Rs 54,990"
     = BaseSpider._extract_price "Rs 54,990".
Proof. apply (price_parsers_agree "Rs 54,990"); reflexivity. Defined.

(** ** Prices of a page *)

Section PagePriceFacts.
Import BaseSpider.

Lemma extract_price_nonneg (text : string) :
  exists v, _extract_price text = Ok v /\ (0 <= v)%Q.
Proof.
  unfold _extract_price.
  destruct (Num.py_float _) as [v|e] eqn:E; cbn [try_except].
  - exists v. split; [reflexivity|]. now apply py_float_nonneg in E.
  - apply py_float_raises_ValueError in E as ->. exists 0%Q.
    split; [reflexivity|]. apply Qle_refl.
Qed.

Lemma first_price_nonneg (selectors : list string) (page : soup) :
  exists v, first_price selectors page = Ok v /\ (0 <= v)%Q.
Proof.
  induction selectors as [|sel rest IH]; cbn [first_price].
  - exists 0%Q. split; [reflexivity | apply Qle_refl].
  - destruct (page sel); [apply extract_price_nonneg | exact IH].
Qed.

Lemma first_listed_price_cases (selectors : list string) (page : soup) :
  (first_listed_price selectors page = Ok None
   /\ forall sel, sel ∈ selectors -> page sel = None)
  \/ exists v, first_listed_price selectors page = Ok (Some v) /\ (0 <= v)%Q
               /\ exists sel, sel ∈ selectors /\ page sel <> None.
Proof.
  induction selectors as [|sel rest IH]; cbn [first_listed_price].
  - left. split; [reflexivity|]. intros sel H. now apply elem_of_nil in H.
  - destruct (page sel) as [text|] eqn:E.
    + right. destruct (extract_price_nonneg text) as (v & -> & Hv).
      exists v. split; [reflexivity|]. split; [exact Hv|].
      exists sel. split; [left | congruence].
    + destruct IH as [[-> IH]|(v & -> & Hv & s & Hs & Hp)]; [left | right].
      * split; [reflexivity|]. intros s [->|H]%elem_of_cons; auto.
      * exists v. split; [reflexivity|]. split; [exact Hv|].
        exists s. split; [now right | exact Hp].
Qed.

Lemma validate_price_nonneg (v : Q) :
  (0 <= v)%Q -> Models.validate_price v = Ok (Num.py_round 2 v).
Proof.
  intros Hv. pose proof (validate_price_spec v) as H.
  destruct (Models.validate_price v) as [p|e'].
  - now destruct H as (_ & -> & _).
  - destruct H as [_ H]. exfalso. now apply (Qlt_not_le _ _ H).
Qed.

End PagePriceFacts.

(** X18. The prices of a detail page always pass validation: whatever the
    page, both prices are computed without an exception and are not
    negative.  The original price falls back to the current price when
    the page has no struck-out price or one that reads as 0, so that it
    is 0 only if the current price is 0 too. *)
Theorem page_prices_accepted (page : BaseSpider.soup) :
  exists current original,
    BaseSpider.page_prices page = Ok (current, original)
    /\ Models.validate_price current = Ok (Num.py_round 2 current)
    /\ Models.validate_price original = Ok (Num.py_round 2 original)
    /\ (original == 0 -> current == 0)%Q
    /\ (no_listed_price page -> original = current).
Proof.
  unfold BaseSpider.page_prices, BaseSpider._extract_current_price,
    BaseSpider._extract_original_price.
  destruct (first_price_nonneg BaseSpider.price_selectors page)
    as (cur & -> & Hcur).
  cbn [bind].
  destruct (first_listed_price_cases BaseSpider.original_price_selectors page)
    as [[-> Hnone]|(v & -> & Hv & sel & Hsel & Hp)];
    cbn [bind BaseSpider.or_else].
  - exists cur, cur. repeat split; auto using validate_price_nonneg.
  - destruct (Qeq_bool v 0) eqn:E.
    + exists cur, cur. repeat split; auto using validate_price_nonneg.
    + exists cur, v. repeat split; auto using validate_price_nonneg.
      * intros H%Qeq_bool_iff. congruence.
      * intros Hno. now rewrite (Hno sel Hsel) in Hp.
Qed.

(** ** Pagination *)

Section PaginationFacts.
Import BaseSpider.

Lemma pagination_loop_links (links_of_page : nat -> result (list string))
      (link : string) (remaining : nat) :
  forall page all_links,
    link ∈ pagination_loop links_of_page page remaining all_links
    <-> link ∈ all_links
        \/ exists p links,
             page <= p < page + remaining
             /\ links_of_page p = Ok links /\ link ∈ links
             /\ forall q, page <= q < p ->
                  exists l ls, links_of_page q = Ok (l :: ls).
Proof.
  induction remaining as [|remaining IH]; intros page all_links;
    cbn [pagination_loop].
  - split; [now left|]. intros [H|(p & _ & Hp & _)]; [exact H | lia].
  - destruct (links_of_page page) as [[|l ls]|e] eqn:E.
    + split; [now left|]. intros [H|(p & links & Hp & Hl & Hin & Hq)];
        [exact H|].
      destruct (decide (p = page)) as [->|Hne].
      * rewrite E in Hl. injection Hl as <-. now apply elem_of_nil in Hin.
      * destruct (Hq page) as (l & ls & Hq'); [lia|]. congruence.
    + rewrite IH, elem_of_app. split.
      * intros [[H|H]|(p & links & Hp & Hl & Hin & Hq)].
        -- now left.
        -- right. exists page, (l :: ls). repeat split; try lia; auto.
        -- right. exists p, links. repeat split; try lia; auto.
           intros q Hq'. destruct (decide (q = page)) as [->|Hne].
           ++ now exists l, ls.
           ++ apply Hq. lia.
      * intros [H|(p & links & Hp & Hl & Hin & Hq)]; [now left; left|].
        destruct (decide (p = page)) as [->|Hne].
        -- rewrite E in Hl. injection Hl as <-. left. now right.
        -- right. exists p, links. repeat split; try lia; auto.
           intros q Hq'. apply Hq. lia.
    + split; [now left|]. intros [H|(p & links & Hp & Hl & Hin & Hq)];
        [exact H|].
      destruct (decide (p = page)) as [->|Hne]; [congruence|].
      destruct (Hq page) as (l & ls & Hq'); [lia|]. congruence.
Qed.

End PaginationFacts.

(** X19. Pagination returns every link once.  A link is returned exactly
    when it is on one of the pages 1 to [max_pages] and every page
    before that one gave at least one link: the first page that is
    empty, or fails, ends the walk, and nothing behind it is read. *)
Theorem pagination_links (links_of_page : nat -> result (list string))
        (max_pages : nat) :
  NoDup (BaseSpider._process_pagination links_of_page max_pages)
  /\ forall link,
       link ∈ BaseSpider._process_pagination links_of_page max_pages
       <-> exists p links,
             1 <= p <= max_pages
             /\ links_of_page p = Ok links /\ link ∈ links
             /\ pages_before links_of_page p.
Proof.
  unfold BaseSpider._process_pagination. split; [apply NoDup_elements|].
  intros link. rewrite elem_of_elements, elem_of_list_to_set.
  rewrite pagination_loop_links. unfold pages_before. split.
  - intros [H|(p & links & Hp & Hl & Hin & Hq)];
      [now apply elem_of_nil in H|].
    exists p, links. repeat split; try lia; auto.
  - intros (p & links & Hp & Hl & Hin & Hq). right.
    exists p, links. repeat split; try lia; auto.
Qed.

(** ** The rate limiter *)

(** X20. Requests to one domain are spaced: with a positive rate, when
    the table holds a time for the domain, [acquire] stores a time at
    least [1 / rate_limit] later, whatever the clock read on entry, and
    leaves the times of all other domains alone. *)
Theorem acquire_spaces_requests (rate_limit : Q)
        (last_request_time : gmap string Q) (domain : string)
        (last current_time lag : Q)
        (Hrate : (0 < rate_limit)%Q) (Hlag : (0 <= lag)%Q)
        (Hlast : last_request_time !! domain = Some last) :
  exists table stored,
    RateLimiter.acquire rate_limit last_request_time domain
                        current_time lag = Some table
    /\ table !! domain = Some stored
    /\ (last + 1 / rate_limit <= stored)%Q
    /\ forall other, other <> domain ->
                     table !! other = last_request_time !! other.
Proof.
  unfold RateLimiter.acquire. rewrite Hlast.
  destruct (Qeq_bool rate_limit 0) eqn:E.
  { apply Qeq_bool_iff in E. rewrite E in Hrate.
    now apply Qlt_irrefl in Hrate. }
  eexists _, _. split; [reflexivity|]. split; [apply lookup_insert_eq|].
  split.
  - unfold RateLimiter.pause. set (d := (1 / rate_limit)%Q).
    destruct (Models.Qltb (current_time - last) d) eqn:El.
    + lra.
    + assert (H : (d <= current_time - last)%Q).
      { apply Qnot_lt_le. intros H%Qltb_lt. congruence. }
      lra.
  - intros other Hne. now apply lookup_insert_ne.
Qed.

Lemma acquire_spaces_requests_witness :
  exists table stored,
    RateLimiter.acquire 1 {[ "www.amazon.in" := 100%Q ]} "www.amazon.in"
                        (1002 # 10) 0 = Some table
    /\ table !! "www.amazon.in" = Some stored
    /\ (100 + 1 / 1 <= stored)%Q
    /\ forall other, other <> "www.amazon.in" ->
         table !! other
         = ({[ "www.amazon.in" := 100%Q ]} : gmap string Q) !! other.
Proof.
  apply (acquire_spaces_requests 1 {[ "www.amazon.in" := 100%Q ]}
           "www.amazon.in" 100 (1002 # 10) 0).
  - reflexivity.
  - discriminate.
  - reflexivity.
Defined.

(** ** The proxy manager *)

Section ProxyFacts.
Import ProxyManager.

Lemma fetched_nothing (answers : list (option value)) :
  concat (map _fetch_proxies answers) = [].
Proof.
  induction answers as [|a answers IH]; [reflexivity|].
  cbn [map concat]. rewrite IH. now destruct a.
Qed.

Lemma get_proxy_none (pick : nat) (answers : option (list (option value)))
      (now : Z) (st : state) :
  proxies st = [] ->
  proxies (fst (get_proxy pick answers now st)) = []
  /\ snd (get_proxy pick answers now st) = None.
Proof.
  intros H. unfold get_proxy. cbn [fst snd].
  assert (Hr : proxies (refresh_proxies answers now st) = []).
  { destruct answers as [answers|]; [apply fetched_nothing | exact H]. }
  destruct (_ || _).
  - now rewrite Hr.
  - now rewrite H.
Qed.

End ProxyFacts.

(** X21. The proxy manager never hands out a proxy: whatever the
    providers answer and whenever it is asked, every call of
    [get_proxy] on a new manager returns [None], since the parser of
    the providers' answers returns no proxy. *)
Theorem get_proxy_always_none
        (calls : list (nat * option (list (option value)) * Z)) :
  Forall (fun proxy => proxy = None)
         (ProxyManager.get_proxies calls ProxyManager.init).
Proof.
  assert (H : ProxyManager.proxies ProxyManager.init = []) by reflexivity.
  revert H. generalize ProxyManager.init as st.
  induction calls as [|[[pick answers] now] calls IH]; intros st H;
    cbn [ProxyManager.get_proxies]; [constructor|].
  destruct (get_proxy_none pick answers now st H) as [H1 H2].
  destruct (ProxyManager.get_proxy pick answers now st) as [st' proxy].
  cbn [fst snd] in H1, H2. constructor; [exact H2 | now apply IH].
Qed.

(** ** Specifications and clean-up *)

(** X22. The specifications record of the Amazon spider is always the
    empty default: whatever the table of the page and whatever the
    graphics and battery extractors give, [_create_laptop_specs] returns
    [LaptopSpecs()], because the method it calls for the additional
    features does not exist and the exception is answered with the
    default. *)
Theorem create_laptop_specs_always_default
        (graphics battery : result Models.str_dict)
        (tech_specs : spec_table) :
  AmazonRecord._create_laptop_specs graphics battery tech_specs
  = Models.LaptopSpecs_default.
Proof.
  unfold AmazonRecord._create_laptop_specs.
  destruct (AmazonSpider._extract_processor_info tech_specs);
    cbn [bind]; [|reflexivity].
  destruct graphics; cbn [bind]; [|reflexivity].
  destruct battery; cbn [bind]; [|reflexivity].
  destruct (AmazonSpider._extract_dimensions_info tech_specs);
    reflexivity.
Qed.

(** X23. [cleanup_old_records] removes nothing: for every collection,
    age limit and time it leaves the collection as it is and returns
    0, stale records included, because the cutoff is computed with a
    name the module never imports. *)
Theorem cleanup_removes_nothing (coll : DatabaseService.collection)
        (days now : Z) :
  DatabaseService.cleanup_old_records coll days now = (coll, 0%Z).
Proof. reflexivity. Qed.

(** ** Domains *)

Section DomainFacts.
Import Text AmazonSpider BaseSpider.

Lemma split_go_slash (r cur : string) :
  split_go "/" 0 cur (String "/" r) = cur :: split_go "/" 0 "" r.
Proof.
  cbn [split_go String.prefix].
  destruct (ascii_dec "/" "/") as [_|n]; [|congruence].
  replace (String.prefix "" r) with true by now destruct r.
  reflexivity.
Qed.

Lemma split_go_piece (a r cur : string) :
  has_char "/" a = false ->
  split_go "/" 0 cur (a ++ String "/" r)
  = (cur ++ a)%string :: split_go "/" 0 "" r.
Proof.
  revert cur. induction a as [|c a IH]; intros cur H.
  - rewrite append_empty, append_empty_r. apply split_go_slash.
  - cbn [has_char] in H. apply orb_false_iff in H as [Hc Ha].
    rewrite append_cons. cbn [split_go String.prefix].
    destruct (ascii_dec "/" c) as [E|_].
    + rewrite <- E in Hc. discriminate Hc.
    + rewrite (IH _ Ha). now rewrite append_assoc.
Qed.

Lemma split_plain (s : string) :
  has_char "/" s = false -> split "/" s = [s].
Proof. intros H. unfold split. now rewrite (split_go_plain "/" "" s H). Qed.

End DomainFacts.

(** X24. The domain used for rate limiting is the host of the address:
    for an address [scheme//host] or [scheme//host/path] whose scheme
    and host have no slash, [_get_domain] gives the host; for an
    address without any slash it fails with [IndexError]. *)
Theorem get_domain_is_host (scheme host : string)
        (Hscheme : has_char "/" scheme = false)
        (Hhost : has_char "/" host = false) :
  BaseSpider._get_domain (scheme ++ "//" ++ host) = Some host
  /\ (forall path,
        BaseSpider._get_domain (scheme ++ "//" ++ host ++ "/" ++ path)
        = Some host)
  /\ BaseSpider._get_domain scheme = None.
Proof.
  unfold BaseSpider._get_domain, Text.split. repeat split.
  - rewrite !append_cons, append_empty.
    rewrite (split_go_piece scheme _ "" Hscheme).
    rewrite split_go_slash.
    now rewrite (split_go_plain "/" "" host Hhost).
  - intros path. rewrite !append_cons, append_empty.
    rewrite (split_go_piece scheme _ "" Hscheme).
    rewrite split_go_slash.
    now rewrite (split_go_piece host _ "" Hhost).
  - now rewrite (split_go_plain "/" "" scheme Hscheme).
Qed.

Lemma get_domain_is_host_witness :
  BaseSpider._get_domain ("https:" ++ "//" ++ "www.amazon.in")
  = Some "www.amazon.in"
  /\ (forall path,
        BaseSpider._get_domain ("https:" ++ "//" ++ "www.amazon.in" ++ "/" ++ path)
        = Some "www.amazon.in")
  /\ BaseSpider._get_domain "https:" = None.
Proof.
  apply (get_domain_is_host "https:" "www.amazon.in"); reflexivity.
Defined.

(** X25. All product links share one rate-limiting domain: for every
    link that a listing page gives, [_get_domain] succeeds with
    [www.amazon.in]. *)
Theorem product_links_domain (asins : list string) :
  forall link, link ∈ AmazonSpider.extract_product_links asins ->
    BaseSpider._get_domain link = Some "www.amazon.in".
Proof.
  intros link H. unfold AmazonSpider.extract_product_links in H.
  apply firstn_elem in H. apply in_map_iff in H as (asin & <- & _).
  unfold BaseSpider._get_domain, Text.split.
  change (AmazonSpider.product_url asin)
    with ("https:" ++ String "/" (String "/"
            ("www.amazon.in" ++ String "/" ("dp/" ++ asin))))%string.
  rewrite (split_go_piece "https:" _ "" eq_refl).
  rewrite split_go_slash.
  rewrite (split_go_piece "www.amazon.in" _ "" eq_refl).
  reflexivity.
Qed.

Lemma product_links_domain_witness :
  BaseSpider._get_domain "https://www.amazon.in/dp/B0C1" = Some "www.amazon.in".
Proof.
  apply (product_links_domain ["B0C1"; " "]).
  apply list_elem_of_In. vm_compute. left. reflexivity.
Defined.

(** ** Whitespace *)

Section WhitespaceFacts.
Import Text.

Lemma rev_app_acc (s acc : string) :
  String.rev_app s acc = (String.rev_app s "" ++ acc)%string.
Proof.
  revert acc. induction s as [|x s IH]; intros acc; [reflexivity|].
  cbn [String.rev_app]. rewrite (IH (String x acc)), (IH (String x "")).
  now rewrite append_assoc.
Qed.

Lemma rev_cons (c : ascii) (s : string) :
  String.rev (String c s) = (String.rev s ++ String c "")%string.
Proof. unfold String.rev. cbn [String.rev_app]. apply rev_app_acc. Qed.

Lemma rev_snoc (a : string) (c : ascii) :
  String.rev (a ++ String c "") = String c (String.rev a).
Proof.
  unfold String.rev. generalize "" at 2 3 as acc.
  induction a as [|x a IH]; intros acc; [reflexivity|].
  rewrite append_cons. cbn [String.rev_app]. apply IH.
Qed.

Lemma blank_append (a b : string) :
  blank (a ++ b) = blank a && blank b.
Proof.
  unfold blank. induction a as [|x a IH]; [reflexivity|].
  rewrite append_cons. cbn [Text.all_chars]. now rewrite IH, andb_assoc.
Qed.

Lemma blank_rev (s : string) : blank (String.rev s) = blank s.
Proof.
  induction s as [|c s IH]; [reflexivity|].
  rewrite rev_cons, blank_append, IH. unfold blank. cbn [Text.all_chars].
  now rewrite andb_true_r, andb_comm.
Qed.

Lemma lstrip_snoc (a : string) (c : ascii) :
  Text.lstrip (a ++ String c "")
  = if blank a then (if Text.is_space c then "" else String c "")
    else (Text.lstrip a ++ String c "")%string.
Proof.
  unfold blank. induction a as [|x a IH].
  - rewrite append_empty. cbn [Text.all_chars Text.lstrip].
    now destruct (Text.is_space c).
  - rewrite append_cons. cbn [Text.all_chars Text.lstrip].
    destruct (Text.is_space x); [exact IH | reflexivity].
Qed.

Lemma rstrip_cons (c : ascii) (s : string) :
  rstrip (String c s)
  = if blank s then (if Text.is_space c then "" else String c "")
    else String c (rstrip s).
Proof.
  unfold rstrip. rewrite rev_cons, lstrip_snoc, blank_rev.
  destruct (blank s); [now destruct (Text.is_space c)|].
  apply rev_snoc.
Qed.

Lemma lstrip_blank (s : string) : blank s = true -> Text.lstrip s = "".
Proof.
  unfold blank. induction s as [|c s IH]; [reflexivity|].
  cbn [Text.all_chars Text.lstrip]. intros [-> H]%andb_true_iff. auto.
Qed.

Lemma rstrip_blank (s : string) : blank s = true -> rstrip s = "".
Proof.
  intros H. unfold rstrip. rewrite lstrip_blank; [reflexivity|].
  now rewrite blank_rev.
Qed.

(** A character that is not whitespace stays in front. *)
Lemma rstrip_head (c : ascii) (s : string) :
  Text.is_space c = false -> rstrip (String c s) = String c (rstrip s).
Proof.
  intros Hc. rewrite rstrip_cons, Hc.
  destruct (blank s) eqn:E; [|reflexivity]. now rewrite rstrip_blank.
Qed.

Lemma blank_squeeze (b : bool) (s : string) :
  blank (squeeze b s) = blank s.
Proof.
  unfold blank. revert b. induction s as [|c s IH]; intros b; [reflexivity|].
  cbn [squeeze Text.all_chars]. destruct (Text.is_space c) eqn:E.
  - destruct b; cbn [Text.all_chars andb]; apply IH.
  - cbn [Text.all_chars]. now rewrite E.
Qed.

Lemma lstrip_squeeze (b : bool) (s : string) :
  Text.lstrip (squeeze b s) = squeeze false (Text.lstrip s).
Proof.
  revert b. induction s as [|c s IH]; intros b; [reflexivity|].
  cbn [squeeze Text.lstrip]. destruct (Text.is_space c) eqn:E.
  - destruct b; cbn [Text.lstrip]; [apply IH|].
    change (Text.is_space " ") with true. cbn iota. apply IH.
  - cbn [Text.lstrip squeeze]. now rewrite E.
Qed.

Lemma squeeze_lstrip (s : string) :
  squeeze true s = squeeze false (Text.lstrip s).
Proof.
  induction s as [|c s IH]; [reflexivity|].
  cbn [squeeze Text.lstrip]. destruct (Text.is_space c) eqn:E; [exact IH|].
  cbn [squeeze]. now rewrite E.
Qed.

Lemma words_blank (s : string) : blank s = true -> words_go "" s = [].
Proof.
  unfold blank. induction s as [|c s IH]; [reflexivity|].
  cbn [Text.all_chars words_go]. intros [-> H]%andb_true_iff.
  cbn [Text.nonempty]. auto.
Qed.

Lemma nonempty_snoc (cur : string) (c : ascii) :
  Text.nonempty (cur ++ String c "") = true.
Proof. now destruct cur. Qed.

(** With a run in progress there is at least one word, and it is not
    empty. *)
Lemma words_go_run (s cur : string) :
  Text.nonempty cur = true ->
  exists w ws, words_go cur s = w :: ws /\ Text.nonempty w = true.
Proof.
  revert cur. induction s as [|c s IH]; intros cur H; cbn [words_go].
  - rewrite H. now exists cur, [].
  - destruct (Text.is_space c).
    + rewrite H. now exists cur, (words_go "" s).
    + apply IH, nonempty_snoc.
Qed.

Lemma words_nonblank (s : string) :
  blank s = false ->
  exists w ws, words_go "" s = w :: ws /\ Text.nonempty w = true.
Proof.
  unfold blank. induction s as [|c s IH]; [discriminate|].
  cbn [Text.all_chars words_go]. destruct (Text.is_space c).
  - cbn [andb Text.nonempty]. exact IH.
  - intros _. apply words_go_run. reflexivity.
Qed.

Lemma words_lstrip (s : string) :
  words_go "" (Text.lstrip s) = words_go "" s.
Proof.
  induction s as [|c s IH]; [reflexivity|].
  cbn [Text.lstrip]. destruct (Text.is_space c) eqn:E; [|reflexivity].
  cbn [words_go]. now rewrite E.
Qed.

Lemma words_go_blank (s cur : string) :
  blank s = true ->
  words_go cur s = if Text.nonempty cur then [cur] else [].
Proof.
  unfold blank. destruct s as [|c s]; [reflexivity|].
  cbn [Text.all_chars words_go]. intros [-> H]%andb_true_iff.
  now rewrite (words_blank s H).
Qed.

Lemma words_rstrip (s : string) :
  forall cur, words_go cur (rstrip s) = words_go cur s.
Proof.
  induction s as [|c s IH]; intros cur; [reflexivity|].
  rewrite rstrip_cons. destruct (blank s) eqn:E.
  - cbn [words_go]. destruct (Text.is_space c) eqn:Ec.
    + rewrite (words_blank s E). reflexivity.
    + cbn [words_go]. rewrite Ec. cbn [words_go].
      now rewrite (words_go_blank s _ E).
  - cbn [words_go]. destruct (Text.is_space c); now rewrite IH.
Qed.

Lemma words_strip (s : string) : words (Text.strip s) = words s.
Proof.
  unfold words. change (Text.strip s) with (rstrip (Text.lstrip s)).
  now rewrite words_rstrip, words_lstrip.
Qed.

Lemma join_cons (sep w : string) (ws : list string) :
  Text.join sep (w :: ws)
  = match ws with [] => w | _ => (w ++ sep ++ Text.join sep ws)%string end.
Proof. now destruct ws. Qed.

(** Joining the words gives the squeezed text without the blanks at
    its ends. *)
Lemma join_words_squeeze (s : string) :
  (forall cur, Text.nonempty cur = true ->
     Text.join " " (words_go cur s)
     = (cur ++ rstrip (squeeze false s))%string)
  /\ Text.join " " (words_go "" s) = rstrip (squeeze true s).
Proof.
  induction s as [|c s [IHrun IHnew]]; (split; [intros cur Hcur|]).
  - cbn [words_go]. rewrite Hcur. cbn. now rewrite append_empty_r.
  - reflexivity.
  - cbn [words_go squeeze]. destruct (Text.is_space c) eqn:E.
    + rewrite Hcur, join_cons, rstrip_cons, blank_squeeze.
      change (Text.is_space " ") with true. cbn iota.
      destruct (blank s) eqn:Eb.
      * rewrite (words_blank s Eb). now rewrite append_empty_r.
      * destruct (words_nonblank s Eb) as (w & ws & Hw & _).
        rewrite IHnew in *. rewrite Hw. reflexivity.
    + rewrite (IHrun _ (nonempty_snoc cur c)), (rstrip_head c _ E).
      now rewrite append_assoc.
  - cbn [words_go squeeze]. destruct (Text.is_space c) eqn:E.
    + cbn [Text.nonempty]. exact IHnew.
    + rewrite (IHrun ("" ++ String c "")%string eq_refl), (rstrip_head c _ E).
      reflexivity.
Qed.

End WhitespaceFacts.

(** X26. The two text cleaners are one function: for every text,
    [helpers.clean_text] and the spiders' [_clean_text] give the same
    result. *)
Theorem clean_text_same (text : string) :
  Helpers.clean_text text = BaseSpider._clean_text text.
Proof.
  unfold Helpers.clean_text, BaseSpider._clean_text.
  destruct text as [|c s]; [reflexivity|]. cbn [Text.nonempty].
  rewrite words_strip. unfold Text.words.
  rewrite (proj2 (join_words_squeeze (String c s))).
  change (Text.strip ?x) with (rstrip (Text.lstrip x)).
  now rewrite lstrip_squeeze, squeeze_lstrip.
Qed.

(** X27. On an ASCII text [_clean_text] gives the empty text exactly
    when the text is blank, that is empty or made of whitespace only;
    the page parser gives a product up when the cleaned title is
    empty. *)
Theorem clean_text_empty_iff_blank (text : string)
        (Hascii : ascii_text text = true) :
  BaseSpider._clean_text text = "" <-> blank text = true.
Proof.
  unfold BaseSpider._clean_text.
  destruct text as [|c s]; [now split|]. cbn [Text.nonempty].
  rewrite words_strip. unfold Text.words.
  destruct (blank (String c s)) eqn:E.
  - rewrite (words_blank _ E). now split.
  - destruct (words_nonblank _ E) as (w & ws & -> & Hw).
    split; [|discriminate]. rewrite join_cons.
    destruct w; [discriminate|]. destruct ws; discriminate.
Qed.

Lemma clean_text_empty_iff_blank_witness :
  BaseSpider._clean_text "   " = "" <-> blank "   " = true.
Proof. apply (clean_text_empty_iff_blank "   "). reflexivity. Defined.

(** ** Fetching a page *)

Section FetchFacts.
Import BaseSpider.

Lemma try_fetch_spec (retry_count : nat) (a : attempt) :
  match try_fetch retry_count a with
  | (Some text, inside) =>
      met a = Response 200 (Some text) /\ inside = limiter_pause a
  | (None, inside) =>
      (forall text, met a <> Response 200 (Some text))
      /\ (limiter_pause a <= inside
          <= limiter_pause a + 5 * (inject_Z (Z.of_nat retry_count) + 1))%Q
  end.
Proof.
  assert (Hpos : (0 <= 5 * (inject_Z (Z.of_nat retry_count) + 1))%Q).
  { assert (H : (0 <= inject_Z (Z.of_nat retry_count))%Q)
      by (rewrite <- (Zle_Qle 0); lia).
    lra. }
  unfold try_fetch. destruct (met a) as [status text| |];
    try (split; [discriminate | lra]).
  destruct (Z.eqb_spec status 200) as [->|Hne].
  - destruct text as [text|]; [now split|].
    split; [discriminate | lra].
  - destruct (status =? 404)%Z; [split; [congruence | lra]|].
    destruct (_ || _); split; try congruence; lra.
Qed.

End FetchFacts.

(** X28. [get_page_content] makes at most three attempts and returns the
    text of the first one answered with status 200; a 404 is tried
    again like every other failure.  Besides the pauses of the rate
    limiter in the attempts made, it sleeps between 12 and 42 seconds
    when none of the three attempts delivers and it raises, and at most
    21 seconds when one does. *)
Theorem get_page_content_three_attempts
        (attempts : nat -> BaseSpider.attempt) :
  match BaseSpider.get_page_content attempts with
  | (Some text, slept) =>
      exists k,
        k < 3
        /\ BaseSpider.met (attempts k) = BaseSpider.Response 200 (Some text)
        /\ (forall j t, j < k ->
              BaseSpider.met (attempts j)
              <> BaseSpider.Response 200 (Some t))
        /\ (limiter_pauses attempts (S k) <= slept
            <= limiter_pauses attempts (S k) + 21)%Q
  | (None, slept) =>
      (forall k t, k < 3 ->
         BaseSpider.met (attempts k) <> BaseSpider.Response 200 (Some t))
      /\ (limiter_pauses attempts 3 + 12 <= slept
          <= limiter_pauses attempts 3 + 42)%Q
  end.
Proof.
  unfold BaseSpider.get_page_content.
  cbn [BaseSpider.fetch_loop limiter_pauses].
  pose proof (try_fetch_spec 0 (attempts 0)) as H0.
  pose proof (try_fetch_spec 1 (attempts 1)) as H1.
  pose proof (try_fetch_spec 2 (attempts 2)) as H2.
  change (inject_Z (Z.of_nat 0)) with 0%Q in *.
  change (inject_Z (Z.of_nat 1)) with 1%Q in *.
  change (inject_Z (Z.of_nat 2)) with 2%Q in *.
  destruct (BaseSpider.try_fetch 0 (attempts 0)) as [[t0|] i0].
  { destruct H0 as [H0 ->]. exists 0. cbn [limiter_pauses]. split; [lia|]. split; [exact H0|].
    split; [lia | lra]. }
  destruct H0 as [H0 B0].
  destruct (BaseSpider.try_fetch 1 (attempts 1)) as [[t1|] i1].
  { destruct H1 as [H1 ->]. exists 1. cbn [limiter_pauses]. split; [lia|]. split; [exact H1|].
    split; [|lra].
    intros j t Hj. assert (j = 0) as -> by lia. apply H0. }
  destruct H1 as [H1 B1].
  destruct (BaseSpider.try_fetch 2 (attempts 2)) as [[t2|] i2].
  { destruct H2 as [H2 ->]. exists 2. cbn [limiter_pauses]. split; [lia|]. split; [exact H2|].
    split; [|lra].
    intros j t Hj. assert (j = 0 \/ j = 1) as [-> | ->] by lia; auto. }
  destruct H2 as [H2 B2]. split; [|lra].
  intros k t Hk.
  assert (k = 0 \/ k = 1 \/ k = 2) as [-> | [-> | ->]] by lia; auto.
Qed.

(** ** The storage cleaner *)

Section CleanerFacts.
Import Re.

Lemma chr_inv_cs a s c s' c' :
  matches false (Chr a) s c s' c' -> s = String a s' /\ c' = c.
Proof.
  inversion 1; subst. split; [|reflexivity].
  match goal with H : chr_match false _ _ = true |- _ =>
    apply Ascii.eqb_eq in H as -> end.
  reflexivity.
Qed.

(** What [(GB|TB)] takes, case-sensitively, is one of the two units. *)
Lemma unit_group (n : nat) s c s' c' :
  matches false (Grp n (Alt (Word "GB") (Word "TB"))) s c s' c' ->
  exists u, (u = "GB" \/ u = "TB") /\ c' = (n, u) :: c.
Proof.
  intros H. apply grp_inv in H as (c1 & H & ->).
  apply alt_inv in H as [H|H]; cbn [Word] in H;
    apply seq_inv in H as (s1 & c2 & H1 & H2);
    apply chr_inv_cs in H1 as [-> ->], H2 as [-> ->].
  - exists "GB". split; [now left|].
    change (String "G" (String "B" s')) with ("GB" ++ s')%string.
    now rewrite consumed_append.
  - exists "TB". split; [now right|].
    change (String "T" (String "B" s')) with ("TB" ++ s')%string.
    now rewrite consumed_append.
Qed.

Lemma matches_star_space_caps icase s c s' c' :
  matches icase (Star space) s c s' c' -> c' = c.
Proof. intros H. now apply matches_no_groups in H. Qed.

End CleanerFacts.

(** X29. The shape of what [clean_storage_info] returns: the type is
    empty or one of SSD, HDD, eMMC, and the capacity is empty or a run of
    digits followed by "GB" or "TB", the unit as the text wrote it,
    without the blanks the text had between them. *)
Theorem clean_storage_info_shape (info : string) :
  let r := DataCleaner.clean_storage_info info in
  DataCleaner.s_type r ∈ [""; "SSD"; "HDD"; "eMMC"]
  /\ (DataCleaner.s_capacity r = ""
      \/ capacity_shape (DataCleaner.s_capacity r)).
Proof.
  cbv zeta. unfold DataCleaner.clean_storage_info.
  cbn [DataCleaner.s_type DataCleaner.s_capacity]. split.
  - apply (first_match_table _ DataCleaner.storage_types (fun t => t)).
  - destruct (Re.search false DataCleaner.capacity_re info) as [m|] eqn:E;
      [right | now left].
    apply search_sound in E as (s0 & s' & H & _).
    unfold DataCleaner.capacity_re in H.
    apply seq_inv in H as (s1 & c1 & Hg & H).
    apply matches_digits_group in Hg as (d & Hd & Hne & _ & ->).
    apply seq_inv in H as (s2 & c2 & Hs & H).
    apply matches_star_space_caps in Hs as ->.
    apply unit_group in H as (u & Hu & ->).
    cbn [Re.group Nat.eqb]. exists d. split; [now split|].
    destruct Hu as [-> | ->]; auto.
Qed.
